(** * housing_assessment_prediction.py: a shallow embedding

    The script [src/housing_assessment_prediction.py] reads a cleaned train
    and test table, cross-validates four regressors, refits the ridge
    pipeline, ranks its coefficients and writes three CSV tables.

    Conventions of the embedding.
    - A float64 is idealised as an exact rational ([Q]); scikit-learn
      rejects NaN and infinite inputs, so the data hold neither.  A score
      may be undefined: scores are of type [float], a rational or [NaN].
    - A Python exception is a value of [exn]; a computation that may raise
      returns [result].
    - Calls into NumPy, pandas, scikit-learn and the operating system are
      embedded from their documented behaviour for the arguments the script
      passes; numerical estimators whose arithmetic is irrelevant to the
      properties below (ridge, forest, boosting) are section variables. *)

From Stdlib Require Import QArith Qround Qabs.
From Stdlib Require Import Sorting.Sorted Sorting.Permutation.
From Stdlib Require Import Lqa Lia.
From Stdlib Require OrderedTypeEx.
From stdpp Require Import gmap strings list fin_maps.

Open Scope Q_scope.

(** ** Exceptions *)

Inductive exn : Type :=
  | FileNotFoundError    (* ENOENT *)
  | FileExistsError      (* EEXIST *)
  | NotADirectoryError   (* ENOTDIR *)
  | IsADirectoryError    (* EISDIR *)
  | PermissionError      (* EACCES *)
  | DiskFullError        (* OSError, ENOSPC *)
  | IndexError
  | ValueError.

Inductive result (A : Type) : Type :=
  | Ok (a : A)
  | Raise (e : exn).
Arguments Ok {A} a.
Arguments Raise {A} e.

Definition bind_result {A B} (m : result A) (k : A -> result B) : result B :=
  match m with
  | Ok a => k a
  | Raise e => Raise e
  end.

Fixpoint map_result {A B} (f : A -> result B) (l : list A) : result (list B) :=
  match l with
  | [] => Ok []
  | x :: l' =>
      bind_result (f x) (fun y =>
      bind_result (map_result f l') (fun ys => Ok (y :: ys)))
  end.

(** Python's [l[i]] for a non-negative index. *)
Definition getitem {A} (l : list A) (i : nat) : result A :=
  match l !! i with
  | Some x => Ok x
  | None => Raise IndexError
  end.

(** ** NumPy arithmetic on idealised floats *)

Definition Qltb (x y : Q) : bool := negb (Qle_bool y x).

(** [np.rint]: round to the nearest integer, halves to the even one. *)
Definition rint (x : Q) : Z :=
  let f := Qfloor x in
  match Qcompare (x - inject_Z f) (1 # 2) with
  | Lt => f
  | Gt => (f + 1)%Z
  | Eq => if Z.even f then f else (f + 1)%Z
  end.

Definition pow10 (decimals : nat) : Q := inject_Z (10 ^ Z.of_nat decimals).

(** [ndarray.round(decimals)] for [decimals >= 0]: multiply by
    [10**decimals], [rint], divide back. *)
Definition np_round (decimals : nat) (x : Q) : Q :=
  inject_Z (rint (x * pow10 decimals)) / pow10 decimals.

Definition Qsum (l : list Q) : Q := fold_right Qplus 0 l.

(** The mean of a column without missing cells. *)
Definition mean (l : list Q) : Q := Qsum l / inject_Z (Z.of_nat (length l)).

(** A float that may be undefined: scikit-learn's scorers and pandas'
    reductions return [NaN] where a score has no value. *)
Inductive float : Type :=
  | Finite (x : Q)
  | NaN.

Definition finite_values (l : list float) : list Q :=
  omap (fun v => match v with Finite x => Some x | NaN => None end) l.

(** [Series.mean()] with its default [skipna=True]: the mean of the
    cells that are not [NaN], and [NaN] when there is none. *)
Definition nanmean (l : list float) : float :=
  match finite_values l with
  | [] => NaN
  | xs => Finite (mean xs)
  end.

(** [Series.round(decimals)] leaves [NaN] as it is. *)
Definition round_float (decimals : nat) (v : float) : float :=
  match v with
  | Finite x => Finite (np_round decimals x)
  | NaN => NaN
  end.

(** [np.arange(start, stop, step)] on integers with a positive step. *)
Definition np_arange (start stop step : Z) : list Z :=
  map (fun i => (start + Z.of_nat i * step)%Z)
      (seq 0 (Z.to_nat ((stop - start + step - 1) / step))).

(** ** [np.argsort]

    The documented contract: the result lists every position of the input
    once, and reading the input through it gives an ascending sequence. *)

Definition ascending (l : list Q) : Prop :=
  forall i x y, l !! i = Some x -> l !! S i = Some y -> x <= y.

Fixpoint ascendingb (l : list Q) : bool :=
  match l with
  | x :: (y :: _) as l' => Qle_bool x y && ascendingb l'
  | _ => true
  end.

Definition take_at {A} (v : list A) (inds : list nat) : list A :=
  omap (fun i => v !! i) inds.

Definition is_argsort (v : list Q) (inds : list nat) : Prop :=
  Permutation inds (seq 0 (length v)) /\ ascending (take_at v inds).

Definition is_argsortb (v : list Q) (inds : list nat) : bool :=
  bool_decide (Permutation inds (seq 0 (length v))) && ascendingb (take_at v inds).

(** The default [kind='quicksort'] of [np.argsort] for float64, as in
    NumPy's [npysort/quicksort.c.src] ([aquicksort_double]) and
    [heapsort.c.src] ([aheapsort_double]): an introsort over the index
    array [tosort]; [v] is never moved.  Pointers into [tosort] are
    positions. *)

Definition SMALL_QUICKSORT : nat := 16.

Definition at_ (a : list nat) (p : nat) : nat := default 0%nat (a !! p).
Definition key (v : list Q) (a : list nat) (p : nat) : Q :=
  default 0 (v !! at_ a p).
Definition store (a : list nat) (p x : nat) : list nat := <[p := x]> a.

(** [INTP_SWAP( *p, *q )] *)
Definition INTP_SWAP (a : list nat) (p q : nat) : list nat :=
  store (store a p (at_ a q)) q (at_ a p).

Definition swap_if_lt (v : list Q) (a : list nat) (p q : nat) : list nat :=
  if Qltb (key v a p) (key v a q) then INTP_SWAP a p q else a.

(** [do ++pi; while (v[*pi] < vp);] *)
Fixpoint scan_up (fuel : nat) (v : list Q) (a : list nat) (vp : Q) (pi : nat) : nat :=
  match fuel with
  | O => S pi
  | S fuel' =>
      if Qltb (key v a (S pi)) vp then scan_up fuel' v a vp (S pi) else S pi
  end.

(** [do --pj; while (vp < v[*pj]);] *)
Fixpoint scan_down (fuel : nat) (v : list Q) (a : list nat) (vp : Q) (pj : nat) : nat :=
  match fuel with
  | O => pred pj
  | S fuel' =>
      if Qltb vp (key v a (pred pj)) then scan_down fuel' v a vp (pred pj) else pred pj
  end.

(** The [for (;;)] loop of the partition step. *)
Fixpoint partition_loop (fuel : nat) (v : list Q) (a : list nat) (vp : Q)
    (pi pj : nat) : list nat * nat :=
  match fuel with
  | O => (a, pi)
  | S fuel' =>
      let pi' := scan_up (length a) v a vp pi in
      let pj' := scan_down (length a) v a vp pj in
      if (pj' <=? pi')%nat then (a, pi')
      else partition_loop fuel' v (INTP_SWAP a pi' pj') vp pi' pj'
  end.

(** Median of three, pivot parked at [pr - 1], partition, pivot put back
    at [pi]. *)
Definition partition (v : list Q) (a : list nat) (pl pr : nat) : list nat * nat :=
  let pm := (pl + (pr - pl) / 2)%nat in
  let a := swap_if_lt v a pm pl in
  let a := swap_if_lt v a pr pm in
  let a := swap_if_lt v a pm pl in
  let vp := key v a pm in
  let pj := (pr - 1)%nat in
  let a := INTP_SWAP a pm pj in
  let '(a, pi) := partition_loop (length a) v a vp pl pj in
  (INTP_SWAP a pi (pr - 1)%nat, pi).

(** The inner [while (pj > pl && vp < v[*pk])] of the insertion sort. *)
Fixpoint shift_right (fuel : nat) (v : list Q) (a : list nat) (pl : nat) (vp : Q)
    (pj : nat) : list nat * nat :=
  match fuel with
  | O => (a, pj)
  | S fuel' =>
      if (pl <? pj)%nat && Qltb vp (key v a (pj - 1))
      then shift_right fuel' v (store a pj (at_ a (pj - 1))) pl vp (pj - 1)%nat
      else (a, pj)
  end.

Definition insert_at (v : list Q) (pl : nat) (a : list nat) (pi : nat) : list nat :=
  let vi := at_ a pi in
  let vp := default 0 (v !! vi) in
  let '(a, pj) := shift_right (length a) v a pl vp pi in
  store a pj vi.

(** [for (pi = pl + 1; pi <= pr; ++pi)] *)
Definition insertion_sort (v : list Q) (a : list nat) (pl pr : nat) : list nat :=
  fold_left (insert_at v pl) (seq (S pl) (pr - pl)) a.

(** [aheapsort]: [a = tosort - 1], so heap slot [l] is position
    [base + l - 1]. *)
Fixpoint sift (fuel : nat) (v : list Q) (a : list nat) (base n tmp i j : nat) : list nat :=
  let slot l := (base + l - 1)%nat in
  match fuel with
  | O => store a (slot i) tmp
  | S fuel' =>
      if (j <=? n)%nat then
        let j := if (j <? n)%nat && Qltb (key v a (slot j)) (key v a (slot (S j)))
                 then S j else j in
        if Qltb (default 0 (v !! tmp)) (key v a (slot j))
        then sift fuel' v (store a (slot i) (at_ a (slot j))) base n tmp j (j + j)
        else store a (slot i) tmp
      else store a (slot i) tmp
  end.

Definition heapify (v : list Q) (base n : nat) (a : list nat) (l : nat) : list nat :=
  sift n v a base n (at_ a (base + l - 1)) l (2 * l).

Definition pop_max (v : list Q) (base : nat) (a : list nat) (n : nat) : list nat :=
  let tmp := at_ a (base + n - 1) in
  let a := store a (base + n - 1) (at_ a base) in
  sift n v a base (n - 1) tmp 1 2.

Definition aheapsort (v : list Q) (a : list nat) (base n : nat) : list nat :=
  let a := fold_left (heapify v base n) (rev (seq 1 (n / 2))) a in
  fold_left (pop_max v base) (rev (seq 2 (n - 1))) a.

(** The [while ((pr - pl) > SMALL_QUICKSORT)] loop; the larger side of each
    partition is pushed with the decremented depth. *)
Fixpoint quick_inner (fuel : nat) (v : list Q) (a : list nat) (pl pr : nat)
    (stack : list (nat * nat * Z)) (cdepth : Z)
    : list nat * nat * nat * list (nat * nat * Z) :=
  match fuel with
  | O => (a, pl, pr, stack)
  | S fuel' =>
      if (SMALL_QUICKSORT <? pr - pl)%nat then
        let '(a, pi) := partition v a pl pr in
        let cdepth := (cdepth - 1)%Z in
        if (pi - pl <? pr - pi)%nat
        then quick_inner fuel' v a pl (pi - 1) ((S pi, pr, cdepth) :: stack) cdepth
        else quick_inner fuel' v a (S pi) pr ((pl, (pi - 1)%nat, cdepth) :: stack) cdepth
      else (a, pl, pr, stack)
  end.

(** The outer [while (1)] with its [stack_pop] exit. *)
Fixpoint quick_outer (fuel : nat) (v : list Q) (a : list nat) (pl pr : nat)
    (stack : list (nat * nat * Z)) (cdepth : Z) : list nat :=
  match fuel with
  | O => a
  | S fuel' =>
      let '(a, stack) :=
        if (cdepth <? 0)%Z then (aheapsort v a pl (pr - pl + 1), stack)
        else
          let '(a, pl, pr, stack) := quick_inner (length a) v a pl pr stack cdepth in
          (insertion_sort v a pl pr, stack) in
      match stack with
      | [] => a
      | (pl, pr, cdepth) :: stack => quick_outer fuel' v a pl pr stack cdepth
      end
  end.

Definition npy_get_msb (num : nat) : Z := Z.log2 (Z.of_nat num).

Definition np_argsort (v : list Q) : list nat :=
  let num := length v in
  match num with
  | O => []
  | S n => quick_outer num v (seq 0 num) 0 n [] (npy_get_msb num * 2)
  end.

(** ** Ranked coefficients (lines 117-121 of [main])

    [coef] is [ridgecv.named_steps['ridgecv'].coef_.flatten()], [inds] the
    value [np.argsort] returned for it. *)

Record feature_row := { feature : string; coefficient : Q }.

Definition feature_table (features : list string) (coef : list Q) (inds : list nat)
    : result (list feature_row) :=
  let weights := map (np_round 2) coef in
  bind_result (map_result (fun index => getitem features index) inds) (fun fs =>
  bind_result (map_result (fun index => getitem weights index) inds) (fun cs =>
  Ok (zip_with Build_feature_row fs cs))).

Definition ranked_coefficients (features : list string) (coef : list Q)
    : result (list feature_row) :=
  feature_table features coef (np_argsort coef).

(** ** The input tables

    One record per CSV row, restricted to the ten columns [main] selects.
    A cell the imputers may fill is an [option]. *)

Record house := {
  AGE : option Q;
  BLDG_DESC : option string;
  BLDG_FEET : option Q;
  GARAGE : string;
  FIREPLACE : string;
  BASEMENT : string;
  BSMTDEVL : string;
  LATITUDE : option Q;
  LONGITUDE : option Q;
  ASSESSMENT : Q
}.

Definition categorical_features : list string := ["BLDG_DESC"].
Definition binary_features : list string := ["GARAGE"; "FIREPLACE"; "BASEMENT"; "BSMTDEVL"].
Definition numerical_features : list string := ["AGE"; "BLDG_FEET"; "LATITUDE"; "LONGITUDE"].

Definition categorical_cells (h : house) : list (option string) := [BLDG_DESC h].
Definition binary_cells (h : house) : list string :=
  [GARAGE h; FIREPLACE h; BASEMENT h; BSMTDEVL h].
Definition numerical_cells (h : house) : list (option Q) :=
  [AGE h; BLDG_FEET h; LATITUDE h; LONGITUDE h].

(** ** Preprocessing (lines 64-82) *)

(** [SimpleImputer(strategy="constant")] with the default [fill_value]:
    ["missing_value"] for strings, [0] for numbers. *)
Definition impute_str (c : option string) : string := default "missing_value" c.
Definition impute_num (c : option Q) : Q := default 0 c.

(** [np.unique] on strings: the sorted distinct values. *)
Fixpoint insert_unique (x : string) (l : list string) : list string :=
  match l with
  | [] => [x]
  | y :: l' =>
      match String.compare x y with
      | Lt => x :: l
      | Eq => l
      | Gt => y :: insert_unique x l'
      end
  end.

Definition np_unique (l : list string) : list string := foldr insert_unique [] l.

Inductive unknown_policy := unknown_error | unknown_ignore.
Inductive drop_policy := drop_None | drop_if_binary.

Record OneHotEncoder := {
  handle_unknown : unknown_policy;
  drop : drop_policy;
  categories_ : list (list string)
}.

(** [fit]: one sorted category list per input column. *)
Definition ohe_fit (hu : unknown_policy) (dr : drop_policy) (columns : list (list string))
    : OneHotEncoder :=
  {| handle_unknown := hu; drop := dr; categories_ := map np_unique columns |}.

(** [drop_idx_]: with [drop="if_binary"], the first category of every
    column that has exactly two. *)
Definition drop_idx (dr : drop_policy) (cats : list string) : option nat :=
  match dr with
  | drop_None => None
  | drop_if_binary => if (length cats =? 2)%nat then Some 0%nat else None
  end.

Definition pop {A} (i : option nat) (l : list A) : list A :=
  match i with
  | Some i => delete i l
  | None => l
  end.

Definition indicator (cats : list string) (x : string) : list Q :=
  map (fun c => if String.eqb c x then 1 else 0) cats.

Definition ohe_cell (enc : OneHotEncoder) (cats : list string) (x : string)
    : result (list Q) :=
  if bool_decide (x ∈ cats) then Ok (pop (drop_idx (drop enc) cats) (indicator cats x))
  else
    match handle_unknown enc with
    | unknown_error => Raise ValueError
    | unknown_ignore => Ok (pop (drop_idx (drop enc) cats) (replicate (length cats) 0))
    end.

Fixpoint ohe_cells (enc : OneHotEncoder) (catss : list (list string)) (xs : list string)
    : result (list Q) :=
  match catss, xs with
  | cats :: catss', x :: xs' =>
      bind_result (ohe_cell enc cats x) (fun v =>
      bind_result (ohe_cells enc catss' xs') (fun vs => Ok (v ++ vs)))
  | [], [] => Ok []
  | _, _ => Raise ValueError
  end.

Definition ohe_transform (enc : OneHotEncoder) (xs : list string) : result (list Q) :=
  ohe_cells enc (categories_ enc) xs.

(** [get_feature_names(input_features)] *)
Definition get_feature_names (enc : OneHotEncoder) (input_features : list string)
    : list string :=
  concat (zip_with
            (fun name cats =>
               pop (drop_idx (drop enc) cats)
                   (map (fun c => name +:+ "_" +:+ c) cats))
            input_features (categories_ enc)).

(** The fitted [ColumnTransformer]: ['pipeline-1'] is the categorical
    transformer, ['pipeline-2'] the binary one; the numerical pipeline has
    no fitted state. *)
Record ColumnTransformer := {
  pipeline_1 : OneHotEncoder;
  pipeline_2 : OneHotEncoder
}.

Definition column {A} (f : house -> A) (X : list house) : list A := map f X.

Definition preprocessor_fit (X : list house) : ColumnTransformer :=
  {| pipeline_1 :=
       ohe_fit unknown_ignore drop_None
               [column (fun h => impute_str (BLDG_DESC h)) X];
     pipeline_2 :=
       ohe_fit unknown_error drop_if_binary
               [column GARAGE X; column FIREPLACE X; column BASEMENT X; column BSMTDEVL X] |}.

Definition preprocessor_transform (p : ColumnTransformer) (h : house) : result (list Q) :=
  bind_result (ohe_transform (pipeline_1 p) (map impute_str (categorical_cells h))) (fun c =>
  bind_result (ohe_transform (pipeline_2 p) (binary_cells h)) (fun b =>
  Ok (c ++ b ++ map impute_num (numerical_cells h)))).

(** Lines 113-115. *)
Definition expanded_features (p : ColumnTransformer) : list string :=
  let ohe_columns := get_feature_names (pipeline_1 p) categorical_features in
  let binary_columns := get_feature_names (pipeline_2 p) binary_features in
  ohe_columns ++ binary_columns ++ numerical_features.

(** ** The ridge penalty grid (line 85) *)

Definition alphas : list Q := map (fun e => Qpower 10 e) (np_arange (-5) 5 1).

(** [RidgeCV] keeps the first candidate with the least cross-validated
    error. *)
Fixpoint first_min (err : Q -> Q) (best : Q) (l : list Q) : Q :=
  match l with
  | [] => best
  | a :: l' => if Qltb (err a) (err best) then first_min err a l' else first_min err best l'
  end.

Definition select_alpha (err : Q -> Q) (candidates : list Q) : result Q :=
  match candidates with
  | [] => Raise ValueError
  | a :: l => Ok (first_min err a l)
  end.

(** ** Scoring and cross-validation *)

Definition sum_sq (l : list Q) : Q := Qsum (map (fun x => x * x) l).

(** The coefficient of determination: a vanishing residual scores [1],
    a constant target with a non-vanishing residual scores [0]. *)
Definition coefficient_of_determination (y_true y_pred : list Q) : Q :=
  let numerator := sum_sq (zip_with Qminus y_true y_pred) in
  let m := mean y_true in
  let denominator := sum_sq (map (fun y => y - m) y_true) in
  if Qeq_bool numerator 0 then 1
  else if Qeq_bool denominator 0 then 0
  else 1 - numerator / denominator.

(** [sklearn.metrics.r2_score]: targets and predictions of different
    lengths are refused; on fewer than two samples the score is not
    defined and [NaN] is returned (with a warning). *)
Definition r2_score (y_true y_pred : list Q) : result float :=
  if negb (length y_true =? length y_pred)%nat then Raise ValueError
  else if (length y_pred <? 2)%nat then Ok NaN
  else Ok (Finite (coefficient_of_determination y_true y_pred)).

(** An estimator: [fit] returns the fitted [predict]. *)
Record estimator := {
  fit : list house -> result (house -> result Q)
}.

Definition y_of (data : list house) : list Q := map ASSESSMENT data.

(** [KFold(n_splits)] without shuffling: consecutive test blocks, the
    first [n_samples % n_splits] of them one longer. *)
Definition fold_size (n k i : nat) : nat :=
  (n / k + (if (i <? n mod k)%nat then 1 else 0))%nat.
Definition fold_start (n k i : nat) : nat :=
  (i * (n / k) + Nat.min i (n mod k))%nat.

Definition fold_indices (n k i : nat) : list nat * list nat :=
  let start := fold_start n k i in
  let stop := (start + fold_size n k i)%nat in
  (seq 0 start ++ seq stop (n - stop), seq start (stop - start)).

Definition KFold (n_splits n_samples : nat) : result (list (list nat * list nat)) :=
  if (n_splits <? 2)%nat then Raise ValueError
  else if (n_samples <? n_splits)%nat then Raise ValueError
  else Ok (map (fold_indices n_samples n_splits) (seq 0 n_splits)).

(** [cv=None] means five folds. *)
Definition check_cv (cv : option nat) : nat := default 5%nat cv.

Record fold_scores := {
  fs_fit_time : Q;
  fs_score_time : Q;
  fs_test_score : float;
  fs_train_score : float
}.

(** One fold of [cross_validate(..., return_train_score=True,
    scoring="r2")]; [timing] is what the wall clock measured. *)
Definition fit_and_score (est : estimator) (data : list house) (timing : Q * Q)
    (fold : list nat * list nat) : result fold_scores :=
  let train := take_at data fold.1 in
  let test := take_at data fold.2 in
  bind_result (fit est train) (fun predict =>
  bind_result (map_result predict test) (fun test_pred =>
  bind_result (r2_score (y_of test) test_pred) (fun test_score =>
  bind_result (map_result predict train) (fun train_pred =>
  bind_result (r2_score (y_of train) train_pred) (fun train_score =>
  Ok {| fs_fit_time := timing.1;
        fs_score_time := timing.2;
        fs_test_score := test_score;
        fs_train_score := train_score |}))))).

(** The dict [cross_validate] returns, in key order. *)
Definition scores_dict (rs : list fold_scores) : list (string * list float) :=
  [("fit_time", map (fun s => Finite (fs_fit_time s)) rs);
   ("score_time", map (fun s => Finite (fs_score_time s)) rs);
   ("test_score", map fs_test_score rs);
   ("train_score", map fs_train_score rs)].

Definition cross_validate (est : estimator) (data : list house) (cv : option nat)
    (elapsed : nat -> Q * Q) : result (list (string * list float)) :=
  bind_result (KFold (check_cv cv) (length data)) (fun folds =>
  bind_result (map_result (fun '(i, fold) => fit_and_score est data (elapsed i) fold)
                          (imap pair folds)) (fun rs =>
  Ok (scores_dict rs))).

(** [pd.DataFrame(scores).mean().round(4).tolist()] *)
Definition mean_scores (scores : list (string * list float)) : list float :=
  map (fun kv => round_float 4 (nanmean kv.2)) scores.

(** ** Tables *)

Inductive cell : Type :=
  | Str (s : string)
  | Num (x : Q)
  | Nan.

Definition cell_of_float (v : float) : cell :=
  match v with
  | Finite x => Num x
  | NaN => Nan
  end.

Record DataFrame := {
  index : list cell;
  columns : list (string * list cell)
}.

Definition RangeIndex (n : nat) : list cell :=
  map (fun i => Num (inject_Z (Z.of_nat i))) (seq 0 n).

(** [pd.DataFrame(dict_of_lists, index=labels)]: every list must be as
    long as the index. *)
Definition DataFrame_of_dict (data : list (string * list float)) (labels : list string)
    : result DataFrame :=
  if forallb (fun kv : string * list float => (length kv.2 =? length labels)%nat) data
  then Ok {| index := map Str labels;
             columns := map (fun kv : string * list float => (kv.1, map cell_of_float kv.2))
                            data |}
  else Raise ValueError.

(** [df.reset_index(inplace=True)]: the old index becomes the first
    column, named ["index"]. *)
Definition reset_index (df : DataFrame) : DataFrame :=
  {| index := RangeIndex (length (index df));
     columns := ("index", index df) :: columns df |}.

(** What [to_csv(path, index=False)] serialises: the header and the rows. *)
Definition header (df : DataFrame) : list string := map fst (columns df).
Definition n_rows (df : DataFrame) : nat := length (index df).
Definition csv_row (df : DataFrame) (i : nat) : list (option cell) :=
  map (fun c : string * list cell => c.2 !! i) (columns df).
Definition csv_rows (df : DataFrame) : list (list (option cell)) :=
  map (csv_row df) (seq 0 (n_rows df)).

Definition feature_frame (t : list feature_row) : DataFrame :=
  {| index := RangeIndex (length t);
     columns := [("feature", map (fun r => Str (feature r)) t);
                 ("coefficient", map (fun r => Num (coefficient r)) t)] |}.

(** ** The four models (lines 59-98) and the tables [main] builds *)

Record RidgeCV := {
  alpha_ : Q;
  coef_ : list Q;
  intercept_ : Q
}.

Definition dot (w x : list Q) : Q := Qsum (zip_with Qmult w x).

Definition linear_predict (m : RidgeCV) (x : list Q) : Q := dot (coef_ m) x + intercept_ m.

(** [DummyRegressor()]: always the mean of the training target. *)
Definition dummy : estimator :=
  {| fit := fun data => let m := mean (y_of data) in Ok (fun _ => Ok m) |}.

Record tables := {
  scores_df : DataFrame;
  test_set_score : DataFrame;
  feature_table_df : DataFrame
}.

Section Models.

(** The numerical routines of scikit-learn and XGBoost: for a penalty,
    the ridge solution and its internal cross-validated error; the two
    tree ensembles as fitted predictors; the measured times. *)
Variable ridge_solve : Q -> list (list Q) -> list Q -> list Q * Q.
Variable ridge_error : Q -> list (list Q) -> list Q -> Q.
Variable RandomForestRegressor :
  forall (max_depth n_estimators random_state : nat),
    list (list Q) -> list Q -> list Q -> Q.
Variable XGBRegressor :
  forall (max_depth n_estimators random_state : nat),
    list (list Q) -> list Q -> list Q -> Q.
Variable elapsed : string -> nat -> Q * Q.

(** [RidgeCV(alphas=alphas).fit(X, y)] *)
Definition RidgeCV_fit (candidates : list Q) (X : list (list Q)) (y : list Q)
    : result RidgeCV :=
  bind_result (select_alpha (fun a => ridge_error a X y) candidates) (fun a =>
  let '(w, b) := ridge_solve a X y in
  Ok {| alpha_ := a; coef_ := w; intercept_ := b |}).

(** [make_pipeline(preprocessor, regressor).fit(X, y)]: the
    preprocessor is fitted on, and applied to, the same rows. *)
Definition fit_transform (data : list house) : result (ColumnTransformer * list (list Q)) :=
  let p := preprocessor_fit data in
  bind_result (map_result (preprocessor_transform p) data) (fun Xt => Ok (p, Xt)).

Definition ridgecv_fit (data : list house) : result (ColumnTransformer * RidgeCV) :=
  bind_result (fit_transform data) (fun '(p, Xt) =>
  bind_result (RidgeCV_fit alphas Xt (y_of data)) (fun m => Ok (p, m))).

Definition ridgecv_predict (pm : ColumnTransformer * RidgeCV) (h : house) : result Q :=
  bind_result (preprocessor_transform pm.1 h) (fun x => Ok (linear_predict pm.2 x)).

Definition ridgecv : estimator :=
  {| fit := fun data => bind_result (ridgecv_fit data) (fun pm => Ok (ridgecv_predict pm)) |}.

Definition tree_pipeline (regressor : list (list Q) -> list Q -> list Q -> Q) : estimator :=
  {| fit := fun data =>
       bind_result (fit_transform data) (fun '(p, Xt) =>
       let predict := regressor Xt (y_of data) in
       Ok (fun h => bind_result (preprocessor_transform p h) (fun x => Ok (predict x)))) |}.

Definition random_forest_regression : estimator :=
  tree_pipeline (RandomForestRegressor 5 70 123).

Definition xgb_regression : estimator :=
  tree_pipeline (XGBRegressor 5 70 123).

(** Lines 59-98: the four cross-validations. *)
Definition dummy_scores (train : list house) :=
  cross_validate dummy train None (elapsed "dummy").
Definition ridgecv_scores (train : list house) :=
  cross_validate ridgecv train (Some 10%nat) (elapsed "ridgecv").
Definition random_forest_scores (train : list house) :=
  cross_validate random_forest_regression train (Some 5%nat) (elapsed "random_forest").
Definition xgb_scores (train : list house) :=
  cross_validate xgb_regression train (Some 5%nat) (elapsed "xgb").

Definition store_scores (train : list house) : result (list (string * list float)) :=
  bind_result (dummy_scores train) (fun d =>
  bind_result (ridgecv_scores train) (fun r =>
  bind_result (random_forest_scores train) (fun f =>
  bind_result (xgb_scores train) (fun x =>
  Ok [("dummy_score", mean_scores d);
      ("ridgecv_score", mean_scores r);
      ("random_forest", mean_scores f);
      ("XGB_Regression", mean_scores x)])))).

(** Lines 100-102. *)
Definition build_scores_df (train : list house) : result DataFrame :=
  bind_result (dummy_scores train) (fun d =>
  bind_result (store_scores train) (fun s =>
  bind_result (DataFrame_of_dict s (map fst d)) (fun df =>
  Ok (reset_index df)))).

(** [ridgecv.predict(X)]: input validation refuses a frame without
    rows before any row is transformed. *)
Definition pipeline_predict (pm : ColumnTransformer * RidgeCV) (X : list house)
    : result (list Q) :=
  match X with
  | [] => Raise ValueError
  | _ => map_result (ridgecv_predict pm) X
  end.

(** Lines 104-110. *)
Definition build_test_set_score (pm : ColumnTransformer * RidgeCV) (test : list house)
    : result DataFrame :=
  bind_result (pipeline_predict pm test) (fun pred =>
  bind_result (r2_score (y_of test) pred) (fun test_score =>
  Ok (reset_index {| index := [Str "test_score"];
                     columns := [("RidgeCV", [cell_of_float test_score])] |}))).

(** Lines 112-121. *)
Definition build_feature_table (pm : ColumnTransformer * RidgeCV)
    : result (list feature_row) :=
  ranked_coefficients (expanded_features pm.1) (coef_ pm.2).

Definition main_tables (train test : list house) : result tables :=
  bind_result (build_scores_df train) (fun s =>
  bind_result (ridgecv_fit train) (fun pm =>
  bind_result (build_test_set_score pm test) (fun t =>
  bind_result (build_feature_table pm) (fun f =>
  Ok {| scores_df := s; test_set_score := t; feature_table_df := feature_frame f |})))).

End Models.

(** ** The file system and the writer (lines 124-141)

    A path is its list of components; [[]] is the directory
    [os.path.dirname] names by the empty string. *)

Abbreviation path := (list string).

Definition dirname (p : path) : path := removelast p.

Inductive node : Type :=
  | Dir (writable : bool)
  | File (writable : bool) (content : option DataFrame).

Inductive call : Type :=
  | call_to_csv (p : path) (outcome : result unit)
  | call_makedirs (p : path) (outcome : result unit).

Record filesystem := {
  nodes : gmap path node;
  free_space : nat;
  calls : list call
}.

Definition set_node (p : path) (n : node) (fs : filesystem) : filesystem :=
  {| nodes := <[p := n]> (nodes fs); free_space := free_space fs; calls := calls fs |}.

Definition use_space (n : nat) (fs : filesystem) : filesystem :=
  {| nodes := nodes fs; free_space := free_space fs - n; calls := calls fs |}.

Definition log (c : call) (fs : filesystem) : filesystem :=
  {| nodes := nodes fs; free_space := free_space fs; calls := calls fs ++ [c] |}.

(** The working directory always exists and is writable. *)
Definition stat (fs : filesystem) (p : path) : option node :=
  match p with
  | [] => Some (Dir true)
  | _ => nodes fs !! p
  end.

(** Walk down to directory [seen ++ rest]; the result is whether it is
    writable. *)
Fixpoint lookup_dir (fs : filesystem) (seen rest : path) : result bool :=
  match stat fs seen with
  | None => Raise FileNotFoundError
  | Some (File _ _) => Raise NotADirectoryError
  | Some (Dir w) =>
      match rest with
      | [] => Ok w
      | c :: rest' => lookup_dir fs (seen ++ [c]) rest'
      end
  end.

Definition csv_size (df : DataFrame) : nat :=
  (length (columns df) * S (n_rows df))%nat.

(** [open(path, "w")] followed by the write: the file is created or
    truncated before the data goes out. *)
Definition write_file (data : DataFrame) (p : path) (fs : filesystem)
    : result unit * filesystem :=
  match p with
  | [] => (Raise FileNotFoundError, fs)
  | _ =>
      match lookup_dir fs [] (dirname p) with
      | Raise e => (Raise e, fs)
      | Ok w =>
          let write fs :=
            if (csv_size data <=? free_space fs)%nat
            then (Ok (), use_space (csv_size data) (set_node p (File true (Some data)) fs))
            else (Raise DiskFullError, set_node p (File true None) fs) in
          match nodes fs !! p with
          | Some (Dir _) => (Raise IsADirectoryError, fs)
          | Some (File false _) => (Raise PermissionError, fs)
          | Some (File true _) => write fs
          | None => if w then write fs else (Raise PermissionError, fs)
          end
      end
  end.

(** [df.to_csv(path, index=False)] *)
Definition to_csv (data : DataFrame) (p : path) (fs : filesystem)
    : result unit * filesystem :=
  let '(r, fs) := write_file data p fs in (r, log (call_to_csv p r) fs).

Definition os_mkdir (p : path) (fs : filesystem) : result unit * filesystem :=
  match p with
  | [] => (Raise FileNotFoundError, fs)
  | _ =>
      match lookup_dir fs [] (dirname p) with
      | Raise e => (Raise e, fs)
      | Ok w =>
          match nodes fs !! p with
          | Some _ => (Raise FileExistsError, fs)
          | None => if w then (Ok (), set_node p (Dir true) fs) else (Raise PermissionError, fs)
          end
      end
  end.

Definition path_exists (fs : filesystem) (p : path) : bool :=
  match p with
  | [] => true
  | _ =>
      match lookup_dir fs [] (dirname p) with
      | Ok _ => bool_decide (is_Some (nodes fs !! p))
      | Raise _ => false
      end
  end.

(** [os.makedirs(name)] with [exist_ok=False], by recursion on the
    reversed name: [tail :: rhead] is [head/tail]. *)
Fixpoint makedirs_rev (rname : list string) (fs : filesystem) : result unit * filesystem :=
  match rname with
  | [] => os_mkdir [] fs
  | tail :: rhead =>
      let head := rev rhead in
      let '(r, fs) :=
        if negb (bool_decide (head = [])) && negb (path_exists fs head)
        then
          match makedirs_rev rhead fs with
          | (Raise FileExistsError, fs') => (Ok (), fs')
          | other => other
          end
        else (Ok (), fs) in
      match r with
      | Raise e => (Raise e, fs)
      | Ok _ => os_mkdir (rev rname) fs
      end
  end.

Definition os_makedirs (name : path) (fs : filesystem) : result unit * filesystem :=
  let '(r, fs) := makedirs_rev (rev name) fs in (r, log (call_makedirs name r) fs).

(** One [try: ... except: ...] block of lines 125-141.  The bare
    [except:] takes every exception. *)
Definition write_output (data : DataFrame) (out_file : path) (fs : filesystem)
    : result unit * filesystem :=
  match to_csv data out_file fs with
  | (Ok u, fs) => (Ok u, fs)
  | (Raise _, fs) =>
      match os_makedirs (dirname out_file) fs with
      | (Raise e, fs) => (Raise e, fs)
      | (Ok _, fs) => to_csv data out_file fs
      end
  end.

Definition write_tables (t : tables) (out_file1 out_file2 out_file3 : path)
    (fs : filesystem) : result unit * filesystem :=
  match write_output (scores_df t) out_file1 fs with
  | (Raise e, fs) => (Raise e, fs)
  | (Ok _, fs) =>
      match write_output (test_set_score t) out_file2 fs with
      | (Raise e, fs) => (Raise e, fs)
      | (Ok _, fs) => write_output (feature_table_df t) out_file3 fs
      end
  end.

Section Main.

Variable ridge_solve : Q -> list (list Q) -> list Q -> list Q * Q.
Variable ridge_error : Q -> list (list Q) -> list Q -> Q.
Variable RandomForestRegressor XGBRegressor :
  nat -> nat -> nat -> list (list Q) -> list Q -> list Q -> Q.
Variable elapsed : string -> nat -> Q * Q.

(** [main], after [pd.read_csv] has parsed the two input files. *)
Definition main (train_df test_df : list house) (out_file1 out_file2 out_file3 : path)
    (fs : filesystem) : result unit * filesystem :=
  match main_tables ridge_solve ridge_error RandomForestRegressor XGBRegressor elapsed
                    train_df test_df with
  | Raise e => (Raise e, fs)
  | Ok t => write_tables t out_file1 out_file2 out_file3 fs
  end.

End Main.

(** ** Vocabulary of the properties *)

(** A value with at most [d] decimals. *)
Definition has_decimals (d : nat) (x : Q) : Prop :=
  exists z : Z, x == inject_Z z / pow10 d.



(** The number of distinct values of a column. *)
Definition n_distinct (l : list string) : nat := length (remove_dups l).

Definition str_lt (a b : string) : Prop := String.compare a b = Lt.

(** Columns one fitted category list contributes. *)
Definition encoded_width (dr : drop_policy) (cats : list string) : nat :=
  length (pop (drop_idx dr cats) cats).

(** Every binary cell of [h] occurs in the rows the encoder was fitted
    on. *)
Definition binary_known (fitted_on : list house) (h : house) : Prop :=
  GARAGE h ∈ column GARAGE fitted_on /\
  FIREPLACE h ∈ column FIREPLACE fitted_on /\
  BASEMENT h ∈ column BASEMENT fitted_on /\
  BSMTDEVL h ∈ column BSMTDEVL fitted_on.

(** The categorical column after imputation. *)
Definition bldg_desc (train : list house) : list string :=
  column (fun h => impute_str (BLDG_DESC h)) train.

(** The index array of the sort holds positions of the sorted vector. *)
Definition indices_ok (n : nat) (a : list nat) : Prop :=
  length a = n /\ Forall (fun x => (x < n)%nat) a.

(** [X.shape[1]] of a design matrix given as its rows. *)
Definition n_features (X : list (list Q)) : nat :=
  match X with
  | [] => 0%nat
  | row :: _ => length row
  end.

(** Fold [i] of a [k]-fold split of [data]: training rows and held-out
    rows. *)
Definition fold_train (data : list house) (k i : nat) : list house :=
  take_at data (fold_indices (length data) k i).1.
Definition fold_test (data : list house) (k i : nat) : list house :=
  take_at data (fold_indices (length data) k i).2.

(** The scores of fold [i]: the estimator is fitted on the training rows;
    its R² is taken on the held-out rows and on the training rows. *)
Definition scored_on_fold (est : estimator) (data : list house) (k i : nat)
    (s : fold_scores) : Prop :=
  exists predict test_pred train_pred,
    fit est (fold_train data k i) = Ok predict /\
    Forall2 (fun h p => predict h = Ok p) (fold_test data k i) test_pred /\
    Forall2 (fun h p => predict h = Ok p) (fold_train data k i) train_pred /\
    r2_score (y_of (fold_test data k i)) test_pred = Ok (fs_test_score s) /\
    r2_score (y_of (fold_train data k i)) train_pred = Ok (fs_train_score s).

(** In every fold of a [k]-fold split the held-out rows carry binary
    values that also occur among the fold's training rows, so that the
    binary encoder fitted on the fold accepts them. *)
Definition cv_encodable (data : list house) (k : nat) : Prop :=
  Forall (fun i => Forall (binary_known (fold_train data k i)) (fold_test data k i))
         (seq 0 k).

#[global] Instance binary_known_dec (fitted_on : list house) (h : house) :
  Decision (binary_known fitted_on h).
Proof. unfold binary_known. apply _. Defined.

#[global] Instance cv_encodable_dec (data : list house) (k : nat) :
  Decision (cv_encodable data k).
Proof. unfold cv_encodable. apply _. Defined.

(** ** Sample inputs *)

Definition mk_house (desc : option string) (garage fireplace basement bsmtdevl : string)
    (age feet lat lon price : Q) : house :=
  {| AGE := Some age; BLDG_DESC := desc; BLDG_FEET := Some feet;
     GARAGE := garage; FIREPLACE := fireplace; BASEMENT := basement;
     BSMTDEVL := bsmtdevl; LATITUDE := Some lat; LONGITUDE := Some lon;
     ASSESSMENT := price |}.

(** Ten training rows: three building descriptions, both values of every
    binary column in every fold's training part. *)
Definition sample_train : list house :=
  [ mk_house (Some "Bungalow") "Y" "N" "Y" "N" 10 1200 53 (-113) 400000;
    mk_house (Some "2 Storey") "N" "Y" "N" "Y" 25 1800 53 (-113) 520000;
    mk_house (Some "Bi-Level") "Y" "Y" "Y" "Y" 40 1100 53 (-113) 350000;
    mk_house (Some "Bungalow") "N" "N" "N" "N" 5 1500 53 (-113) 480000;
    mk_house (Some "2 Storey") "Y" "N" "Y" "N" 15 2100 53 (-113) 610000;
    mk_house (Some "Bungalow") "N" "Y" "N" "Y" 30 1000 53 (-113) 330000;
    mk_house (Some "Bi-Level") "Y" "Y" "Y" "Y" 22 1300 53 (-113) 390000;
    mk_house (Some "2 Storey") "N" "N" "N" "N" 8 2400 53 (-113) 700000;
    mk_house (Some "Bungalow") "Y" "N" "Y" "N" 50 900 53 (-113) 300000;
    mk_house (Some "Bi-Level") "N" "Y" "N" "Y" 12 1400 53 (-113) 420000 ].

(** Twenty training rows, the ten above twice: every fold of ten holds
    out two rows. *)
Definition sample_train_20 : list house := sample_train ++ sample_train.

(** Two test rows whose building description the training rows never
    show: a new one, and a missing one. *)
Definition sample_test : list house :=
  [ mk_house (Some "Duplex") "Y" "N" "N" "Y" 18 1600 53 (-113) 450000;
    {| AGE := Some 3; BLDG_DESC := None; BLDG_FEET := None;
       GARAGE := "N"; FIREPLACE := "Y"; BASEMENT := "Y"; BSMTDEVL := "N";
       LATITUDE := Some 53; LONGITUDE := Some (-113); ASSESSMENT := 380000 |} ].

(** Stand-ins for the numerical routines: a solver that shrinks every
    coefficient to zero, an error that is least at [alpha = 1], ensembles
    that predict the training mean, and a constant clock. *)
Definition sample_ridge_solve (a : Q) (X : list (list Q)) (y : list Q) : list Q * Q :=
  (replicate (n_features X) 0, mean y).
Definition sample_ridge_error (a : Q) (X : list (list Q)) (y : list Q) : Q :=
  (a - 1) * (a - 1).
Definition sample_ensemble (max_depth n_estimators random_state : nat)
    (X : list (list Q)) (y : list Q) (x : list Q) : Q := mean y.
Definition sample_elapsed (model : string) (fold : nat) : Q * Q := (1 # 100, 1 # 1000).

Definition sample_pipeline : ColumnTransformer * RidgeCV :=
  match ridgecv_fit sample_ridge_solve sample_ridge_error sample_train with
  | Ok pm => pm
  | Raise _ => (preprocessor_fit [], {| alpha_ := 0; coef_ := []; intercept_ := 0 |})
  end.

Definition one_row_table : DataFrame :=
  feature_frame [ {| feature := "AGE"; coefficient := 1 |} ].

(** Nothing on disk yet. *)
Definition empty_disk : filesystem :=
  {| nodes := ∅; free_space := 1000; calls := [] |}.

(** The destination directory is there, the target file is read-only. *)
Definition readonly_target : filesystem :=
  {| nodes := {[ ["results"] := Dir true;
                 ["results"; "cv_scores.csv"] := File false None ]};
     free_space := 1000; calls := [] |}.

(** The destination directory is there, the disk is full. *)
Definition full_disk : filesystem :=
  {| nodes := {[ ["results"] := Dir true ]}; free_space := 0; calls := [] |}.

(** Columns a binary feature contributes under [drop="if_binary"]: one
    when it shows two values, else one per value. *)
Definition binary_width (col : list string) : nat :=
  if (n_distinct col =? 2)%nat then 1%nat else n_distinct col.

Definition sample_tables : tables :=
  {| scores_df := one_row_table;
     test_set_score := one_row_table;
     feature_table_df := one_row_table |}.

(** The output directory is there; the coefficient file is read-only. *)
Definition readonly_coefficients : filesystem :=
  {| nodes := {[ ["results"] := Dir true;
                 ["results"; "coefficients.csv"] := File false None ]};
     free_space := 1000; calls := [] |}.

(** A regular file sits where the output path wants a directory. *)
Definition file_in_the_way : filesystem :=
  {| nodes := {[ ["results"] := File true None ]}; free_space := 1000; calls := [] |}.

(** * Properties *)

(** ** Results *)

Lemma bind_result_Ok {A B} (m : result A) (k : A -> result B) (b : B) :
  bind_result m k = Ok b <-> exists a, m = Ok a /\ k a = Ok b.
Proof.
  destruct m as [a|e]; simpl; split.
  - eauto.
  - intros (a' & [= ->] & H). exact H.
  - discriminate.
  - intros (a' & [=] & _).
Qed.

Lemma map_result_Ok_Forall2 {A B} (f : A -> result B) (l : list A) (ys : list B) :
  map_result f l = Ok ys <-> Forall2 (fun x y => f x = Ok y) l ys.
Proof.
  revert ys. induction l as [|x l IH]; intros ys; simpl.
  - split.
    + intros [= <-]. constructor.
    + intros H. inversion H. reflexivity.
  - rewrite bind_result_Ok. split.
    + intros (y & Hy & H). apply bind_result_Ok in H as (ys' & Hys & [= <-]).
      constructor; [assumption | by apply IH].
    + intros H. inversion H as [|? y ? ys' Hy Hys]; subst.
      exists y. split; [assumption|]. apply bind_result_Ok.
      exists ys'. split; [by apply IH | reflexivity].
Qed.

Lemma map_result_length {A B} (f : A -> result B) (l : list A) (ys : list B) :
  map_result f l = Ok ys -> length ys = length l.
Proof.
  intros H. apply map_result_Ok_Forall2 in H. symmetry. by eapply Forall2_length.
Qed.

Lemma take_at_cons {A} (v : list A) (i : nat) (inds : list nat) :
  take_at v (i :: inds) =
  match v !! i with Some x => x :: take_at v inds | None => take_at v inds end.
Proof. reflexivity. Qed.


Lemma take_at_in_range {A} (v : list A) (inds : list nat) :
  Forall (fun i => (i < length v)%nat) inds ->
  length (take_at v inds) = length inds /\
  forall p i, inds !! p = Some i -> take_at v inds !! p = v !! i.
Proof.
  induction 1 as [|i inds Hi _ [IHl IHp]].
  - split; [reflexivity|]. intros p i [=].
  - destruct (lookup_lt_is_Some_2 v i Hi) as [x Hx]. rewrite take_at_cons, Hx.
    split; [simpl; by rewrite IHl|]. intros [|p] j; simpl.
    + by intros [= <-].
    + apply IHp.
Qed.

Lemma map_result_getitem {A} (l : list A) (inds : list nat) :
  Forall (fun i => (i < length l)%nat) inds ->
  map_result (getitem l) inds = Ok (take_at l inds).
Proof.
  induction 1 as [|i inds Hi _ IH]; [reflexivity|].
  destruct (lookup_lt_is_Some_2 l i Hi) as [x Hx].
  rewrite take_at_cons, Hx. simpl. unfold getitem at 1. rewrite Hx. simpl.
  by rewrite IH.
Qed.

Lemma map_result_getitem_inv {A} (l : list A) (inds : list nat) (xs : list A) :
  map_result (getitem l) inds = Ok xs ->
  Forall (fun i => (i < length l)%nat) inds /\ xs = take_at l inds.
Proof.
  intros H. assert (Hr : Forall (fun i => (i < length l)%nat) inds).
  { apply map_result_Ok_Forall2 in H. induction H as [|i x inds xs Hi _ IH].
    - constructor.
    - constructor; [|exact IH]. unfold getitem in Hi.
      destruct (l !! i) eqn:E; [|discriminate]. by eapply lookup_lt_Some. }
  split; [exact Hr|]. rewrite (map_result_getitem _ _ Hr) in H. congruence.
Qed.

(** ** Rounding *)




Lemma np_round_has_decimals (d : nat) (x : Q) : has_decimals d (np_round d x).
Proof. exists (rint (x * pow10 d)). reflexivity. Qed.

(** ** The argsort contract *)

Lemma ascendingb_sound (l : list Q) : ascendingb l = true -> ascending l.
Proof.
  induction l as [|x [|y l] IH]; intros H i a b Ha Hb.
  - discriminate.
  - destruct i; discriminate.
  - simpl in H. apply andb_true_iff in H as [Hxy Hl].
    destruct i as [|i]; simpl in Ha, Hb.
    + injection Ha as <-. injection Hb as <-. by apply Qle_bool_iff.
    + by apply (IH Hl i).
Qed.

Lemma is_argsortb_sound (v : list Q) (inds : list nat) :
  is_argsortb v inds = true -> is_argsort v inds.
Proof.
  unfold is_argsortb. intros H. apply andb_true_iff in H as [Hp Ha].
  split; [by eapply bool_decide_eq_true_1 | by apply ascendingb_sound].
Qed.



(** ** The rows of the coefficient table *)

(** The table lists, for each index [np.argsort] returned, the feature
    name and the rounded coefficient at that index. *)
Lemma feature_table_rows (features : list string) (coef : list Q) (inds : list nat)
    (t : list feature_row) :
  feature_table features coef inds = Ok t ->
  length t = length inds /\
  forall p i, inds !! p = Some i ->
    exists name c, features !! i = Some name /\ coef !! i = Some c /\
      t !! p = Some {| feature := name; coefficient := np_round 2 c |}.
Proof.
  unfold feature_table. intros H.
  apply bind_result_Ok in H as (fs & Hfs & H).
  apply bind_result_Ok in H as (cs & Hcs & [= <-]).
  apply map_result_getitem_inv in Hfs as [Hrf ->].
  apply map_result_getitem_inv in Hcs as [Hrc ->].
  destruct (take_at_in_range _ _ Hrf) as [Hlf Hpf].
  destruct (take_at_in_range _ _ Hrc) as [Hlc Hpc].
  split.
  - rewrite length_zip_with. lia.
  - intros p i Hi. rewrite lookup_zip_with, (Hpf p i Hi), (Hpc p i Hi).
    rewrite list_lookup_fmap.
    assert (Hi' : (i < length coef)%nat).
    { rewrite Forall_forall in Hrc. rewrite <- (length_fmap (np_round 2)).
      apply Hrc. by eapply list_elem_of_lookup_2. }
    assert (Hi'' : (i < length features)%nat).
    { rewrite Forall_forall in Hrf. apply Hrf. by eapply list_elem_of_lookup_2. }
    destruct (lookup_lt_is_Some_2 _ _ Hi') as [c Hc].
    destruct (lookup_lt_is_Some_2 _ _ Hi'') as [name Hn].
    exists name, c. by rewrite Hc, Hn.
Qed.

Lemma feature_table_total (features : list string) (coef : list Q) (inds : list nat) :
  Forall (fun i => (i < length coef)%nat) inds ->
  (length coef <= length features)%nat ->
  exists t, feature_table features coef inds = Ok t.
Proof.
  intros Hr Hlen. unfold feature_table.
  rewrite map_result_getitem.
  2:{ eapply Forall_impl; [exact Hr|]. simpl. lia. }
  simpl. rewrite map_result_getitem.
  2:{ by rewrite length_map. }
  simpl. eauto.
Qed.












(** ** Sorted distinct categories *)

Lemma str_lt_trans (a b c : string) : str_lt a b -> str_lt b c -> str_lt a c.
Proof.
  unfold str_lt. intros H1 H2.
  apply OrderedTypeEx.String_as_OT.cmp_lt.
  eapply OrderedTypeEx.String_as_OT.lt_trans;
    apply OrderedTypeEx.String_as_OT.cmp_lt; eassumption.
Qed.

Lemma str_lt_irrefl (a : string) : ~ str_lt a a.
Proof.
  unfold str_lt. intros H.
  assert (E : String.compare a a = Eq) by (by apply OrderedTypeEx.String_as_OT.cmp_eq).
  congruence.
Qed.

Lemma elem_of_insert_unique (x y : string) (l : list string) :
  y ∈ insert_unique x l <-> y = x \/ y ∈ l.
Proof.
  induction l as [|z l IH]; simpl.
  - rewrite list_elem_of_singleton, elem_of_nil. tauto.
  - destruct (String.compare x z) eqn:E.
    + apply String.compare_eq_iff in E as ->. rewrite elem_of_cons. tauto.
    + rewrite elem_of_cons. tauto.
    + rewrite !elem_of_cons, IH. tauto.
Qed.

Lemma elem_of_np_unique (y : string) (l : list string) : y ∈ np_unique l <-> y ∈ l.
Proof.
  unfold np_unique. induction l as [|x l IH]; simpl; [reflexivity|].
  rewrite elem_of_insert_unique, IH, elem_of_cons. tauto.
Qed.

Lemma insert_unique_sorted (x : string) (l : list string) :
  StronglySorted str_lt l -> StronglySorted str_lt (insert_unique x l).
Proof.
  induction 1 as [|z l Hl IH Hz]; simpl.
  - repeat constructor.
  - destruct (String.compare x z) eqn:E.
    + by constructor.
    + constructor; [by constructor|]. constructor; [exact E|].
      eapply Forall_impl; [exact Hz|]. intros w Hw. by eapply str_lt_trans.
    + constructor; [exact IH|]. apply Forall_forall. intros w Hw.
      apply elem_of_insert_unique in Hw as [->|Hw].
      * unfold str_lt. rewrite String.compare_antisym, E. reflexivity.
      * rewrite Forall_forall in Hz. by apply Hz.
Qed.

Lemma np_unique_sorted (l : list string) : StronglySorted str_lt (np_unique l).
Proof.
  unfold np_unique. induction l; simpl; [constructor | by apply insert_unique_sorted].
Qed.

Lemma np_unique_NoDup (l : list string) : NoDup (np_unique l).
Proof.
  induction (np_unique_sorted l) as [|z k _ IH Hz]; constructor; [|exact IH].
  intros Hin. rewrite Forall_forall in Hz. by apply (str_lt_irrefl z), Hz.
Qed.

Lemma np_unique_length (l : list string) : length (np_unique l) = n_distinct l.
Proof.
  unfold n_distinct. apply Permutation_length, NoDup_Permutation.
  - apply np_unique_NoDup.
  - apply NoDup_remove_dups.
  - intros x. by rewrite elem_of_np_unique, elem_of_remove_dups.
Qed.

(** ** One-hot encoding *)

Lemma length_pop_eq {A B} (i : option nat) (l : list A) (k : list B) :
  length l = length k -> length (pop i l) = length (pop i k).
Proof.
  destruct i as [i|]; simpl; [|done].
  revert l k. induction i as [|i IH]; intros [|x l] [|y k] H; simpl in *; try done.
  - lia.
  - f_equal. apply IH. lia.
Qed.

Lemma ohe_cell_length (enc : OneHotEncoder) (cats : list string) (x : string)
    (v : list Q) :
  ohe_cell enc cats x = Ok v -> length v = encoded_width (drop enc) cats.
Proof.
  unfold ohe_cell, encoded_width. case_bool_decide.
  - intros [= <-]. apply length_pop_eq. unfold indicator. by rewrite length_map.
  - destruct (handle_unknown enc); [discriminate|]. intros [= <-].
    apply length_pop_eq. by rewrite length_replicate.
Qed.

Lemma ohe_cells_length (enc : OneHotEncoder) (catss : list (list string))
    (xs : list string) (v : list Q) :
  ohe_cells enc catss xs = Ok v ->
  length v = sum_list (map (encoded_width (drop enc)) catss).
Proof.
  revert xs v. induction catss as [|cats catss IH]; intros [|x xs] v; simpl;
    try discriminate.
  - by intros [= <-].
  - intros H. apply bind_result_Ok in H as (c & Hc & H).
    apply bind_result_Ok in H as (cs & Hcs & [= <-]).
    rewrite length_app, (ohe_cell_length _ _ _ _ Hc), (IH _ _ Hcs). reflexivity.
Qed.

Lemma get_feature_names_length (enc : OneHotEncoder) (names : list string) :
  length names = length (categories_ enc) ->
  length (get_feature_names enc names) =
  sum_list (map (encoded_width (drop enc)) (categories_ enc)).
Proof.
  unfold get_feature_names. generalize (categories_ enc). intros catss.
  revert names. induction catss as [|cats catss IH]; intros [|n names] Hl;
    simpl in *; try done.
  rewrite length_app, IH by lia. f_equal.
  unfold encoded_width. apply length_pop_eq. by rewrite length_map.
Qed.

Lemma ohe_cell_known (enc : OneHotEncoder) (cats : list string) (x : string) :
  x ∈ cats -> ohe_cell enc cats x = Ok (pop (drop_idx (drop enc) cats) (indicator cats x)).
Proof. intros H. unfold ohe_cell. by rewrite bool_decide_eq_true_2. Qed.

Lemma ohe_cell_ignore (enc : OneHotEncoder) (cats : list string) (x : string) :
  handle_unknown enc = unknown_ignore -> exists v, ohe_cell enc cats x = Ok v.
Proof. intros H. unfold ohe_cell. rewrite H. case_bool_decide; eauto. Qed.

Lemma ohe_cell_unseen (enc : OneHotEncoder) (cats : list string) (x : string) :
  handle_unknown enc = unknown_ignore -> drop enc = drop_None -> x ∉ cats ->
  ohe_cell enc cats x = Ok (replicate (length cats) 0).
Proof.
  intros Hu Hd Hx. unfold ohe_cell. rewrite bool_decide_eq_false_2 by done.
  by rewrite Hu, Hd.
Qed.

Lemma binary_known_self (train : list house) (h : house) :
  h ∈ train -> binary_known train h.
Proof.
  intros H. unfold binary_known, column.
  repeat split; apply list_elem_of_fmap; by exists h.
Qed.

Lemma binary_transform_known (train : list house) (h : house) :
  binary_known train h ->
  exists b, ohe_transform (pipeline_2 (preprocessor_fit train)) (binary_cells h) = Ok b.
Proof.
  intros (H1 & H2 & H3 & H4).
  unfold ohe_transform, binary_cells. simpl.
  rewrite !ohe_cell_known by (by apply elem_of_np_unique). simpl. eauto.
Qed.

Lemma categorical_transform_total (train : list house) (h : house) :
  exists c, ohe_transform (pipeline_1 (preprocessor_fit train))
              (map impute_str (categorical_cells h)) = Ok c.
Proof.
  unfold ohe_transform, categorical_cells. simpl.
  unfold ohe_cell. simpl. case_bool_decide; simpl; eauto.
Qed.

Lemma preprocessor_transform_known (train : list house) (h : house) :
  binary_known train h ->
  exists x, preprocessor_transform (preprocessor_fit train) h = Ok x.
Proof.
  intros Hb. unfold preprocessor_transform.
  destruct (categorical_transform_total train h) as [c ->].
  destruct (binary_transform_known train h Hb) as [b ->].
  simpl. eauto.
Qed.

Lemma expanded_features_length (train : list house) :
  length (expanded_features (preprocessor_fit train)) =
  (encoded_width drop_None (np_unique (bldg_desc train)) +
   (encoded_width drop_if_binary (np_unique (column GARAGE train)) +
    encoded_width drop_if_binary (np_unique (column FIREPLACE train)) +
    encoded_width drop_if_binary (np_unique (column BASEMENT train)) +
    encoded_width drop_if_binary (np_unique (column BSMTDEVL train))) + 4)%nat.
Proof.
  unfold expanded_features. rewrite !length_app.
  rewrite !get_feature_names_length by reflexivity.
  simpl. unfold bldg_desc. lia.
Qed.

Lemma preprocessor_transform_length (train : list house) (h : house) (x : list Q) :
  preprocessor_transform (preprocessor_fit train) h = Ok x ->
  length x = length (expanded_features (preprocessor_fit train)).
Proof.
  unfold preprocessor_transform. intros H.
  apply bind_result_Ok in H as (c & Hc & H).
  apply bind_result_Ok in H as (b & Hb & [= <-]).
  apply ohe_cells_length in Hc, Hb.
  rewrite !length_app, Hc, Hb, expanded_features_length. simpl.
  unfold bldg_desc. lia.
Qed.

Lemma encoded_width_binary (cats : list string) :
  length cats = 2%nat -> encoded_width drop_if_binary cats = 1%nat.
Proof.
  destruct cats as [|a [|b [|c cats]]]; try discriminate. reflexivity.
Qed.

(** ** The index array of [np_argsort]

    Whatever the keys, the sort only moves entries of [tosort] around: the
    array keeps its length and holds positions of [v]. *)

Lemma at_ok (n : nat) (a : list nat) (p : nat) :
  indices_ok n a -> (0 < n)%nat -> (at_ a p < n)%nat.
Proof.
  intros [_ Ha] Hn. unfold at_. destruct (a !! p) as [x|] eqn:E; simpl; [|exact Hn].
  rewrite Forall_forall in Ha. apply Ha. by eapply list_elem_of_lookup_2.
Qed.

Lemma store_ok (n : nat) (a : list nat) (p x : nat) :
  indices_ok n a -> (x < n)%nat -> indices_ok n (store a p x).
Proof.
  intros [Hl Ha] Hx. unfold store. split.
  - by rewrite length_insert.
  - by apply Forall_insert.
Qed.

Lemma INTP_SWAP_ok (n : nat) (a : list nat) (p q : nat) :
  (0 < n)%nat -> indices_ok n a -> indices_ok n (INTP_SWAP a p q).
Proof.
  intros Hn Ha. unfold INTP_SWAP. repeat apply store_ok; try assumption;
    by apply at_ok.
Qed.

Lemma swap_if_lt_ok (n : nat) (v : list Q) (a : list nat) (p q : nat) :
  (0 < n)%nat -> indices_ok n a -> indices_ok n (swap_if_lt v a p q).
Proof.
  intros Hn Ha. unfold swap_if_lt. case_match; [by apply INTP_SWAP_ok | exact Ha].
Qed.

Lemma partition_loop_ok (n fuel : nat) (v : list Q) (a : list nat) (vp : Q) (pi pj : nat) :
  (0 < n)%nat -> indices_ok n a -> indices_ok n (partition_loop fuel v a vp pi pj).1.
Proof.
  intros Hn. revert a pi pj. induction fuel as [|fuel IH]; intros a pi pj Ha; simpl.
  - exact Ha.
  - case_match; simpl; [exact Ha|]. apply IH. by apply INTP_SWAP_ok.
Qed.

Lemma partition_ok (n : nat) (v : list Q) (a : list nat) (pl pr : nat) :
  (0 < n)%nat -> indices_ok n a -> indices_ok n (partition v a pl pr).1.
Proof.
  intros Hn Ha. unfold partition.
  match goal with
  | |- context [partition_loop ?f v ?b ?vp ?i ?j] =>
      pose proof (partition_loop_ok n f v b vp i j Hn) as H;
      destruct (partition_loop f v b vp i j) as [a' pi]
  end.
  simpl in *. apply INTP_SWAP_ok; [exact Hn|]. apply H.
  apply INTP_SWAP_ok; [exact Hn|]. by repeat apply swap_if_lt_ok.
Qed.

Lemma shift_right_ok (n fuel : nat) (v : list Q) (a : list nat) (pl : nat) (vp : Q)
    (pj : nat) :
  (0 < n)%nat -> indices_ok n a -> indices_ok n (shift_right fuel v a pl vp pj).1.
Proof.
  intros Hn. revert a pj. induction fuel as [|fuel IH]; intros a pj Ha; simpl.
  - exact Ha.
  - case_match; simpl; [|exact Ha]. apply IH. apply store_ok; [exact Ha|].
    by apply at_ok.
Qed.

Lemma insert_at_ok (n : nat) (v : list Q) (pl : nat) (a : list nat) (pi : nat) :
  (0 < n)%nat -> indices_ok n a -> indices_ok n (insert_at v pl a pi).
Proof.
  intros Hn Ha. unfold insert_at.
  match goal with
  | |- context [shift_right ?f v a pl ?vp pi] =>
      pose proof (shift_right_ok n f v a pl vp pi Hn Ha) as H;
      destruct (shift_right f v a pl vp pi) as [a' pj]
  end.
  simpl in *. apply store_ok; [exact H|]. by apply at_ok.
Qed.

Lemma fold_left_ok {B} (n : nat) (f : list nat -> B -> list nat) (l : list B)
    (a : list nat) :
  (forall a x, indices_ok n a -> indices_ok n (f a x)) ->
  indices_ok n a -> indices_ok n (fold_left f l a).
Proof.
  intros Hf. revert a. induction l as [|x l IH]; intros a Ha; simpl; [exact Ha|].
  apply IH, Hf, Ha.
Qed.

Lemma insertion_sort_ok (n : nat) (v : list Q) (a : list nat) (pl pr : nat) :
  (0 < n)%nat -> indices_ok n a -> indices_ok n (insertion_sort v a pl pr).
Proof.
  intros Hn Ha. unfold insertion_sort. apply fold_left_ok; [|exact Ha].
  intros b x Hb. by apply insert_at_ok.
Qed.

Lemma sift_ok (n fuel : nat) (v : list Q) (a : list nat) (base m tmp i j : nat) :
  (0 < n)%nat -> (tmp < n)%nat -> indices_ok n a ->
  indices_ok n (sift fuel v a base m tmp i j).
Proof.
  intros Hn Ht. revert a i j. induction fuel as [|fuel IH]; intros a i j Ha; simpl.
  - by apply store_ok.
  - repeat case_match; try (by apply store_ok).
    all: apply IH; apply store_ok; [exact Ha | by apply at_ok].
Qed.

Lemma aheapsort_ok (n : nat) (v : list Q) (a : list nat) (base m : nat) :
  (0 < n)%nat -> indices_ok n a -> indices_ok n (aheapsort v a base m).
Proof.
  intros Hn Ha. unfold aheapsort. apply fold_left_ok.
  - intros b x Hb. unfold pop_max. apply sift_ok; [exact Hn | by apply at_ok |].
    apply store_ok; [exact Hb | by apply at_ok].
  - apply fold_left_ok; [|exact Ha].
    intros b x Hb. unfold heapify. apply sift_ok; [exact Hn | by apply at_ok | exact Hb].
Qed.

Lemma quick_inner_ok (n fuel : nat) (v : list Q) (a : list nat) (pl pr : nat)
    (stack : list (nat * nat * Z)) (cdepth : Z) :
  (0 < n)%nat -> indices_ok n a ->
  indices_ok n (quick_inner fuel v a pl pr stack cdepth).1.1.1.
Proof.
  intros Hn. revert a pl pr stack cdepth.
  induction fuel as [|fuel IH]; intros a pl pr stack cdepth Ha; simpl.
  - exact Ha.
  - case_match; [|exact Ha].
    pose proof (partition_ok n v a pl pr Hn Ha) as Hp.
    destruct (partition v a pl pr) as [a' pi]. simpl in Hp.
    case_match; by apply IH.
Qed.

Lemma quick_outer_ok (n fuel : nat) (v : list Q) (a : list nat) (pl pr : nat)
    (stack : list (nat * nat * Z)) (cdepth : Z) :
  (0 < n)%nat -> indices_ok n a ->
  indices_ok n (quick_outer fuel v a pl pr stack cdepth).
Proof.
  intros Hn. revert a pl pr stack cdepth.
  induction fuel as [|fuel IH]; intros a pl pr stack cdepth Ha; simpl.
  - exact Ha.
  - destruct (cdepth <? 0)%Z.
    + pose proof (aheapsort_ok n v a pl (pr - pl + 1) Hn Ha) as Hh.
      destruct stack as [|[[pl' pr'] d] stack]; [exact Hh | by apply IH].
    + pose proof (quick_inner_ok n (length a) v a pl pr stack cdepth Hn Ha) as Hq.
      destruct (quick_inner (length a) v a pl pr stack cdepth) as [[[a' pl'] pr'] stack'].
      simpl in Hq.
      pose proof (insertion_sort_ok n v a' pl' pr' Hn Hq) as Hi.
      destruct stack' as [|[[pl'' pr''] d] stack']; [exact Hi | by apply IH].
Qed.

Lemma np_argsort_ok (v : list Q) : indices_ok (length v) (np_argsort v).
Proof.
  unfold np_argsort. destruct (length v) as [|n] eqn:E.
  - split; [reflexivity | constructor].
  - apply quick_outer_ok; [lia|]. split.
    + apply length_seq.
    + apply Forall_forall. intros i Hi. apply elem_of_seq in Hi. lia.
Qed.

(** [main] always gets its coefficient table: one row per coefficient. *)
Lemma ranked_coefficients_total (features : list string) (coef : list Q) :
  (length coef <= length features)%nat ->
  exists t, ranked_coefficients features coef = Ok t /\ length t = length coef.
Proof.
  intros Hlen. destruct (np_argsort_ok coef) as [Hl Hr].
  destruct (feature_table_total features coef (np_argsort coef) Hr Hlen) as [t Ht].
  exists t. split; [exact Ht|].
  destruct (feature_table_rows _ _ _ _ Ht) as [-> _]. exact Hl.
Qed.

(** ** The refitted ridge pipeline *)

Lemma map_result_total {A B} (f : A -> result B) (l : list A) :
  (forall x, x ∈ l -> exists y, f x = Ok y) -> exists ys, map_result f l = Ok ys.
Proof.
  induction l as [|x l IH]; intros H; simpl; [eauto|].
  destruct (H x) as [y Hy]; [apply elem_of_cons; by left|].
  destruct IH as [ys Hys]; [intros z Hz; apply H, elem_of_cons; by right|].
  rewrite Hy, Hys. simpl. eauto.
Qed.

Lemma alphas_eq :
  alphas = [Qpower 10 (-5); Qpower 10 (-4); Qpower 10 (-3); Qpower 10 (-2);
            Qpower 10 (-1); Qpower 10 0; Qpower 10 1; Qpower 10 2; Qpower 10 3;
            Qpower 10 4].
Proof. reflexivity. Qed.

Lemma Qltb_lt (x y : Q) : Qltb x y = true <-> x < y.
Proof.
  unfold Qltb. rewrite negb_true_iff. split.
  - intros H. apply Qnot_le_lt. intros Hle. apply Qle_bool_iff in Hle. congruence.
  - intros H. destruct (Qle_bool y x) eqn:E; [|reflexivity].
    apply Qle_bool_iff in E. exfalso. by apply (Qlt_not_le x y).
Qed.

Lemma Qltb_ge (x y : Q) : Qltb x y = false <-> y <= x.
Proof.
  unfold Qltb. rewrite negb_false_iff. apply Qle_bool_iff.
Qed.

Lemma first_min_spec (err : Q -> Q) (best : Q) (l : list Q) :
  first_min err best l ∈ best :: l /\
  forall a, a ∈ best :: l -> err (first_min err best l) <= err a.
Proof.
  revert best. induction l as [|c l IH]; intros best; simpl.
  - split; [apply elem_of_cons; by left|].
    intros a Ha. apply list_elem_of_singleton in Ha as ->. apply Qle_refl.
  - destruct (Qltb (err c) (err best)) eqn:E.
    + destruct (IH c) as [Hin Hmin]. split.
      * apply elem_of_cons. by right.
      * intros a Ha. apply elem_of_cons in Ha as [->|Ha]; [|by apply Hmin].
        apply Qltb_lt in E. apply Qle_trans with (err c).
        -- apply Hmin, elem_of_cons. by left.
        -- by apply Qlt_le_weak.
    + destruct (IH best) as [Hin Hmin]. split.
      * apply elem_of_cons in Hin as [Hin|Hin]; apply elem_of_cons;
          [by left | right; apply elem_of_cons; by right].
      * intros a Ha. apply elem_of_cons in Ha as [->|Ha].
        -- apply Hmin, elem_of_cons. by left.
        -- apply elem_of_cons in Ha as [->|Ha].
           ++ apply Qltb_ge in E. apply Qle_trans with (err best); [|exact E].
              apply Hmin, elem_of_cons. by left.
           ++ apply Hmin, elem_of_cons. by right.
Qed.

Lemma select_alpha_spec (err : Q -> Q) (candidates : list Q) :
  candidates <> [] ->
  exists a, select_alpha err candidates = Ok a /\ a ∈ candidates /\
    forall a', a' ∈ candidates -> err a <= err a'.
Proof.
  destruct candidates as [|c l]; [done|]. intros _. simpl.
  exists (first_min err c l). split; [reflexivity|]. apply first_min_spec.
Qed.

Section ModelProperties.

Variable ridge_solve : Q -> list (list Q) -> list Q -> list Q * Q.
Variable ridge_error : Q -> list (list Q) -> list Q -> Q.

Lemma RidgeCV_fit_spec (X : list (list Q)) (y : list Q) :
  exists m, RidgeCV_fit ridge_solve ridge_error alphas X y = Ok m /\
    alpha_ m ∈ alphas /\
    (forall a, a ∈ alphas -> ridge_error (alpha_ m) X y <= ridge_error a X y) /\
    coef_ m = (ridge_solve (alpha_ m) X y).1.
Proof.
  unfold RidgeCV_fit.
  destruct (select_alpha_spec (fun a => ridge_error a X y) alphas)
    as (a & Ha & Hin & Hmin); [by rewrite alphas_eq|].
  rewrite Ha. simpl. destruct (ridge_solve a X y) as [w b] eqn:E.
  eexists. split; [reflexivity|]. simpl. rewrite E. auto.
Qed.

Lemma fit_transform_total (train : list house) :
  exists Xt, fit_transform train = Ok (preprocessor_fit train, Xt) /\
    Forall2 (fun h x => preprocessor_transform (preprocessor_fit train) h = Ok x)
            train Xt.
Proof.
  unfold fit_transform.
  destruct (map_result_total (preprocessor_transform (preprocessor_fit train)) train)
    as [Xt HXt].
  { intros h Hh. by apply preprocessor_transform_known, binary_known_self. }
  rewrite HXt. simpl. exists Xt. split; [reflexivity|].
  by apply map_result_Ok_Forall2.
Qed.

Lemma ridgecv_fit_total (train : list house) :
  exists Xt m,
    ridgecv_fit ridge_solve ridge_error train = Ok (preprocessor_fit train, m) /\
    Forall2 (fun h x => preprocessor_transform (preprocessor_fit train) h = Ok x)
            train Xt /\
    alpha_ m ∈ alphas /\
    coef_ m = (ridge_solve (alpha_ m) Xt (y_of train)).1.
Proof.
  unfold ridgecv_fit.
  destruct (fit_transform_total train) as (Xt & -> & HXt).
  destruct (RidgeCV_fit_spec Xt (y_of train)) as (m & Hm & Hin & _ & Hc).
  simpl. rewrite Hm. simpl. exists Xt, m. auto.
Qed.

Lemma ridgecv_fit_inv (train : list house) (pm : ColumnTransformer * RidgeCV) :
  ridgecv_fit ridge_solve ridge_error train = Ok pm -> pm.1 = preprocessor_fit train.
Proof.
  destruct (ridgecv_fit_total train) as (Xt & m & H & _). rewrite H.
  by intros [= <-].
Qed.

End ModelProperties.

(** C8. The ridge penalty grid has exactly ten values, the powers of ten
    from 10^-5 to 10^4, each ten times its predecessor, and [RidgeCV]
    settles on a grid value whose internal cross-validated error is least. *)
Theorem ridge_alpha_grid (ridge_solve : Q -> list (list Q) -> list Q -> list Q * Q)
    (ridge_error : Q -> list (list Q) -> list Q -> Q)
    (X : list (list Q)) (y : list Q) :
  length alphas = 10%nat /\
  Forall2 Qeq alphas
    [1 # 100000; 1 # 10000; 1 # 1000; 1 # 100; 1 # 10; 1; 10; 100; 1000; 10000] /\
  (forall i a b, alphas !! i = Some a -> alphas !! S i = Some b -> b == 10 * a) /\
  exists m, RidgeCV_fit ridge_solve ridge_error alphas X y = Ok m /\
    alpha_ m ∈ alphas /\
    forall a, a ∈ alphas -> ridge_error (alpha_ m) X y <= ridge_error a X y.
Proof.
  split; [reflexivity|]. split; [|split].
  - rewrite alphas_eq. repeat constructor.
  - rewrite alphas_eq. intros i a b Ha Hb.
    do 10 (destruct i as [|i];
           [simpl in Ha, Hb;
            first [discriminate | injection Ha as <-; injection Hb as <-; reflexivity]|]).
    discriminate.
  - destruct (RidgeCV_fit_spec ridge_solve ridge_error X y) as (m & Hm & Hin & Hmin & _).
    exists m. auto.
Qed.

(** ** R² *)

Lemma r2_score_Ok (y_true y_pred : list Q) :
  length y_true = length y_pred ->
  r2_score y_true y_pred
  = Ok (if (length y_pred <? 2)%nat then NaN
        else Finite (coefficient_of_determination y_true y_pred)).
Proof.
  intros Hl. unfold r2_score. rewrite Hl, Nat.eqb_refl. simpl.
  by destruct (length y_pred <? 2)%nat.
Qed.

Lemma r2_score_finite (y_true y_pred : list Q) :
  length y_true = length y_pred -> (2 <= length y_pred)%nat ->
  r2_score y_true y_pred = Ok (Finite (coefficient_of_determination y_true y_pred)).
Proof.
  intros Hl H2. rewrite r2_score_Ok by exact Hl.
  destruct (length y_pred <? 2)%nat eqn:E; [apply Nat.ltb_lt in E; lia | reflexivity].
Qed.

Lemma r2_score_nan (y_true y_pred : list Q) :
  length y_true = length y_pred -> (length y_pred < 2)%nat ->
  r2_score y_true y_pred = Ok NaN.
Proof.
  intros Hl H2. rewrite r2_score_Ok by exact Hl.
  by apply Nat.ltb_lt in H2 as ->.
Qed.

(** The R² of as many predictions as rows. *)
Lemma r2_score_of_rows (rows : list house) (pred : list Q) :
  length pred = length rows ->
  r2_score (y_of rows) pred
  = Ok (if (length rows <? 2)%nat then NaN
        else Finite (coefficient_of_determination (y_of rows) pred)).
Proof.
  intros Hl. rewrite r2_score_Ok by (unfold y_of; rewrite length_map; congruence).
  by rewrite Hl.
Qed.

Lemma pipeline_predict_total (pm : ColumnTransformer * RidgeCV) (test : list house) :
  test <> [] ->
  (forall h, h ∈ test -> exists p, ridgecv_predict pm h = Ok p) ->
  exists pred,
    pipeline_predict pm test = Ok pred /\
    Forall2 (fun h p => ridgecv_predict pm h = Ok p) test pred.
Proof.
  intros Hne Hp. destruct (map_result_total (ridgecv_predict pm) test Hp) as [pred Hpred].
  exists pred. split; [|by apply map_result_Ok_Forall2].
  unfold pipeline_predict. by destruct test.
Qed.

(** The test-score table of a test set every row of which is predicted. *)
Lemma build_test_set_score_total (pm : ColumnTransformer * RidgeCV) (test : list house) :
  test <> [] ->
  (forall h, h ∈ test -> exists p, ridgecv_predict pm h = Ok p) ->
  exists pred,
    Forall2 (fun h p => ridgecv_predict pm h = Ok p) test pred /\
    build_test_set_score pm test
    = Ok (reset_index
            {| index := [Str "test_score"];
               columns :=
                 [("RidgeCV",
                   [cell_of_float
                      (if (length test <? 2)%nat then NaN
                       else Finite (coefficient_of_determination (y_of test) pred))])] |}).
Proof.
  intros Hne Hp. destruct (pipeline_predict_total pm test Hne Hp) as (pred & Hpred & HF).
  exists pred. split; [exact HF|].
  unfold build_test_set_score. rewrite Hpred. simpl.
  rewrite r2_score_of_rows by (symmetry; by eapply Forall2_length). reflexivity.
Qed.

Lemma categorical_transform_unseen (train : list house) (h : house) :
  impute_str (BLDG_DESC h) ∉ bldg_desc train ->
  ohe_transform (pipeline_1 (preprocessor_fit train))
                (map impute_str (categorical_cells h))
  = Ok (replicate (n_distinct (bldg_desc train)) 0).
Proof.
  intros Hx. unfold ohe_transform, categorical_cells. simpl.
  rewrite ohe_cell_unseen; try reflexivity.
  - simpl. rewrite app_nil_r. fold (bldg_desc train). by rewrite np_unique_length.
  - fold (bldg_desc train). by rewrite elem_of_np_unique.
Qed.

(** C6. A test row whose BLDG_DESC was never seen in training is encoded
    without an error: its block of category indicators is all zero, and
    the refitted ridge pipeline predicts for it and scores the test set.
    The binary encoder keeps the default [handle_unknown="error"], so the
    binary cells of the test rows are taken to occur in the training
    set. *)
Theorem unseen_category_all_zero
    (ridge_solve : Q -> list (list Q) -> list Q -> list Q * Q)
    (ridge_error : Q -> list (list Q) -> list Q -> Q)
    (train test : list house) (pm : ColumnTransformer * RidgeCV) (h : house) :
  ridgecv_fit ridge_solve ridge_error train = Ok pm ->
  (forall h', h' ∈ test -> binary_known train h') ->
  h ∈ test ->
  impute_str (BLDG_DESC h) ∉ bldg_desc train ->
  ohe_transform (pipeline_1 pm.1) (map impute_str (categorical_cells h))
    = Ok (replicate (n_distinct (bldg_desc train)) 0) /\
  (exists b,
     ohe_transform (pipeline_2 pm.1) (binary_cells h) = Ok b /\
     preprocessor_transform pm.1 h
       = Ok (replicate (n_distinct (bldg_desc train)) 0 ++ b
               ++ map impute_num (numerical_cells h)) /\
     ridgecv_predict pm h
       = Ok (linear_predict pm.2
               (replicate (n_distinct (bldg_desc train)) 0 ++ b
                  ++ map impute_num (numerical_cells h)))) /\
  exists df, build_test_set_score pm test = Ok df.
Proof.
  intros Hfit Hbin Hh Hunseen.
  rewrite (ridgecv_fit_inv _ _ _ _ Hfit).
  pose proof (categorical_transform_unseen train h Hunseen) as Hc.
  split; [exact Hc|]. split.
  - destruct (binary_transform_known train h (Hbin h Hh)) as [b Hb].
    exists b. split; [exact Hb|].
    assert (Hp : preprocessor_transform (preprocessor_fit train) h
                 = Ok (replicate (n_distinct (bldg_desc train)) 0 ++ b
                         ++ map impute_num (numerical_cells h))).
    { unfold preprocessor_transform. by rewrite Hc, Hb. }
    split; [exact Hp|].
    unfold ridgecv_predict. rewrite (ridgecv_fit_inv _ _ _ _ Hfit), Hp. reflexivity.
  - destruct (build_test_set_score_total pm test) as (pred & _ & ->); [| |eauto].
    + intros ->. by apply elem_of_nil in Hh.
    + intros h' Hh'. unfold ridgecv_predict. rewrite (ridgecv_fit_inv _ _ _ _ Hfit).
      destruct (preprocessor_transform_known train h' (Hbin h' Hh')) as [x ->].
      simpl. eauto.
Qed.

Lemma n_features_Forall2 {A} (f : A -> result (list Q)) (l : list A)
    (X : list (list Q)) (n : nat) :
  Forall2 (fun h x => f h = Ok x) l X -> l <> [] ->
  (forall h x, f h = Ok x -> length x = n) -> n_features X = n.
Proof.
  intros [|h x l' X' Hx _] Hne Hlen; [done|]. simpl. by eapply Hlen.
Qed.

(** C7. When each of the four binary columns of the train set takes
    exactly two values, the refit always yields a coefficient table, and
    it has one row per distinct (imputed) BLDG_DESC value, plus four for the
    binary indicators, plus four for the numerical columns; the table
    [main] writes has that many rows.  The ridge solver returns one
    coefficient per column of its design matrix. *)
Theorem coefficient_table_row_count
    (ridge_solve : Q -> list (list Q) -> list Q -> list Q * Q)
    (ridge_error : Q -> list (list Q) -> list Q -> Q)
    (RandomForestRegressor XGBRegressor :
       nat -> nat -> nat -> list (list Q) -> list Q -> list Q -> Q)
    (elapsed : string -> nat -> Q * Q)
    (train : list house) :
  (forall a X y, length (ridge_solve a X y).1 = n_features X) ->
  train <> [] ->
  n_distinct (column GARAGE train) = 2%nat ->
  n_distinct (column FIREPLACE train) = 2%nat ->
  n_distinct (column BASEMENT train) = 2%nat ->
  n_distinct (column BSMTDEVL train) = 2%nat ->
  (exists pm t,
     ridgecv_fit ridge_solve ridge_error train = Ok pm /\
     build_feature_table pm = Ok t /\
     length t = (n_distinct (bldg_desc train) + 4 + 4)%nat) /\
  forall test tb,
    main_tables ridge_solve ridge_error RandomForestRegressor XGBRegressor elapsed
                train test = Ok tb ->
    n_rows (feature_table_df tb) = (n_distinct (bldg_desc train) + 4 + 4)%nat.
Proof.
  intros Hshape Hne Hg Hf Hb Hd.
  destruct (ridgecv_fit_total ridge_solve ridge_error train) as (Xt & m & Hfit & HXt & _ & Hc).
  assert (Hlen : length (expanded_features (preprocessor_fit train))
                 = (n_distinct (bldg_desc train) + 4 + 4)%nat).
  { rewrite expanded_features_length.
    rewrite !encoded_width_binary by (by rewrite np_unique_length).
    unfold encoded_width. simpl. rewrite np_unique_length. lia. }
  assert (Hcoef : length (coef_ m) = length (expanded_features (preprocessor_fit train))).
  { rewrite Hc, Hshape. eapply n_features_Forall2; [exact HXt | exact Hne |].
    intros h x. apply preprocessor_transform_length. }
  destruct (ranked_coefficients_total (expanded_features (preprocessor_fit train)) (coef_ m))
    as (t & Ht & Htl); [lia|].
  split.
  - exists (preprocessor_fit train, m), t. split; [exact Hfit|]. split; [exact Ht|]. lia.
  - intros test tb Hmain. unfold main_tables in Hmain.
    apply bind_result_Ok in Hmain as (s & _ & Hmain).
    apply bind_result_Ok in Hmain as (pm & Hpm & Hmain).
    apply bind_result_Ok in Hmain as (ts & _ & Hmain).
    apply bind_result_Ok in Hmain as (f & Hft & [= <-]).
    rewrite Hfit in Hpm. injection Hpm as <-.
    unfold build_feature_table in Hft. simpl in Hft. rewrite Ht in Hft.
    injection Hft as <-. unfold n_rows, feature_frame, RangeIndex. simpl.
    rewrite length_map, length_seq. lia.
Qed.

(** ** Cross-validation *)

Lemma fold_bounds (n k i : nat) :
  (i < k)%nat ->
  (fold_start n k i + fold_size n k i <= n)%nat.
Proof.
  intros Hi. unfold fold_start, fold_size.
  assert (Hk : k <> 0%nat) by lia.
  pose proof (Nat.div_mod_eq n k) as Hdm.
  pose proof (Nat.mod_upper_bound n k Hk) as Hr.
  set (q := (n / k)%nat) in *. set (r := (n mod k)%nat) in *.
  destruct (i <? r)%nat eqn:E.
  - apply Nat.ltb_lt in E. rewrite Nat.min_l by lia. nia.
  - apply Nat.ltb_ge in E. rewrite Nat.min_r by lia. nia.
Qed.

(** The training rows and the held-out rows of a fold split the sample. *)
Lemma fold_indices_partition (n k i : nat) :
  (i < k)%nat ->
  (fold_indices n k i).1 ++ (fold_indices n k i).2 ≡ₚ seq 0 n.
Proof.
  intros Hi. pose proof (fold_bounds n k i Hi) as Hb.
  unfold fold_indices. simpl.
  set (start := fold_start n k i) in *. set (size := fold_size n k i) in *.
  replace (start + size - start)%nat with size by lia.
  replace n with (start + (size + (n - (start + size))))%nat at 2 by lia.
  rewrite !seq_app. simpl. rewrite <- app_assoc.
  apply Permutation_app_head, Permutation_app_comm.
Qed.

Lemma fold_start_succ (n k i : nat) :
  fold_start n k (S i) = (fold_start n k i + fold_size n k i)%nat.
Proof.
  unfold fold_start, fold_size. destruct (i <? n mod k)%nat eqn:E.
  - apply Nat.ltb_lt in E. rewrite !Nat.min_l by lia. lia.
  - apply Nat.ltb_ge in E. rewrite !Nat.min_r by lia. lia.
Qed.

Lemma fold_start_last (n k : nat) : k <> 0%nat -> fold_start n k k = n.
Proof.
  intros Hk. unfold fold_start.
  pose proof (Nat.div_mod_eq n k) as Hdm.
  pose proof (Nat.mod_upper_bound n k Hk) as Hr.
  rewrite Nat.min_r by lia. lia.
Qed.

(** The held-out rows of fold [i] are one block. *)
Lemma fold_held_out (n k i : nat) :
  (fold_indices n k i).2 = seq (fold_start n k i) (fold_size n k i).
Proof.
  unfold fold_indices. simpl. f_equal. lia.
Qed.

Lemma test_folds_concat (n k j : nat) :
  concat (map (fun i => (fold_indices n k i).2) (seq 0 j)) = seq 0 (fold_start n k j).
Proof.
  induction j as [|j IH]; [reflexivity|].
  rewrite seq_S, map_app, concat_app, IH. simpl.
  rewrite app_nil_r, fold_start_succ.
  replace (fold_start n k j + fold_size n k j - fold_start n k j)%nat
    with (fold_size n k j) by lia.
  by rewrite seq_app.
Qed.

Lemma filter_keep {A} (P : A -> Prop) `{forall x, Decision (P x)} (l : list A) :
  Forall P l -> filter P l = l.
Proof.
  induction 1 as [|x l Hx _ IH]; [reflexivity|].
  by rewrite filter_cons_True, IH.
Qed.

Lemma filter_none {A} (P : A -> Prop) `{forall x, Decision (P x)} (l : list A) :
  Forall (fun x => ~ P x) l -> filter P l = [].
Proof.
  induction 1 as [|x l Hx _ IH]; [reflexivity|].
  by rewrite filter_cons_False, IH.
Qed.

(** The training rows of a fold are the rows it does not hold out, in
    the order of the sample. *)
Lemma fold_training_rows (n k i : nat) :
  (i < k)%nat ->
  (fold_indices n k i).1 = filter (fun j => j ∉ (fold_indices n k i).2) (seq 0 n).
Proof.
  intros Hi. pose proof (fold_bounds n k i Hi) as Hb.
  rewrite fold_held_out. unfold fold_indices. simpl.
  set (start := fold_start n k i) in *. set (size := fold_size n k i) in *.
  replace n with (start + (size + (n - (start + size))))%nat at 2 by lia.
  rewrite !seq_app, !filter_app. simpl.
  rewrite (filter_keep _ (seq 0 start)), (filter_none _ (seq start size)),
    (filter_keep _ (seq (start + size) _)).
  - reflexivity.
  - apply Forall_forall. intros j Hj Hin. apply elem_of_seq in Hj, Hin. lia.
  - apply Forall_forall. intros j Hj Hn. apply Hn. exact Hj.
  - apply Forall_forall. intros j Hj Hin. apply elem_of_seq in Hj, Hin. lia.
Qed.

Lemma fold_size_bounds (n k i : nat) :
  (n / k <= fold_size n k i <= n / k + 1)%nat.
Proof. unfold fold_size. destruct (i <? n mod k)%nat; lia. Qed.

Lemma fold_indices_in_range (n k i : nat) :
  (i < k)%nat ->
  Forall (fun j => (j < n)%nat) (fold_indices n k i).1 /\
  Forall (fun j => (j < n)%nat) (fold_indices n k i).2.
Proof.
  intros Hi. apply Forall_app. rewrite (fold_indices_partition n k i Hi).
  apply Forall_forall. intros j Hj. apply elem_of_seq in Hj. lia.
Qed.

(** How many rows a fold holds out and how many it trains on. *)
Lemma fold_test_length (data : list house) (k i : nat) :
  (i < k)%nat ->
  length (fold_test data k i) = fold_size (length data) k i.
Proof.
  intros Hi. unfold fold_test.
  destruct (fold_indices_in_range (length data) k i Hi) as [_ H2].
  destruct (take_at_in_range data _ H2) as [-> _].
  by rewrite fold_held_out, length_seq.
Qed.

Lemma fold_train_length (data : list house) (k i : nat) :
  (i < k)%nat ->
  length (fold_train data k i) = (length data - fold_size (length data) k i)%nat.
Proof.
  intros Hi. unfold fold_train.
  destruct (fold_indices_in_range (length data) k i Hi) as [H1 _].
  destruct (take_at_in_range data _ H1) as [-> _].
  pose proof (Permutation_length (fold_indices_partition (length data) k i Hi)) as Hl.
  rewrite length_app, length_seq, fold_held_out, length_seq in Hl. lia.
Qed.

(** With at least [2 * k] rows every fold holds out two rows or more;
    with three folds or more, every fold trains on two rows or more. *)
Lemma fold_test_two (data : list house) (k i : nat) :
  (i < k)%nat -> (2 * k <= length data)%nat ->
  (2 <= length (fold_test data k i))%nat.
Proof.
  intros Hi Hn. rewrite fold_test_length by exact Hi.
  pose proof (fold_size_bounds (length data) k i) as [Hlo _].
  assert (2 <= length data / k)%nat; [|lia].
  apply Nat.div_le_lower_bound; lia.
Qed.

Lemma fold_train_two (data : list house) (k i : nat) :
  (i < k)%nat -> (3 <= k)%nat -> (k <= length data)%nat ->
  (2 <= length (fold_train data k i))%nat.
Proof.
  intros Hi Hk Hn. rewrite fold_train_length by exact Hi.
  pose proof (Nat.div_mod_eq (length data) k) as Hdm.
  assert (1 <= length data / k)%nat by (apply Nat.div_le_lower_bound; lia).
  unfold fold_size. destruct (i <? length data mod k)%nat eqn:E.
  - apply Nat.ltb_lt in E. nia.
  - nia.
Qed.

Lemma imap_pair_lookup {A} (l : list A) (i : nat) (p : nat * A) :
  imap pair l !! i = Some p <-> exists x, l !! i = Some x /\ p = (i, x).
Proof.
  rewrite list_lookup_imap. destruct (l !! i) as [x|]; simpl; split.
  - intros [= <-]. eauto.
  - intros (y & [= <-] & ->). reflexivity.
  - discriminate.
  - intros (y & [=] & _).
Qed.

Lemma KFold_Ok (k n : nat) :
  (2 <= k)%nat -> (k <= n)%nat ->
  KFold k n = Ok (map (fold_indices n k) (seq 0 k)).
Proof.
  intros Hk Hn. unfold KFold.
  destruct (k <? 2)%nat eqn:E1; [apply Nat.ltb_lt in E1; lia|].
  destruct (n <? k)%nat eqn:E2; [apply Nat.ltb_lt in E2; lia|]. reflexivity.
Qed.

Lemma fit_and_score_scored (est : estimator) (data : list house) (timing : Q * Q)
    (k i : nat) (s : fold_scores) :
  fit_and_score est data timing (fold_indices (length data) k i) = Ok s ->
  scored_on_fold est data k i s /\ fs_fit_time s = timing.1 /\ fs_score_time s = timing.2.
Proof.
  unfold fit_and_score. intros H.
  apply bind_result_Ok in H as (predict & Hfit & H).
  apply bind_result_Ok in H as (test_pred & Htest & H).
  apply bind_result_Ok in H as (test_score & Hts & H).
  apply bind_result_Ok in H as (train_pred & Htrain & H).
  apply bind_result_Ok in H as (train_score & Hrs & [= <-]).
  split; [|split; reflexivity].
  exists predict, test_pred, train_pred. unfold fold_train, fold_test.
  repeat split; try assumption; by apply map_result_Ok_Forall2.
Qed.

(** A fold is scored as soon as the estimator fits its training rows and
    predicts every row of the fold. *)
Lemma fit_and_score_total (est : estimator) (data : list house) (timing : Q * Q)
    (fold : list nat * list nat) (predict : house -> result Q) :
  fit est (take_at data fold.1) = Ok predict ->
  (forall h, h ∈ take_at data fold.2 -> exists p, predict h = Ok p) ->
  (forall h, h ∈ take_at data fold.1 -> exists p, predict h = Ok p) ->
  exists s, fit_and_score est data timing fold = Ok s.
Proof.
  intros Hfit Htest Htrain. unfold fit_and_score. rewrite Hfit. simpl.
  destruct (map_result_total predict (take_at data fold.2) Htest) as [tp Htp].
  destruct (map_result_total predict (take_at data fold.1) Htrain) as [rp Hrp].
  rewrite Htp. simpl.
  rewrite r2_score_of_rows by (by eapply map_result_length). simpl.
  rewrite Hrp. simpl.
  rewrite r2_score_of_rows by (by eapply map_result_length). simpl.
  eauto.
Qed.

(** [cross_validate] returns as soon as every fold can be fitted and
    scored; it then holds one entry per fold and metric. *)
Lemma cross_validate_Ok (est : estimator) (data : list house) (cv : option nat)
    (elapsed : nat -> Q * Q) :
  (2 <= check_cv cv)%nat -> (check_cv cv <= length data)%nat ->
  (forall i, (i < check_cv cv)%nat ->
     exists s, fit_and_score est data (elapsed i)
                 (fold_indices (length data) (check_cv cv) i) = Ok s) ->
  exists rs,
    cross_validate est data cv elapsed = Ok (scores_dict rs) /\
    length rs = check_cv cv /\
    forall i s, rs !! i = Some s ->
      scored_on_fold est data (check_cv cv) i s /\
      fs_fit_time s = (elapsed i).1 /\ fs_score_time s = (elapsed i).2.
Proof.
  intros Hk Hn Hfold. unfold cross_validate. rewrite KFold_Ok by assumption. simpl.
  set (k := check_cv cv) in *. set (n := length data) in *.
  destruct (map_result_total
              (fun '(i, fold) => fit_and_score est data (elapsed i) fold)
              (imap pair (map (fold_indices n k) (seq 0 k)))) as [rs Hrs].
  { intros [i fold] Hin. apply list_elem_of_lookup_1 in Hin as [j Hj].
    apply imap_pair_lookup in Hj as (x & Hx & [= -> ->]).
    rewrite list_lookup_fmap in Hx.
    destruct (seq 0 k !! j) as [j'|] eqn:Hj; [|discriminate].
    apply lookup_seq in Hj as [-> Hj]. injection Hx as <-. simpl. by apply Hfold. }
  rewrite Hrs. simpl. exists rs. split; [reflexivity|].
  pose proof (map_result_length _ _ _ Hrs) as Hlen.
  rewrite length_imap, length_map, length_seq in Hlen.
  split; [exact Hlen|].
  intros i s Hs. apply map_result_Ok_Forall2 in Hrs.
  assert (Hi : (i < k)%nat) by (rewrite <- Hlen; by eapply lookup_lt_Some).
  assert (Hp : imap pair (map (fold_indices n k) (seq 0 k)) !! i
               = Some (i, fold_indices n k i)).
  { apply imap_pair_lookup. exists (fold_indices n k i). split; [|reflexivity].
    rewrite list_lookup_fmap, lookup_seq_lt by lia. reflexivity. }
  pose proof (Forall2_lookup_lr _ _ _ _ _ _ Hrs Hp Hs) as Hfs. simpl in Hfs.
  by apply fit_and_score_scored.
Qed.

(** Whether a fold's scores are numbers depends on its sizes only. *)
Lemma scored_on_fold_finite (est : estimator) (data : list house) (k i : nat)
    (s : fold_scores) :
  scored_on_fold est data k i s ->
  (fs_test_score s = NaN <-> (length (fold_test data k i) < 2)%nat) /\
  (fs_train_score s = NaN <-> (length (fold_train data k i) < 2)%nat).
Proof.
  intros (predict & tp & rp & _ & Htest & Htrain & Hts & Hrs).
  apply Forall2_length in Htest, Htrain.
  rewrite r2_score_of_rows in Hts by congruence.
  rewrite r2_score_of_rows in Hrs by congruence.
  injection Hts as <-. injection Hrs as <-.
  split.
  - destruct (length (fold_test data k i) <? 2)%nat eqn:E.
    + apply Nat.ltb_lt in E. tauto.
    + apply Nat.ltb_ge in E. split; [discriminate | lia].
  - destruct (length (fold_train data k i) <? 2)%nat eqn:E.
    + apply Nat.ltb_lt in E. tauto.
    + apply Nat.ltb_ge in E. split; [discriminate | lia].
Qed.

Lemma dummy_fold (data : list house) (timing : Q * Q) (fold : list nat * list nat) :
  exists s, fit_and_score dummy data timing fold = Ok s.
Proof.
  eapply fit_and_score_total; [reflexivity | |]; intros h _; simpl; eauto.
Qed.

Section PipelineFolds.

Variable ridge_solve : Q -> list (list Q) -> list Q -> list Q * Q.
Variable ridge_error : Q -> list (list Q) -> list Q -> Q.

Lemma ridgecv_fold (data : list house) (timing : Q * Q) (fold : list nat * list nat) :
  Forall (binary_known (take_at data fold.1)) (take_at data fold.2) ->
  exists s, fit_and_score (ridgecv ridge_solve ridge_error) data timing fold = Ok s.
Proof.
  intros Hknown.
  destruct (ridgecv_fit_total ridge_solve ridge_error (take_at data fold.1))
    as (Xt & m & Hfit & _).
  eapply fit_and_score_total.
  - simpl. rewrite Hfit. reflexivity.
  - intros h Hh. rewrite Forall_forall in Hknown. unfold ridgecv_predict. simpl.
    destruct (preprocessor_transform_known _ h (Hknown h Hh)) as [x ->]. simpl. eauto.
  - intros h Hh. unfold ridgecv_predict. simpl.
    destruct (preprocessor_transform_known _ h (binary_known_self _ h Hh)) as [x ->].
    simpl. eauto.
Qed.

Lemma tree_fold (regressor : list (list Q) -> list Q -> list Q -> Q)
    (data : list house) (timing : Q * Q) (fold : list nat * list nat) :
  Forall (binary_known (take_at data fold.1)) (take_at data fold.2) ->
  exists s, fit_and_score (tree_pipeline regressor) data timing fold = Ok s.
Proof.
  intros Hknown.
  destruct (fit_transform_total (take_at data fold.1)) as (Xt & Hfit & _).
  eapply fit_and_score_total.
  - simpl. rewrite Hfit. reflexivity.
  - intros h Hh. rewrite Forall_forall in Hknown. simpl.
    destruct (preprocessor_transform_known _ h (Hknown h Hh)) as [x ->]. simpl. eauto.
  - intros h Hh. simpl.
    destruct (preprocessor_transform_known _ h (binary_known_self _ h Hh)) as [x ->].
    simpl. eauto.
Qed.

End PipelineFolds.

Lemma cv_encodable_fold (data : list house) (k i : nat) :
  cv_encodable data k -> (i < k)%nat ->
  Forall (binary_known (take_at data (fold_indices (length data) k i).1))
         (take_at data (fold_indices (length data) k i).2).
Proof.
  unfold cv_encodable. rewrite Forall_forall. intros H Hi.
  apply (H i). apply elem_of_seq. lia.
Qed.

(** ** Means that skip [NaN] *)

Lemma finite_values_Finite (l : list Q) : finite_values (map Finite l) = l.
Proof.
  induction l as [|x l IH]; [reflexivity|].
  change (x :: finite_values (map Finite l) = x :: l). by rewrite IH.
Qed.

Lemma nanmean_Finite (l : list Q) : l <> [] -> nanmean (map Finite l) = Finite (mean l).
Proof.
  intros Hl. unfold nanmean. rewrite finite_values_Finite. by destruct l.
Qed.

Lemma floats_finite {A} (f : A -> float) (l : list A) :
  (forall a, a ∈ l -> f a <> NaN) -> exists xs, map f l = map Finite xs.
Proof.
  induction l as [|a l IH]; intros H.
  - by exists [].
  - destruct IH as [xs Hxs]; [intros b Hb; apply H; by right|].
    destruct (f a) as [y|] eqn:E; [|exfalso; apply (H a); [by left | exact E]].
    exists (y :: xs). simpl. by rewrite E, Hxs.
Qed.

Lemma rounded_cell (d : nat) (v : float) :
  cell_of_float (round_float d v) = Nan \/
  exists x, cell_of_float (round_float d v) = Num x /\ has_decimals d x.
Proof.
  destruct v as [x|]; [right | by left].
  eexists. split; [reflexivity | apply np_round_has_decimals].
Qed.

Lemma mean_scores_dict (rs : list fold_scores) :
  mean_scores (scores_dict rs)
  = [round_float 4 (nanmean (map (fun s => Finite (fs_fit_time s)) rs));
     round_float 4 (nanmean (map (fun s => Finite (fs_score_time s)) rs));
     round_float 4 (nanmean (map fs_test_score rs));
     round_float 4 (nanmean (map fs_train_score rs))].
Proof. reflexivity. Qed.

(** Where every fold scores a number, the stored values are the rounded
    means over all folds. *)
Lemma mean_scores_finite (rs : list fold_scores) (te tr : list Q) :
  rs <> [] ->
  map fs_test_score rs = map Finite te ->
  map fs_train_score rs = map Finite tr ->
  mean_scores (scores_dict rs)
  = map Finite [np_round 4 (mean (map fs_fit_time rs));
                np_round 4 (mean (map fs_score_time rs));
                np_round 4 (mean te);
                np_round 4 (mean tr)].
Proof.
  intros Hrs Hte Htr. rewrite mean_scores_dict, Hte, Htr.
  rewrite <- (map_map fs_fit_time Finite rs), <- (map_map fs_score_time Finite rs).
  assert (Hne : forall (A : Type) (g : fold_scores -> A), map g rs <> []).
  { intros A g. by destruct rs. }
  rewrite !nanmean_Finite; [reflexivity | | | apply Hne | apply Hne].
  - intros ->. apply (Hne _ fs_train_score). by rewrite Htr.
  - intros ->. apply (Hne _ fs_test_score). by rewrite Hte.
Qed.

(** With three folds or more and two rows or more to hold out in every
    fold, every fold scores a number on both parts. *)
Lemma fold_scores_finite (est : estimator) (data : list house) (k : nat)
    (rs : list fold_scores) :
  (3 <= k)%nat -> (2 * k <= length data)%nat ->
  length rs = k ->
  (forall i s, rs !! i = Some s -> scored_on_fold est data k i s) ->
  exists te tr : list Q,
    map fs_test_score rs = map Finite te /\
    map fs_train_score rs = map Finite tr.
Proof.
  intros Hk Hn Hlen Hsc.
  assert (H : forall s, s ∈ rs -> fs_test_score s <> NaN /\ fs_train_score s <> NaN).
  { intros s Hs. apply list_elem_of_lookup_1 in Hs as [i Hi].
    assert (Hik : (i < k)%nat) by (rewrite <- Hlen; by eapply lookup_lt_Some).
    destruct (scored_on_fold_finite est data k i s (Hsc i s Hi)) as [Ht Hr].
    pose proof (fold_test_two data k i Hik Hn).
    pose proof (fold_train_two data k i Hik Hk ltac:(lia)).
    split; [intros E; apply Ht in E | intros E; apply Hr in E]; lia. }
  destruct (floats_finite fs_test_score rs) as [te Hte]; [intros s Hs; by apply H|].
  destruct (floats_finite fs_train_score rs) as [tr Htr]; [intros s Hs; by apply H|].
  by exists te, tr.
Qed.

Section FourModels.

Variable ridge_solve : Q -> list (list Q) -> list Q -> list Q * Q.
Variable ridge_error : Q -> list (list Q) -> list Q -> Q.
Variable RandomForestRegressor XGBRegressor :
  nat -> nat -> nat -> list (list Q) -> list Q -> list Q -> Q.
Variable elapsed : string -> nat -> Q * Q.

(** The four cross-validations of [main] on a train set of at least ten
    rows whose folds can be encoded. *)
Lemma four_cross_validations (train : list house) :
  (10 <= length train)%nat ->
  cv_encodable train 10 -> cv_encodable train 5 ->
  exists d r f x : list fold_scores,
    (dummy_scores elapsed train = Ok (scores_dict d) /\
     ridgecv_scores ridge_solve ridge_error elapsed train = Ok (scores_dict r) /\
     random_forest_scores RandomForestRegressor elapsed train = Ok (scores_dict f) /\
     xgb_scores XGBRegressor elapsed train = Ok (scores_dict x)) /\
    (length d = 5%nat /\ length r = 10%nat /\ length f = 5%nat /\ length x = 5%nat) /\
    ((forall i s, d !! i = Some s -> scored_on_fold dummy train 5 i s) /\
     (forall i s, r !! i = Some s -> scored_on_fold (ridgecv ridge_solve ridge_error) train 10 i s) /\
     (forall i s, f !! i = Some s -> scored_on_fold (random_forest_regression RandomForestRegressor) train 5 i s) /\
     (forall i s, x !! i = Some s -> scored_on_fold (xgb_regression XGBRegressor) train 5 i s)).
Proof.
  intros Hn H10 H5.
  destruct (cross_validate_Ok dummy train None (elapsed "dummy"))
    as (d & Hd & Hdl & Hds); [simpl; lia | simpl; lia | |].
  { intros i _. apply dummy_fold. }
  destruct (cross_validate_Ok (ridgecv ridge_solve ridge_error) train (Some 10%nat) (elapsed "ridgecv"))
    as (r & Hr & Hrl & Hrs); [simpl; lia | simpl; lia | |].
  { intros i Hi. apply ridgecv_fold. by apply cv_encodable_fold. }
  destruct (cross_validate_Ok (random_forest_regression RandomForestRegressor) train (Some 5%nat) (elapsed "random_forest"))
    as (f & Hf & Hfl & Hfs); [simpl; lia | simpl; lia | |].
  { intros i Hi. apply tree_fold. by apply cv_encodable_fold. }
  destruct (cross_validate_Ok (xgb_regression XGBRegressor) train (Some 5%nat) (elapsed "xgb"))
    as (x & Hx & Hxl & Hxs); [simpl; lia | simpl; lia | |].
  { intros i Hi. apply tree_fold. by apply cv_encodable_fold. }
  exists d, r, f, x. split; [by repeat split|]. split; [by repeat split|].
  repeat split; intros i s Hs;
    [apply (Hds i s Hs) | apply (Hrs i s Hs) | apply (Hfs i s Hs) | apply (Hxs i s Hs)].
Qed.

Lemma store_scores_of (train : list house) (d r f x : list fold_scores) :
  dummy_scores elapsed train = Ok (scores_dict d) ->
  ridgecv_scores ridge_solve ridge_error elapsed train = Ok (scores_dict r) ->
  random_forest_scores RandomForestRegressor elapsed train = Ok (scores_dict f) ->
  xgb_scores XGBRegressor elapsed train = Ok (scores_dict x) ->
  store_scores ridge_solve ridge_error RandomForestRegressor XGBRegressor elapsed train
  = Ok [("dummy_score", mean_scores (scores_dict d));
        ("ridgecv_score", mean_scores (scores_dict r));
        ("random_forest", mean_scores (scores_dict f));
        ("XGB_Regression", mean_scores (scores_dict x))].
Proof.
  intros Hd Hr Hf Hx. unfold store_scores. rewrite Hd, Hr, Hf, Hx. reflexivity.
Qed.

(** With twenty rows or more, every fold of the four cross-validations
    scores a number on both of its parts. *)
Lemma four_models_finite (train : list house) (d r f x : list fold_scores) :
  (20 <= length train)%nat ->
  (length d = 5%nat /\ length r = 10%nat /\ length f = 5%nat /\ length x = 5%nat) ->
  ((forall i s, d !! i = Some s -> scored_on_fold dummy train 5 i s) /\
   (forall i s, r !! i = Some s -> scored_on_fold (ridgecv ridge_solve ridge_error) train 10 i s) /\
   (forall i s, f !! i = Some s -> scored_on_fold (random_forest_regression RandomForestRegressor) train 5 i s) /\
   (forall i s, x !! i = Some s -> scored_on_fold (xgb_regression XGBRegressor) train 5 i s)) ->
  forall rs, rs ∈ [d; r; f; x] ->
    rs <> [] /\
    exists te tr : list Q,
      map fs_test_score rs = map Finite te /\ map fs_train_score rs = map Finite tr.
Proof.
  intros Hn (Hdl & Hrl & Hfl & Hxl) (Hds & Hrs & Hfs & Hxs) rs Hin.
  repeat (apply elem_of_cons in Hin as [->|Hin]); [| | | |by apply elem_of_nil in Hin].
  - split; [by destruct d|]. eapply fold_scores_finite; [| |exact Hdl|exact Hds]; lia.
  - split; [by destruct r|]. eapply fold_scores_finite; [| |exact Hrl|exact Hrs]; lia.
  - split; [by destruct f|]. eapply fold_scores_finite; [| |exact Hfl|exact Hfs]; lia.
  - split; [by destruct x|]. eapply fold_scores_finite; [| |exact Hxl|exact Hxs]; lia.
Qed.

End FourModels.

(** The folds of a [k]-fold split of [n >= k] rows: consecutive held-out
    blocks that make up the sample, of [n / k] or [n / k + 1] rows, and
    for each the remaining rows to train on. *)
Lemma k_fold_split (n k : nat) :
  k <> 0%nat -> (k <= n)%nat ->
  concat (map (fun i => (fold_indices n k i).2) (seq 0 k)) = seq 0 n /\
  forall i, (i < k)%nat ->
    (fold_indices n k i).2 = seq (fold_start n k i) (fold_size n k i) /\
    (1 <= fold_size n k i)%nat /\
    (n / k <= fold_size n k i <= n / k + 1)%nat /\
    (fold_indices n k i).1 = filter (fun j => j ∉ (fold_indices n k i).2) (seq 0 n).
Proof.
  intros Hk Hn. split.
  - by rewrite test_folds_concat, fold_start_last.
  - intros i Hi. split; [apply fold_held_out|].
    pose proof (fold_size_bounds n k i) as Hb.
    assert (1 <= n / k)%nat by (apply Nat.div_le_lower_bound; lia).
    split; [lia|]. split; [exact Hb|]. by apply fold_training_rows.
Qed.

(** C9. On a train set the folds of which can be encoded, the ridge
    pipeline is cross-validated on ten folds and the dummy regressor, the
    random forest and the boosted trees on five.  The folds are those of
    a k-fold split: the held-out rows of the folds are consecutive,
    non-empty blocks of [n / k] or [n / k + 1] rows that taken in order
    make up the sample, and a fold trains on all the rows it does not
    hold out.  Every fold fits on its training rows and takes R² on the
    held-out rows and on the training rows.  The stored score of a model
    and metric is the mean over the folds of the values that are not
    [NaN], rounded to four decimals; with twenty rows or more every fold
    holds out two rows at least, every R² is a number and the stored
    score is the rounded mean over all folds. *)
Theorem cross_validation_folds
    (ridge_solve : Q -> list (list Q) -> list Q -> list Q * Q)
    (ridge_error : Q -> list (list Q) -> list Q -> Q)
    (RandomForestRegressor XGBRegressor :
       nat -> nat -> nat -> list (list Q) -> list Q -> list Q -> Q)
    (elapsed : string -> nat -> Q * Q)
    (train : list house) :
  (10 <= length train)%nat ->
  cv_encodable train 10 -> cv_encodable train 5 ->
  exists d r f x : list fold_scores,
    (length d = 5%nat /\ length r = 10%nat /\ length f = 5%nat /\ length x = 5%nat) /\
    (dummy_scores elapsed train = Ok (scores_dict d) /\
     ridgecv_scores ridge_solve ridge_error elapsed train = Ok (scores_dict r) /\
     random_forest_scores RandomForestRegressor elapsed train = Ok (scores_dict f) /\
     xgb_scores XGBRegressor elapsed train = Ok (scores_dict x)) /\
    (forall k, k = 5%nat \/ k = 10%nat ->
       let n := length train in
       concat (map (fun i => (fold_indices n k i).2) (seq 0 k)) = seq 0 n /\
       forall i, (i < k)%nat ->
         (fold_indices n k i).2 = seq (fold_start n k i) (fold_size n k i) /\
         (1 <= fold_size n k i)%nat /\
         (n / k <= fold_size n k i <= n / k + 1)%nat /\
         (fold_indices n k i).1
           = filter (fun j => j ∉ (fold_indices n k i).2) (seq 0 n)) /\
    ((forall i s, d !! i = Some s -> scored_on_fold dummy train 5 i s) /\
     (forall i s, r !! i = Some s ->
        scored_on_fold (ridgecv ridge_solve ridge_error) train 10 i s) /\
     (forall i s, f !! i = Some s ->
        scored_on_fold (random_forest_regression RandomForestRegressor) train 5 i s) /\
     (forall i s, x !! i = Some s ->
        scored_on_fold (xgb_regression XGBRegressor) train 5 i s)) /\
    store_scores ridge_solve ridge_error RandomForestRegressor XGBRegressor elapsed train
    = Ok (map (fun '(name, rs) =>
                 (name, [round_float 4 (nanmean (map (fun s => Finite (fs_fit_time s)) rs));
                         round_float 4 (nanmean (map (fun s => Finite (fs_score_time s)) rs));
                         round_float 4 (nanmean (map fs_test_score rs));
                         round_float 4 (nanmean (map fs_train_score rs))]))
              [("dummy_score", d); ("ridgecv_score", r);
               ("random_forest", f); ("XGB_Regression", x)]) /\
    ((20 <= length train)%nat ->
     forall rs, rs ∈ [d; r; f; x] ->
       exists te tr : list Q,
         map fs_test_score rs = map Finite te /\
         map fs_train_score rs = map Finite tr /\
         mean_scores (scores_dict rs)
         = map Finite [np_round 4 (mean (map fs_fit_time rs));
                       np_round 4 (mean (map fs_score_time rs));
                       np_round 4 (mean te);
                       np_round 4 (mean tr)]).
Proof.
  intros Hn H10 H5.
  destruct (four_cross_validations ridge_solve ridge_error RandomForestRegressor
              XGBRegressor elapsed train Hn H10 H5)
    as (d & r & f & x & (Hd & Hr & Hf & Hx) & Hlen & Hfold).
  exists d, r, f, x. split; [exact Hlen|]. split; [by repeat split|].
  split; [|split; [exact Hfold|split]].
  - intros k [->| ->]; apply k_fold_split; lia.
  - by apply store_scores_of.
  - intros H20 rs Hin.
    destruct (four_models_finite ridge_solve ridge_error RandomForestRegressor
                XGBRegressor train d r f x H20 Hlen Hfold rs Hin)
      as (Hne & te & tr & Hte & Htr).
    exists te, tr. split; [exact Hte|]. split; [exact Htr|].
    by apply mean_scores_finite.
Qed.

(** The table of line 100-102, of the four cross-validations. *)
Lemma build_scores_df_of
    (ridge_solve : Q -> list (list Q) -> list Q -> list Q * Q)
    (ridge_error : Q -> list (list Q) -> list Q -> Q)
    (RandomForestRegressor XGBRegressor :
       nat -> nat -> nat -> list (list Q) -> list Q -> list Q -> Q)
    (elapsed : string -> nat -> Q * Q)
    (train : list house) (d r f x : list fold_scores) :
  dummy_scores elapsed train = Ok (scores_dict d) ->
  ridgecv_scores ridge_solve ridge_error elapsed train = Ok (scores_dict r) ->
  random_forest_scores RandomForestRegressor elapsed train = Ok (scores_dict f) ->
  xgb_scores XGBRegressor elapsed train = Ok (scores_dict x) ->
  build_scores_df ridge_solve ridge_error RandomForestRegressor XGBRegressor elapsed train
  = Ok {| index := RangeIndex 4;
          columns :=
            [("index", [Str "fit_time"; Str "score_time"; Str "test_score";
                        Str "train_score"]);
             ("dummy_score", map cell_of_float (mean_scores (scores_dict d)));
             ("ridgecv_score", map cell_of_float (mean_scores (scores_dict r)));
             ("random_forest", map cell_of_float (mean_scores (scores_dict f)));
             ("XGB_Regression", map cell_of_float (mean_scores (scores_dict x)))] |}.
Proof.
  intros Hd Hr Hf Hx. unfold build_scores_df.
  rewrite Hd, (store_scores_of _ _ _ _ _ _ d r f x Hd Hr Hf Hx). reflexivity.
Qed.

(** C5. The table of cross-validation scores has the four rows fit_time,
    score_time, test_score and train_score, labelled in a first column
    "index", and the four model columns dummy_score, ridgecv_score,
    random_forest and XGB_Regression.  Every value has gone through the
    rounding to four decimals: it is a number of four decimals, or [NaN]
    where no fold of the model has a score.  With twenty training rows or
    more every value is a number of four decimals. *)
Theorem cv_scores_table
    (ridge_solve : Q -> list (list Q) -> list Q -> list Q * Q)
    (ridge_error : Q -> list (list Q) -> list Q -> Q)
    (RandomForestRegressor XGBRegressor :
       nat -> nat -> nat -> list (list Q) -> list Q -> list Q -> Q)
    (elapsed : string -> nat -> Q * Q)
    (train : list house) :
  (10 <= length train)%nat ->
  cv_encodable train 10 -> cv_encodable train 5 ->
  exists df,
    build_scores_df ridge_solve ridge_error RandomForestRegressor XGBRegressor elapsed train
      = Ok df /\
    header df = ["index"; "dummy_score"; "ridgecv_score"; "random_forest"; "XGB_Regression"] /\
    n_rows df = 4%nat /\
    columns df !! 0%nat
      = Some ("index", [Str "fit_time"; Str "score_time"; Str "test_score"; Str "train_score"]) /\
    forall j name col, columns df !! S j = Some (name, col) ->
      length col = 4%nat /\
      (forall c, c ∈ col -> c = Nan \/ exists x, c = Num x /\ has_decimals 4 x) /\
      ((20 <= length train)%nat ->
       forall c, c ∈ col -> exists x, c = Num x /\ has_decimals 4 x).
Proof.
  intros Hn H10 H5.
  destruct (four_cross_validations ridge_solve ridge_error RandomForestRegressor
              XGBRegressor elapsed train Hn H10 H5)
    as (d & r & f & x & (Hd & Hr & Hf & Hx) & Hlen & Hfold).
  eexists. split; [by apply (build_scores_df_of _ _ _ _ _ _ d r f x)|].
  split; [reflexivity|]. split; [reflexivity|]. split; [reflexivity|].
  intros j name col Hj.
  assert (Hcol : exists rs, rs ∈ [d; r; f; x] /\
                   col = map cell_of_float (mean_scores (scores_dict rs))).
  { simpl in Hj.
    do 4 (destruct j as [|j];
          [injection Hj as <- <-; eexists; split; [|reflexivity];
           repeat first [by left | right] |]).
    discriminate. }
  destruct Hcol as (rs & Hin & ->). split; [reflexivity|]. split.
  - intros c Hc. rewrite mean_scores_dict in Hc. simpl in Hc.
    repeat (apply elem_of_cons in Hc as [->|Hc]; [apply rounded_cell|]).
    by apply elem_of_nil in Hc.
  - intros H20 c Hc.
    destruct (four_models_finite ridge_solve ridge_error RandomForestRegressor
                XGBRegressor train d r f x H20 Hlen Hfold rs Hin)
      as (Hne & te & tr & Hte & Htr).
    rewrite (mean_scores_finite rs te tr Hne Hte Htr) in Hc. simpl in Hc.
    repeat (apply elem_of_cons in Hc as [->|Hc];
            [eexists; split; [reflexivity | apply np_round_has_decimals]|]).
    by apply elem_of_nil in Hc.
Qed.

(** ** The file system *)

Lemma stat_set_node_ne (fs : filesystem) (p q : path) (n : node) :
  p <> q -> stat (set_node p n fs) q = stat fs q.
Proof.
  intros Hpq. destruct q as [|c q]; [reflexivity|]. simpl. by rewrite lookup_insert_ne.
Qed.

Lemma stat_log (fs : filesystem) (c : call) (q : path) : stat (log c fs) q = stat fs q.
Proof. by destruct q. Qed.

Lemma stat_use_space (fs : filesystem) (n : nat) (q : path) :
  stat (use_space n fs) q = stat fs q.
Proof. by destruct q. Qed.

(** [lookup_dir] reads the nodes on the way down and nothing else. *)
Lemma lookup_dir_ext (fs1 fs2 : filesystem) (seen rest : path) :
  (forall j, (j <= length rest)%nat ->
     stat fs1 (seen ++ take j rest) = stat fs2 (seen ++ take j rest)) ->
  lookup_dir fs1 seen rest = lookup_dir fs2 seen rest.
Proof.
  revert seen. induction rest as [|c rest IH]; intros seen H; simpl.
  - specialize (H 0%nat). simpl in H. rewrite app_nil_r in H. by rewrite H.
  - pose proof (H 0%nat) as H0. simpl in H0. rewrite app_nil_r in H0.
    rewrite H0 by lia. destruct (stat fs2 seen) as [[w|w content]|]; try reflexivity.
    apply IH. intros j Hj. specialize (H (S j)). simpl in H.
    rewrite <- app_assoc. simpl. apply H. lia.
Qed.

Lemma lookup_dir_set_node_longer (fs : filesystem) (p d : path) (n : node) :
  (length d < length p)%nat ->
  lookup_dir (set_node p n fs) [] d = lookup_dir fs [] d.
Proof.
  intros Hl. apply lookup_dir_ext. intros j Hj. simpl.
  apply stat_set_node_ne. intros ->. rewrite length_take in Hl. lia.
Qed.

Lemma lookup_dir_log (fs : filesystem) (c : call) (d : path) :
  lookup_dir (log c fs) [] d = lookup_dir fs [] d.
Proof. apply lookup_dir_ext. intros j _. apply stat_log. Qed.

Lemma lookup_dir_use_space (fs : filesystem) (n : nat) (d : path) :
  lookup_dir (use_space n fs) [] d = lookup_dir fs [] d.
Proof. apply lookup_dir_ext. intros j _. apply stat_use_space. Qed.

Lemma lookup_dir_snoc (fs : filesystem) (seen rest : path) (c : string) :
  lookup_dir fs seen (rest ++ [c]) =
  match lookup_dir fs seen rest with
  | Ok _ =>
      match stat fs (seen ++ rest ++ [c]) with
      | Some (Dir w) => Ok w
      | Some (File _ _) => Raise NotADirectoryError
      | None => Raise FileNotFoundError
      end
  | Raise e => Raise e
  end.
Proof.
  revert seen. induction rest as [|x rest IH]; intros seen; simpl.
  - destruct (stat fs seen) as [[w|w content]|]; reflexivity.
  - destruct (stat fs seen) as [[w|w content]|]; try reflexivity.
    rewrite IH. by rewrite <- app_assoc.
Qed.

Lemma lookup_dir_app_raise (fs : filesystem) (seen rest more : path) (e : exn) :
  lookup_dir fs seen rest = Raise e -> lookup_dir fs seen (rest ++ more) = Raise e.
Proof.
  revert seen. induction rest as [|x rest IH]; intros seen; simpl.
  - destruct (stat fs seen) as [[w|w content]|] eqn:E; try discriminate;
      intros [= <-]; destruct more; simpl; by rewrite E.
  - destruct (stat fs seen) as [[w|w content]|]; try done. apply IH.
Qed.

Lemma dirname_snoc (d : path) (c : string) : dirname (d ++ [c]) = d.
Proof. apply removelast_last. Qed.

Lemma snoc_not_nil {A} (d : list A) (c : A) : d ++ [c] <> [].
Proof. by destruct d. Qed.

Lemma stat_snoc (fs : filesystem) (d : path) (c : string) :
  stat fs (d ++ [c]) = nodes fs !! (d ++ [c]).
Proof. by destruct d. Qed.

Lemma lookup_dir_Ok_path_exists (fs : filesystem) (d : path) (w : bool) :
  lookup_dir fs [] d = Ok w -> path_exists fs d = true.
Proof.
  destruct d as [|x d'] using rev_ind; [reflexivity|]. clear IHd'.
  rewrite lookup_dir_snoc. cbn [app]. intros H.
  destruct (lookup_dir fs [] d') as [w'|e] eqn:Hd; [|discriminate].
  rewrite stat_snoc in H.
  destruct (nodes fs !! (d' ++ [x])) as [n|] eqn:Hn; [|discriminate].
  unfold path_exists. rewrite dirname_snoc, Hd.
  destruct (d' ++ [x]) as [|y l] eqn:E; [reflexivity|].
  rewrite Hn. apply bool_decide_eq_true_2. eauto.
Qed.

Lemma os_mkdir_creates (fs : filesystem) (d : path) (c : string) :
  lookup_dir fs [] d = Ok true -> nodes fs !! (d ++ [c]) = None ->
  os_mkdir (d ++ [c]) fs = (Ok (), set_node (d ++ [c]) (Dir true) fs).
Proof.
  intros Hd Hn. unfold os_mkdir. rewrite dirname_snoc, Hd, Hn.
  destruct (d ++ [c]) eqn:E; [by apply snoc_not_nil in E|]. reflexivity.
Qed.

Lemma os_mkdir_exists (fs : filesystem) (d : path) (c : string) (w : bool) (n : node) :
  lookup_dir fs [] d = Ok w -> nodes fs !! (d ++ [c]) = Some n ->
  os_mkdir (d ++ [c]) fs = (Raise FileExistsError, fs).
Proof.
  intros Hd Hn. unfold os_mkdir. rewrite dirname_snoc, Hd, Hn.
  destruct (d ++ [c]) eqn:E; [by apply snoc_not_nil in E|]. reflexivity.
Qed.

(** [os.makedirs] creates every missing directory below position [e] of
    [d], given that the first [e] components name a writable directory. *)
Lemma makedirs_rev_creates (e : nat) (d : path) (fs : filesystem) :
  (e < length d)%nat ->
  lookup_dir fs [] (take e d) = Ok true ->
  (forall i, (e < i <= length d)%nat -> nodes fs !! take i d = None) ->
  exists fs',
    makedirs_rev (rev d) fs = (Ok (), fs') /\
    free_space fs' = free_space fs /\ calls fs' = calls fs /\
    lookup_dir fs' [] d = Ok true /\
    (forall i, (e < i <= length d)%nat -> nodes fs' !! take i d = Some (Dir true)) /\
    (forall p, (forall i, (e < i <= length d)%nat -> p <> take i d) ->
       nodes fs' !! p = nodes fs !! p).
Proof.
  revert fs. induction d as [|c d IH] using rev_ind; intros fs He Hex Hmiss.
  { simpl in He. lia. }
  pose proof (length_app d [c]) as Hlen. simpl in Hlen.
  rewrite rev_unit. simpl. rewrite rev_involutive.
  assert (Hstep : exists fs1,
    (if negb (bool_decide (d = [])) && negb (path_exists fs d)
     then match makedirs_rev (rev d) fs with
          | (Raise FileExistsError, fs') => (Ok (), fs')
          | other => other
          end
     else (Ok (), fs)) = (Ok (), fs1) /\
    free_space fs1 = free_space fs /\ calls fs1 = calls fs /\
    lookup_dir fs1 [] d = Ok true /\
    (forall i, (e < i <= length d)%nat -> nodes fs1 !! take i d = Some (Dir true)) /\
    (forall p, (forall i, (e < i <= length d)%nat -> p <> take i d) ->
       nodes fs1 !! p = nodes fs !! p)).
  { destruct (decide (e = length d)) as [->|Hne].
    - rewrite take_app_length in Hex.
      exists fs. rewrite (lookup_dir_Ok_path_exists _ _ _ Hex), andb_false_r.
      repeat split; try done. intros i Hi. lia.
    - assert (Hed : (e < length d)%nat) by lia.
      destruct (IH fs Hed) as (fs1 & Hm & Hfree & Hcalls & Hl & Hnew & Hold).
      { by rewrite take_app_le in Hex by lia. }
      { intros i Hi. specialize (Hmiss i). rewrite take_app_le in Hmiss by lia.
        apply Hmiss. lia. }
      exists fs1.
      assert (Hd : d <> []) by (intros ->; simpl in Hed; lia).
      rewrite bool_decide_eq_false_2 by done.
      assert (Hpe : path_exists fs d = false).
      { specialize (Hmiss (length d)). rewrite take_app_length in Hmiss.
        unfold path_exists. destruct d as [|x l] eqn:E; [done|]. rewrite <- E in *.
        destruct (lookup_dir fs [] (dirname d)); [|reflexivity].
        rewrite Hmiss by lia. apply bool_decide_eq_false_2. by intros [? ?]. }
      rewrite Hpe, Hm. simpl. repeat split; assumption. }
  destruct Hstep as (fs1 & -> & Hfree & Hcalls & Hl & Hnew & Hold).
  assert (Hnone : nodes fs1 !! (d ++ [c]) = None).
  { rewrite Hold.
    - specialize (Hmiss (length d + 1)%nat). rewrite firstn_all2 in Hmiss
        by (rewrite length_app; simpl; lia). apply Hmiss. lia.
    - intros i Hi E. apply (f_equal length) in E.
      rewrite length_app, length_take in E. simpl in E. lia. }
  rewrite (os_mkdir_creates _ _ _ Hl Hnone).
  eexists. split; [reflexivity|]. simpl. split; [exact Hfree|]. split; [exact Hcalls|].
  split; [|split].
  - rewrite lookup_dir_snoc, lookup_dir_set_node_longer, Hl
      by (rewrite length_app; simpl; lia).
    simpl. rewrite stat_snoc. simpl. by rewrite lookup_insert_eq.
  - intros i Hi. destruct (decide (i = length d + 1)%nat) as [->|Hi'].
    + rewrite firstn_all2 by (rewrite length_app; simpl; lia).
      by rewrite lookup_insert_eq.
    + rewrite take_app_le by lia. rewrite lookup_insert_ne.
      * apply Hnew. lia.
      * intros E. apply (f_equal length) in E.
        rewrite length_app, length_take in E. simpl in E. lia.
  - intros p Hp. rewrite lookup_insert_ne.
    + apply Hold. intros i Hi. specialize (Hp i). rewrite take_app_le in Hp by lia.
      apply Hp. lia.
    + specialize (Hp (length d + 1)%nat). rewrite firstn_all2 in Hp
        by (rewrite length_app; simpl; lia).
      intros E. apply Hp; [lia | done].
Qed.

(** ** The writer *)

Lemma write_file_missing_dir (data : DataFrame) (p : path) (fs : filesystem) (e : exn) :
  p <> [] -> lookup_dir fs [] (dirname p) = Raise e ->
  write_file data p fs = (Raise e, fs).
Proof.
  intros Hp Hd. unfold write_file. destruct p; [done|]. by rewrite Hd.
Qed.

Lemma write_file_new (data : DataFrame) (p : path) (fs : filesystem) :
  p <> [] -> lookup_dir fs [] (dirname p) = Ok true -> nodes fs !! p = None ->
  (csv_size data <= free_space fs)%nat ->
  write_file data p fs
  = (Ok (), use_space (csv_size data) (set_node p (File true (Some data)) fs)).
Proof.
  intros Hp Hd Hn Hs. unfold write_file. destruct p; [done|]. rewrite Hd, Hn.
  apply Nat.leb_le in Hs. by rewrite Hs.
Qed.

(** A write touches no node above the file it writes, and logs nothing by
    itself. *)
Lemma write_file_frame (data : DataFrame) (p : path) (fs fs0 : filesystem)
    (r : result unit) :
  write_file data p fs = (r, fs0) ->
  calls fs0 = calls fs /\
  forall q, q <> p -> nodes fs0 !! q = nodes fs !! q.
Proof.
  unfold write_file. intros H.
  destruct p as [|c p']; [injection H as <- <-; done|].
  destruct (lookup_dir fs [] (dirname (c :: p'))) as [w|e]; [|injection H as <- <-; done].
  assert (Hw : forall fs1 r1 fs2,
    (if (csv_size data <=? free_space fs1)%nat
     then (Ok (), use_space (csv_size data)
                    (set_node (c :: p') (File true (Some data)) fs1))
     else (Raise DiskFullError, set_node (c :: p') (File true None) fs1)) = (r1, fs2) ->
    calls fs2 = calls fs1 /\ forall q, q <> c :: p' -> nodes fs2 !! q = nodes fs1 !! q).
  { intros fs1 r1 fs2 Hw. destruct (csv_size data <=? free_space fs1)%nat;
      injection Hw as <- <-; simpl; (split; [reflexivity|]);
      intros q Hq; by rewrite lookup_insert_ne. }
  destruct (nodes fs !! (c :: p')) as [[w'|[|] content]|].
  - injection H as <- <-; done.
  - by apply Hw in H.
  - injection H as <- <-; done.
  - destruct w; [by apply Hw in H | injection H as <- <-; done].
Qed.

Lemma dirname_length (p : path) : p <> [] -> length p = S (length (dirname p)).
Proof.
  destruct p as [|c p] using rev_ind; [done|]. intros _.
  rewrite dirname_snoc, length_app. simpl. lia.
Qed.

(** The block's first write finds the directory missing; [os.makedirs]
    creates it with every missing ancestor; the one retry writes the
    file. *)
Lemma write_output_creates_directory (data : DataFrame) (out_file : path) (e : nat)
    (fs : filesystem) :
  out_file <> [] ->
  (e < length (dirname out_file))%nat ->
  lookup_dir fs [] (take e (dirname out_file)) = Ok true ->
  (forall i, (e < i <= length out_file)%nat -> nodes fs !! take i out_file = None) ->
  (csv_size data <= free_space fs)%nat ->
  exists fs',
    write_output data out_file fs = (Ok (), fs') /\
    calls fs' = calls fs ++
      [call_to_csv out_file (Raise FileNotFoundError);
       call_makedirs (dirname out_file) (Ok ());
       call_to_csv out_file (Ok ())] /\
    nodes fs' !! out_file = Some (File true (Some data)) /\
    (forall i, (e < i <= length (dirname out_file))%nat ->
       nodes fs' !! take i (dirname out_file) = Some (Dir true)) /\
    (forall p, (forall i, (e < i <= length out_file)%nat -> p <> take i out_file) ->
       nodes fs' !! p = nodes fs !! p) /\
    lookup_dir fs' [] (dirname out_file) = Ok true /\
    free_space fs' = (free_space fs - csv_size data)%nat.
Proof.
  intros Hne. destruct out_file as [|name d _] using rev_ind; [done|].
  rewrite dirname_snoc. intros He Hex Hmiss Hsize.
  pose proof (length_app d [name]) as Hlen. simpl in Hlen.
  assert (Hdirs : forall i, (e < i <= length d)%nat -> nodes fs !! take i d = None).
  { intros i Hi. specialize (Hmiss i). rewrite take_app_le in Hmiss by lia.
    apply Hmiss. lia. }
  assert (Hfile : nodes fs !! (d ++ [name]) = None).
  { specialize (Hmiss (length d + 1)%nat). rewrite firstn_all2 in Hmiss by lia.
    apply Hmiss. lia. }
  (* the first write *)
  assert (Hfirst : lookup_dir fs [] d = Raise FileNotFoundError).
  { destruct (lookup_lt_is_Some_2 d e He) as [c Hc].
    rewrite <- (take_drop (S e) d). apply lookup_dir_app_raise.
    rewrite (take_S_r _ _ _ Hc), lookup_dir_snoc, Hex. cbn [app].
    rewrite stat_snoc, <- (take_S_r _ _ _ Hc), Hdirs; [reflexivity|].
    split; [lia|]. by apply Nat.le_succ_l. }
  unfold write_output, to_csv at 1.
  rewrite write_file_missing_dir with (e := FileNotFoundError)
    by (by rewrite ?dirname_snoc).
  rewrite dirname_snoc.
  (* the directories *)
  set (fs1 := log (call_to_csv (d ++ [name]) (Raise FileNotFoundError)) fs).
  destruct (makedirs_rev_creates e d fs1 He) as (fs2 & Hm & Hfree & Hcalls & Hl & Hnew & Hold).
  { unfold fs1. by rewrite lookup_dir_log. }
  { exact Hdirs. }
  unfold os_makedirs. rewrite Hm.
  (* the retry *)
  set (fs3 := log (call_makedirs d (Ok ())) fs2).
  assert (Hnone : nodes fs3 !! (d ++ [name]) = None).
  { simpl. rewrite Hold; [exact Hfile|]. intros i Hi E.
    apply (f_equal length) in E. rewrite length_take in E. lia. }
  unfold to_csv. rewrite write_file_new.
  - eexists. split; [reflexivity|]. simpl. rewrite Hcalls. simpl.
    split; [by rewrite <- !app_assoc|].
    split; [by rewrite lookup_insert_eq|]. split; [|split; [|split]].
    + intros i Hi. rewrite lookup_insert_ne; [by apply Hnew|].
      intros E. apply (f_equal length) in E. rewrite length_take in E. lia.
    + intros p Hp. rewrite lookup_insert_ne.
      * apply Hold. intros i Hi. specialize (Hp i). rewrite take_app_le in Hp by lia.
        apply Hp. lia.
      * specialize (Hp (length d + 1)%nat). rewrite firstn_all2 in Hp by lia.
        intros E. apply Hp; [lia | done].
    + rewrite lookup_dir_log, lookup_dir_use_space, lookup_dir_set_node_longer by lia.
      unfold fs3. by rewrite lookup_dir_log.
    + by rewrite Hfree.
  - apply snoc_not_nil.
  - rewrite dirname_snoc. unfold fs3. by rewrite lookup_dir_log.
  - exact Hnone.
  - simpl. by rewrite Hfree.
Qed.

(** C3. When a block's first write fails because the destination
    directory is missing, the directory is created with all its missing
    ancestors, the write is retried once, and the block ends normally with
    the table in the file: the calls made are the failed write, the
    directory creation and one successful write.  [main] runs this block
    for each of its three tables. *)
Theorem missing_directory_is_created (data : DataFrame) (out_file : path) (e : nat)
    (fs : filesystem) :
  out_file <> [] ->
  (e < length (dirname out_file))%nat ->
  lookup_dir fs [] (take e (dirname out_file)) = Ok true ->
  (forall i, (e < i <= length out_file)%nat -> nodes fs !! take i out_file = None) ->
  (csv_size data <= free_space fs)%nat ->
  exists fs',
    write_output data out_file fs = (Ok (), fs') /\
    calls fs' = calls fs ++
      [call_to_csv out_file (Raise FileNotFoundError);
       call_makedirs (dirname out_file) (Ok ());
       call_to_csv out_file (Ok ())] /\
    nodes fs' !! out_file = Some (File true (Some data)) /\
    (forall i, (e < i <= length (dirname out_file))%nat ->
       nodes fs' !! take i (dirname out_file) = Some (Dir true)) /\
    (forall p, (forall i, (e < i <= length out_file)%nat -> p <> take i out_file) ->
       nodes fs' !! p = nodes fs !! p).
Proof.
  intros Hne He Hex Hmiss Hsize.
  destruct (write_output_creates_directory data out_file e fs Hne He Hex Hmiss Hsize)
    as (fs' & H1 & H2 & H3 & H4 & H5 & _).
  exists fs'. repeat split; assumption.
Qed.

Lemma write_output_direct (data : DataFrame) (p : path) (fs : filesystem) :
  p <> [] -> lookup_dir fs [] (dirname p) = Ok true -> nodes fs !! p = None ->
  (csv_size data <= free_space fs)%nat ->
  write_output data p fs
  = (Ok (), log (call_to_csv p (Ok ()))
              (use_space (csv_size data) (set_node p (File true (Some data)) fs))).
Proof.
  intros Hp Hd Hn Hs. unfold write_output, to_csv. by rewrite write_file_new.
Qed.

Lemma snoc_inj_ne (d : path) (a b : string) : a <> b -> d ++ [a] <> d ++ [b].
Proof. intros Hab E. apply app_inv_head in E. congruence. Qed.

(** The whole run into one fresh directory: the first block creates it,
    the other two write at once. *)
Lemma write_tables_fresh_directory (t : tables) (d : path) (n1 n2 n3 : string) (e : nat)
    (fs : filesystem) :
  (e < length d)%nat ->
  lookup_dir fs [] (take e d) = Ok true ->
  (forall i, (e < i <= length d)%nat -> nodes fs !! take i d = None) ->
  nodes fs !! (d ++ [n1]) = None ->
  nodes fs !! (d ++ [n2]) = None ->
  nodes fs !! (d ++ [n3]) = None ->
  n1 <> n2 -> n1 <> n3 -> n2 <> n3 ->
  (csv_size (scores_df t) + csv_size (test_set_score t) + csv_size (feature_table_df t)
   <= free_space fs)%nat ->
  exists fs',
    write_tables t (d ++ [n1]) (d ++ [n2]) (d ++ [n3]) fs = (Ok (), fs') /\
    nodes fs' !! (d ++ [n1]) = Some (File true (Some (scores_df t))) /\
    nodes fs' !! (d ++ [n2]) = Some (File true (Some (test_set_score t))) /\
    nodes fs' !! (d ++ [n3]) = Some (File true (Some (feature_table_df t))) /\
    calls fs' = calls fs ++
      [call_to_csv (d ++ [n1]) (Raise FileNotFoundError);
       call_makedirs d (Ok ());
       call_to_csv (d ++ [n1]) (Ok ());
       call_to_csv (d ++ [n2]) (Ok ());
       call_to_csv (d ++ [n3]) (Ok ())].
Proof.
  intros He Hex Hdirs H1 H2 H3 H12 H13 H23 Hsize.
  pose proof (length_app d [n1]) as Hlen. simpl in Hlen.
  destruct (write_output_creates_directory (scores_df t) (d ++ [n1]) e fs)
    as (fsa & Ha & Hca & Hna & _ & Holda & Hla & Hfa).
  { apply snoc_not_nil. }
  { by rewrite dirname_snoc. }
  { by rewrite dirname_snoc. }
  { intros i Hi. destruct (decide (i = length d + 1)%nat) as [->|Hi'].
    - by rewrite firstn_all2 by lia.
    - rewrite take_app_le by lia. apply Hdirs. lia. }
  { lia. }
  rewrite dirname_snoc in Hca, Hla.
  assert (Hother : forall n, n1 <> n -> nodes fsa !! (d ++ [n]) = nodes fs !! (d ++ [n])).
  { intros n Hn. apply Holda. intros i Hi E.
    destruct (decide (i = length d + 1)%nat) as [->|Hi'].
    - rewrite firstn_all2 in E by lia. by apply snoc_inj_ne in E.
    - apply (f_equal length) in E. rewrite length_app, length_take in E. simpl in E. lia. }
  unfold write_tables. rewrite Ha.
  rewrite write_output_direct; cycle 1.
  { apply snoc_not_nil. }
  { by rewrite dirname_snoc. }
  { by rewrite Hother. }
  { lia. }
  rewrite write_output_direct; cycle 1.
  { apply snoc_not_nil. }
  { rewrite dirname_snoc, lookup_dir_log, lookup_dir_use_space,
      lookup_dir_set_node_longer; [exact Hla|].
    rewrite length_app. simpl. lia. }
  { simpl. rewrite lookup_insert_ne by (by apply snoc_inj_ne). by rewrite Hother. }
  { simpl. lia. }
  eexists. split; [reflexivity|]. simpl.
  split; [|split; [|split]].
  - rewrite !lookup_insert_ne by (apply snoc_inj_ne; congruence). exact Hna.
  - rewrite lookup_insert_ne by (apply snoc_inj_ne; congruence).
    by rewrite lookup_insert_eq.
  - by rewrite lookup_insert_eq.
  - rewrite Hca, <- !app_assoc. reflexivity.
Qed.

Lemma path_exists_inv (fs : filesystem) (d0 : path) (c : string) :
  path_exists fs (d0 ++ [c]) = true ->
  exists w n, lookup_dir fs [] d0 = Ok w /\ nodes fs !! (d0 ++ [c]) = Some n.
Proof.
  unfold path_exists. rewrite dirname_snoc.
  destruct (d0 ++ [c]) as [|y l] eqn:E; [by apply snoc_not_nil in E|].
  destruct (lookup_dir fs [] d0) as [w|e]; [|discriminate].
  intros H. apply bool_decide_eq_true_1 in H as [n Hn]. eauto.
Qed.

(** What the handler does once a write has failed although the
    destination directory is there: [os.makedirs] refuses the existing
    directory and its error ends the block; the write is not retried. *)
Lemma write_output_directory_present (data : DataFrame) (out_file : path)
    (fs fs1 : filesystem) (e : exn) :
  to_csv data out_file fs = (Raise e, fs1) ->
  path_exists fs (dirname out_file) = true ->
  exists e' fs',
    write_output data out_file fs = (Raise e', fs') /\
    e' = (if bool_decide (dirname out_file = []) then FileNotFoundError
          else FileExistsError) /\
    calls fs' = calls fs ++
      [call_to_csv out_file (Raise e); call_makedirs (dirname out_file) (Raise e')].
Proof.
  intros Hw Hpe. unfold write_output. rewrite Hw.
  unfold to_csv in Hw. destruct (write_file data out_file fs) as [r fs0] eqn:Hwf.
  injection Hw as -> <-.
  destruct (write_file_frame _ _ _ _ _ Hwf) as [Hcalls Hnodes].
  unfold os_makedirs.
  destruct (dirname out_file) as [|c d0 _] eqn:Hd using rev_ind.
  - simpl. eexists _, _. split; [reflexivity|]. split; [reflexivity|].
    simpl. by rewrite Hcalls, <- app_assoc.
  - assert (Hne : out_file <> []).
    { intros ->. simpl in Hd. symmetry in Hd. by apply snoc_not_nil in Hd. }
    pose proof (dirname_length out_file Hne) as Hlen.
    rewrite Hd, length_app in Hlen. simpl in Hlen.
    apply path_exists_inv in Hpe as (w & n & Hl & Hn).
    set (fs1 := log (call_to_csv out_file (Raise e)) fs0).
    assert (Hstat : forall q, (length q < length out_file)%nat -> stat fs1 q = stat fs q).
    { intros q Hq. unfold fs1. rewrite stat_log. destruct q as [|x q']; [reflexivity|].
      simpl. apply Hnodes. intros E. rewrite E in Hq. lia. }
    assert (Hl1 : lookup_dir fs1 [] d0 = Ok w).
    { rewrite <- Hl. apply lookup_dir_ext. intros j Hj. simpl. apply Hstat.
      rewrite length_take. lia. }
    assert (Hn1 : nodes fs1 !! (d0 ++ [c]) = Some n).
    { rewrite <- Hn, <- !stat_snoc. apply Hstat. rewrite length_app. simpl. lia. }
    rewrite rev_unit. simpl. rewrite rev_involutive.
    rewrite (lookup_dir_Ok_path_exists _ _ _ Hl1), andb_false_r.
    rewrite (os_mkdir_exists _ _ _ _ _ Hl1 Hn1).
    eexists _, _. split; [reflexivity|]. split.
    + rewrite bool_decide_eq_false_2; [reflexivity | apply snoc_not_nil].
    + simpl. by rewrite Hcalls, <- app_assoc.
Qed.

(** C4, refuted. With the destination directory in place, a write that
    fails for lack of permission or of disk space is caught as well: the
    handler calls [os.makedirs], and the caller sees its FileExistsError
    instead of the error of the write. *)
Lemma other_write_failure_counterexample :
  let out_file := ["results"; "cv_scores.csv"] in
  (path_exists readonly_target (dirname out_file) = true /\
   (to_csv one_row_table out_file readonly_target).1 = Raise PermissionError /\
   (write_output one_row_table out_file readonly_target).1 = Raise FileExistsError /\
   calls (write_output one_row_table out_file readonly_target).2
   = [call_to_csv out_file (Raise PermissionError);
      call_makedirs ["results"] (Raise FileExistsError)]) /\
  (path_exists full_disk (dirname out_file) = true /\
   (to_csv one_row_table out_file full_disk).1 = Raise DiskFullError /\
   (write_output one_row_table out_file full_disk).1 = Raise FileExistsError /\
   calls (write_output one_row_table out_file full_disk).2
   = [call_to_csv out_file (Raise DiskFullError);
      call_makedirs ["results"] (Raise FileExistsError)]).
Proof. vm_compute. repeat split. Qed.

(** C4, amended. A write failure whose cause is not an absent destination
    directory gets the same handling as any other: the handler calls
    [os.makedirs] on the directory, which is there, and the error of that
    call (FileExistsError; FileNotFoundError when the path has no directory
    part) is what reaches the caller; the write is not retried. *)
Theorem other_write_failure_ends_in_makedirs_error (data : DataFrame) (out_file : path)
    (fs fs1 : filesystem) (e : exn) :
  to_csv data out_file fs = (Raise e, fs1) ->
  path_exists fs (dirname out_file) = true ->
  exists e' fs',
    write_output data out_file fs = (Raise e', fs') /\
    e' = (if bool_decide (dirname out_file = []) then FileNotFoundError
          else FileExistsError) /\
    calls fs' = calls fs ++
      [call_to_csv out_file (Raise e); call_makedirs (dirname out_file) (Raise e')].
Proof. apply write_output_directory_present. Qed.

Lemma other_write_failure_ends_in_makedirs_error_witness :
  exists e' fs',
    write_output one_row_table ["results"; "cv_scores.csv"] readonly_target
      = (Raise e', fs') /\
    e' = (if bool_decide (dirname ["results"; "cv_scores.csv"] = [])
          then FileNotFoundError else FileExistsError) /\
    calls fs' = calls readonly_target ++
      [call_to_csv ["results"; "cv_scores.csv"] (Raise PermissionError);
       call_makedirs (dirname ["results"; "cv_scores.csv"]) (Raise e')].
Proof.
  apply (other_write_failure_ends_in_makedirs_error one_row_table
           ["results"; "cv_scores.csv"] readonly_target
           (to_csv one_row_table ["results"; "cv_scores.csv"] readonly_target).2
           PermissionError).
  - vm_compute. reflexivity.
  - vm_compute. reflexivity.
Defined.

Lemma missing_directory_is_created_witness :
  exists fs',
    write_output one_row_table ["results"; "tables"; "cv_scores.csv"] empty_disk
      = (Ok (), fs') /\
    calls fs' = calls empty_disk ++
      [call_to_csv ["results"; "tables"; "cv_scores.csv"] (Raise FileNotFoundError);
       call_makedirs (dirname ["results"; "tables"; "cv_scores.csv"]) (Ok ());
       call_to_csv ["results"; "tables"; "cv_scores.csv"] (Ok ())] /\
    nodes fs' !! ["results"; "tables"; "cv_scores.csv"]
      = Some (File true (Some one_row_table)) /\
    (forall i, (0 < i <= length (dirname ["results"; "tables"; "cv_scores.csv"]))%nat ->
       nodes fs' !! take i (dirname ["results"; "tables"; "cv_scores.csv"])
       = Some (Dir true)) /\
    (forall p,
       (forall i, (0 < i <= length ["results"; "tables"; "cv_scores.csv"])%nat ->
          p <> take i ["results"; "tables"; "cv_scores.csv"]) ->
       nodes fs' !! p = nodes empty_disk !! p).
Proof.
  apply (missing_directory_is_created one_row_table
           ["results"; "tables"; "cv_scores.csv"] 0 empty_disk).
  - discriminate.
  - simpl. lia.
  - reflexivity.
  - intros i _. apply lookup_empty.
  - vm_compute. lia.
Defined.


Lemma sample_train_encodable_10 : cv_encodable sample_train 10.
Proof. apply (bool_decide_unpack _). vm_compute. exact I. Qed.

Lemma sample_train_encodable_5 : cv_encodable sample_train 5.
Proof. apply (bool_decide_unpack _). vm_compute. exact I. Qed.

Lemma sample_test_binary_known (h : house) : h ∈ sample_test -> binary_known sample_train h.
Proof.
  intros Hh. assert (H : Forall (binary_known sample_train) sample_test).
  { apply (bool_decide_unpack _). vm_compute. exact I. }
  rewrite Forall_forall in H. by apply H.
Qed.

Lemma sample_pipeline_fitted :
  ridgecv_fit sample_ridge_solve sample_ridge_error sample_train = Ok sample_pipeline.
Proof. vm_compute. reflexivity. Qed.

Lemma sample_train_20_encodable_10 : cv_encodable sample_train_20 10.
Proof. apply (bool_decide_unpack _). vm_compute. exact I. Qed.

Lemma sample_train_20_encodable_5 : cv_encodable sample_train_20 5.
Proof. apply (bool_decide_unpack _). vm_compute. exact I. Qed.

Lemma cross_validation_folds_witness :
  exists d r f x : list fold_scores,
    (length d = 5%nat /\ length r = 10%nat /\ length f = 5%nat /\ length x = 5%nat) /\
    dummy_scores sample_elapsed sample_train_20 = Ok (scores_dict d) /\
    ridgecv_scores sample_ridge_solve sample_ridge_error sample_elapsed sample_train_20
      = Ok (scores_dict r) /\
    concat (map (fun i => (fold_indices 20 10 i).2) (seq 0 10)) = seq 0 20 /\
    forall rs, rs ∈ [d; r; f; x] ->
      exists te tr : list Q,
        map fs_test_score rs = map Finite te /\ map fs_train_score rs = map Finite tr.
Proof.
  destruct (cross_validation_folds sample_ridge_solve sample_ridge_error
              sample_ensemble sample_ensemble sample_elapsed sample_train_20)
    as (d & r & f & x & Hlen & (Hd & Hr & _) & Hsplit & _ & _ & Hfin).
  - simpl. lia.
  - apply sample_train_20_encodable_10.
  - apply sample_train_20_encodable_5.
  - exists d, r, f, x. split; [exact Hlen|]. split; [exact Hd|]. split; [exact Hr|].
    split; [exact (proj1 (Hsplit 10%nat (or_intror eq_refl)))|].
    intros rs Hin.
    destruct (Hfin ltac:(simpl; lia) rs Hin) as (te & tr & Hte & Htr & _).
    by exists te, tr.
Defined.

Lemma cv_scores_table_witness :
  exists df,
    build_scores_df sample_ridge_solve sample_ridge_error sample_ensemble sample_ensemble
                    sample_elapsed sample_train_20 = Ok df /\
    header df = ["index"; "dummy_score"; "ridgecv_score"; "random_forest"; "XGB_Regression"] /\
    n_rows df = 4%nat /\
    forall j name col, columns df !! S j = Some (name, col) ->
      forall c, c ∈ col -> exists x, c = Num x /\ has_decimals 4 x.
Proof.
  destruct (cv_scores_table sample_ridge_solve sample_ridge_error
              sample_ensemble sample_ensemble sample_elapsed sample_train_20)
    as (df & Hdf & Hh & Hn & _ & Hcells).
  - simpl. lia.
  - apply sample_train_20_encodable_10.
  - apply sample_train_20_encodable_5.
  - exists df. split; [exact Hdf|]. split; [exact Hh|]. split; [exact Hn|].
    intros j name col Hj. destruct (Hcells j name col Hj) as (_ & _ & Hnum).
    apply Hnum. simpl. lia.
Defined.

Lemma unseen_category_all_zero_witness :
  ohe_transform (pipeline_1 sample_pipeline.1)
                (map impute_str (categorical_cells
                   (mk_house (Some "Duplex") "Y" "N" "N" "Y" 18 1600 53 (-113) 450000)))
    = Ok (replicate (n_distinct (bldg_desc sample_train)) 0) /\
  exists df, build_test_set_score sample_pipeline sample_test = Ok df.
Proof.
  destruct (unseen_category_all_zero sample_ridge_solve sample_ridge_error
              sample_train sample_test sample_pipeline
              (mk_house (Some "Duplex") "Y" "N" "N" "Y" 18 1600 53 (-113) 450000))
    as (Hzero & _ & Hscore).
  - apply sample_pipeline_fitted.
  - apply sample_test_binary_known.
  - apply elem_of_cons. left. reflexivity.
  - apply (bool_decide_unpack _). vm_compute. exact I.
  - split; [exact Hzero | exact Hscore].
Defined.

Lemma coefficient_table_row_count_witness :
  exists pm t,
    ridgecv_fit sample_ridge_solve sample_ridge_error sample_train = Ok pm /\
    build_feature_table pm = Ok t /\
    length t = (n_distinct (bldg_desc sample_train) + 4 + 4)%nat.
Proof.
  apply (coefficient_table_row_count sample_ridge_solve sample_ridge_error
           sample_ensemble sample_ensemble sample_elapsed sample_train).
  - intros a X y. apply length_replicate.
  - discriminate.
  - vm_compute. reflexivity.
  - vm_compute. reflexivity.
  - vm_compute. reflexivity.
  - vm_compute. reflexivity.
Defined.

(** * Further properties *)

(** ** Rounding error *)



(** ** The feature column *)

Lemma take_at_seq_app {A} (k l : list A) :
  take_at (k ++ l) (seq (length k) (length l)) = l.
Proof.
  revert k. induction l as [|x l IH]; intros k; [reflexivity|].
  simpl seq. rewrite take_at_cons, lookup_app_r, Nat.sub_diag by lia. simpl.
  f_equal. specialize (IH (k ++ [x])).
  rewrite <- app_assoc, length_app in IH. simpl in IH.
  by rewrite Nat.add_1_r in IH.
Qed.

Lemma take_at_seq {A} (l : list A) : take_at l (seq 0 (length l)) = l.
Proof. apply (take_at_seq_app [] l). Qed.

Lemma feature_zip_with (fs : list string) (cs : list Q) :
  length fs = length cs -> map feature (zip_with Build_feature_row fs cs) = fs.
Proof.
  revert cs. induction fs as [|x fs IH]; intros [|c cs] Hl; simpl in *; try discriminate.
  - reflexivity.
  - f_equal. apply IH. lia.
Qed.

Lemma feature_table_features (features : list string) (coef : list Q)
    (inds : list nat) (t : list feature_row) :
  feature_table features coef inds = Ok t ->
  map feature t = take_at features inds.
Proof.
  unfold feature_table. intros H.
  apply bind_result_Ok in H as (fs & Hfs & H).
  apply bind_result_Ok in H as (cs & Hcs & [= <-]).
  apply map_result_getitem_inv in Hfs as [Hrf ->].
  apply map_result_getitem_inv in Hcs as [Hrc ->].
  destruct (take_at_in_range _ _ Hrf) as [Hlf _].
  destruct (take_at_in_range _ _ Hrc) as [Hlc _].
  apply feature_zip_with. congruence.
Qed.

(** X2. The feature column of the coefficient table lists every expanded
    feature exactly once: ranking permutes the features and neither drops
    nor repeats one. *)
Theorem feature_column_permutation (features : list string) (coef : list Q)
    (inds : list nat) (t : list feature_row) :
  is_argsort coef inds ->
  length features = length coef ->
  feature_table features coef inds = Ok t ->
  map feature t ≡ₚ features.
Proof.
  intros [Hp _] Hlen Ht. rewrite (feature_table_features _ _ _ _ Ht).
  unfold take_at. rewrite Hp, <- Hlen. fold (take_at features (seq 0 (length features))).
  by rewrite take_at_seq.
Qed.

Lemma feature_column_permutation_witness :
  map feature
      [ {| feature := "BLDG_FEET"; coefficient := np_round 2 (-1 # 1) |};
        {| feature := "LATITUDE"; coefficient := np_round 2 (2 # 1000) |};
        {| feature := "AGE"; coefficient := np_round 2 (3 # 1) |} ]
  ≡ₚ ["AGE"; "BLDG_FEET"; "LATITUDE"].
Proof.
  apply (feature_column_permutation ["AGE"; "BLDG_FEET"; "LATITUDE"]
           [3 # 1; -1 # 1; 2 # 1000] (np_argsort [3 # 1; -1 # 1; 2 # 1000])).
  - apply is_argsortb_sound. vm_compute. reflexivity.
  - reflexivity.
  - vm_compute. reflexivity.
Defined.

Lemma map_result_raise {A B} (f : A -> result B) (l : list A) (e : exn) :
  (forall x, x ∈ l -> (exists y, f x = Ok y) \/ f x = Raise e) ->
  (exists x, x ∈ l /\ f x = Raise e) ->
  map_result f l = Raise e.
Proof.
  induction l as [|x l IH]; intros Hall (z & Hz & Hfz).
  - by apply elem_of_nil in Hz.
  - simpl. destruct (Hall x) as [[y Hy]|Hx]; [apply elem_of_cons; by left| |].
    + rewrite Hy. simpl. rewrite IH; [reflexivity| |].
      * intros w Hw. apply Hall, elem_of_cons. by right.
      * apply elem_of_cons in Hz as [->|Hz]; [congruence|]. eauto.
    + by rewrite Hx.
Qed.



(** ** The expanded feature space *)

Lemma encoded_width_if_binary (cats : list string) :
  encoded_width drop_if_binary cats
  = if (length cats =? 2)%nat then 1%nat else length cats.
Proof.
  unfold encoded_width, drop_idx. destruct (length cats =? 2)%nat eqn:E; [|reflexivity].
  apply Nat.eqb_eq in E. destruct cats as [|a [|b [|c cats]]]; try discriminate.
  reflexivity.
Qed.

Lemma encoded_width_binary_width (col : list string) :
  encoded_width drop_if_binary (np_unique col) = binary_width col.
Proof.
  rewrite encoded_width_if_binary. unfold binary_width. by rewrite np_unique_length.
Qed.

(** X4. Whatever the train set, the expanded feature space has one
    feature per distinct (imputed) building description, then for each
    binary column one feature when it shows two values and otherwise one
    per value (so a constant column keeps its single indicator), then the
    four numerical features; every transformed row has that width. *)
Theorem expanded_feature_count (train : list house) :
  length (expanded_features (preprocessor_fit train))
  = (n_distinct (bldg_desc train)
     + (binary_width (column GARAGE train) + binary_width (column FIREPLACE train)
        + binary_width (column BASEMENT train) + binary_width (column BSMTDEVL train))
     + 4)%nat /\
  forall h x,
    preprocessor_transform (preprocessor_fit train) h = Ok x ->
    length x = length (expanded_features (preprocessor_fit train)).
Proof.
  split.
  - rewrite expanded_features_length, !encoded_width_binary_width.
    unfold encoded_width. simpl. by rewrite np_unique_length.
  - apply preprocessor_transform_length.
Qed.

Lemma np_unique_two (col : list string) :
  n_distinct col = 2%nat ->
  exists c0 c1, np_unique col = [c0; c1] /\ str_lt c0 c1.
Proof.
  intros H. rewrite <- np_unique_length in H.
  pose proof (np_unique_sorted col) as Hs.
  destruct (np_unique col) as [|c0 [|c1 [|c2 l]]]; try discriminate.
  exists c0, c1. split; [reflexivity|].
  inversion Hs as [|? ? _ Hall]; subst. by inversion Hall.
Qed.

(** X5. A binary column with two values keeps the indicator of the value
    that sorts last: that value encodes as 1, the other as 0, and the
    feature is named after the value that sorts last. *)
Theorem binary_indicator_of_last_value (hu : unknown_policy) (name : string)
    (col : list string) :
  n_distinct col = 2%nat ->
  exists c0 c1,
    np_unique col = [c0; c1] /\ str_lt c0 c1 /\
    ohe_transform (ohe_fit hu drop_if_binary [col]) [c0] = Ok [0] /\
    ohe_transform (ohe_fit hu drop_if_binary [col]) [c1] = Ok [1] /\
    get_feature_names (ohe_fit hu drop_if_binary [col]) [name] = [name +:+ "_" +:+ c1].
Proof.
  intros H. destruct (np_unique_two col H) as (c0 & c1 & Hu & Hlt).
  exists c0, c1. split; [exact Hu|]. split; [exact Hlt|].
  assert (Hne : c0 <> c1) by (intros ->; by apply str_lt_irrefl in Hlt).
  unfold ohe_transform, get_feature_names. simpl. rewrite Hu.
  rewrite !ohe_cell_known by (rewrite !elem_of_cons; tauto). simpl.
  rewrite !String.eqb_refl.
  assert (E1 : String.eqb c1 c0 = false) by (apply String.eqb_neq; congruence).
  by rewrite E1.
Qed.

Lemma binary_indicator_of_last_value_witness :
  exists c0 c1,
    np_unique (column GARAGE sample_train) = [c0; c1] /\ str_lt c0 c1 /\
    ohe_transform (ohe_fit unknown_error drop_if_binary [column GARAGE sample_train]) [c0]
      = Ok [0] /\
    ohe_transform (ohe_fit unknown_error drop_if_binary [column GARAGE sample_train]) [c1]
      = Ok [1] /\
    get_feature_names (ohe_fit unknown_error drop_if_binary [column GARAGE sample_train])
                      ["GARAGE"] = ["GARAGE" +:+ "_" +:+ c1].
Proof.
  apply (binary_indicator_of_last_value unknown_error "GARAGE" (column GARAGE sample_train)).
  vm_compute. reflexivity.
Defined.

Lemma indicator_absent (cats : list string) (x : string) :
  x ∉ cats -> indicator cats x = replicate (length cats) 0.
Proof.
  induction cats as [|c cats IH]; intros Hx; [reflexivity|].
  apply not_elem_of_cons in Hx as [Hne Hx]. simpl.
  assert (E : String.eqb c x = false) by (apply String.eqb_neq; congruence).
  rewrite E. f_equal. by apply IH.
Qed.

Lemma Qsum_zeros (k : nat) : Qsum (replicate k 0) == 0.
Proof. induction k as [|k IH]; simpl; [reflexivity|]. rewrite IH. ring. Qed.

Lemma indicator_sum (cats : list string) (x : string) :
  NoDup cats -> x ∈ cats -> Qsum (indicator cats x) == 1.
Proof.
  induction 1 as [|c cats Hc Hnd IH]; intros Hx; [by apply elem_of_nil in Hx|].
  simpl. destruct (String.eqb_spec c x) as [->|Hne].
  - fold (indicator cats x). rewrite (indicator_absent _ _ Hc), Qsum_zeros. ring.
  - apply elem_of_cons in Hx as [->|Hx]; [done|].
    fold (indicator cats x). rewrite (IH Hx). ring.
Qed.

Lemma indicator_bits (cats : list string) (x : string) :
  Forall (fun v => v = 0 \/ v = 1) (indicator cats x).
Proof.
  unfold indicator. apply Forall_forall. intros v Hv.
  apply list_elem_of_fmap in Hv as (c & -> & _). destruct (String.eqb c x); auto.
Qed.

(** X6. A building description that occurs in training is encoded as a
    proper one-hot block: as long as there are distinct descriptions, all
    zeros and ones, summing to one. *)
Theorem seen_category_one_hot (train : list house) (h : house) :
  impute_str (BLDG_DESC h) ∈ bldg_desc train ->
  exists c,
    ohe_transform (pipeline_1 (preprocessor_fit train))
                  (map impute_str (categorical_cells h)) = Ok c /\
    length c = n_distinct (bldg_desc train) /\
    Forall (fun v => v = 0 \/ v = 1) c /\
    Qsum c == 1.
Proof.
  intros Hx. unfold ohe_transform, categorical_cells. simpl.
  fold (bldg_desc train).
  rewrite ohe_cell_known by (by apply elem_of_np_unique). simpl.
  eexists. split; [reflexivity|]. rewrite app_nil_r. split; [|split].
  - unfold indicator. by rewrite length_map, np_unique_length.
  - apply indicator_bits.
  - apply indicator_sum; [apply np_unique_NoDup | by apply elem_of_np_unique].
Qed.

Lemma seen_category_one_hot_witness :
  exists c,
    ohe_transform (pipeline_1 (preprocessor_fit sample_train))
                  (map impute_str (categorical_cells
                     (mk_house (Some "Bungalow") "N" "N" "N" "N" 5 1500 53 (-113) 480000)))
      = Ok c /\
    length c = n_distinct (bldg_desc sample_train) /\
    Forall (fun v => v = 0 \/ v = 1) c /\
    Qsum c == 1.
Proof.
  apply (seen_category_one_hot sample_train
           (mk_house (Some "Bungalow") "N" "N" "N" "N" 5 1500 53 (-113) 480000)).
  apply (bool_decide_unpack _). vm_compute. exact I.
Defined.

Lemma ohe_cell_error (enc : OneHotEncoder) (cats : list string) (x : string) :
  handle_unknown enc = unknown_error -> x ∉ cats -> ohe_cell enc cats x = Raise ValueError.
Proof.
  intros Hu Hx. unfold ohe_cell. rewrite bool_decide_eq_false_2 by done. by rewrite Hu.
Qed.

Lemma preprocessor_transform_unknown (train : list house) (h : house) :
  ~ binary_known train h ->
  preprocessor_transform (preprocessor_fit train) h = Raise ValueError.
Proof.
  intros Hnot. unfold preprocessor_transform.
  destruct (categorical_transform_total train h) as [c ->]. simpl.
  unfold ohe_transform, binary_cells. simpl.
  destruct (decide (GARAGE h ∈ column GARAGE train)) as [H1|H1].
  2:{ rewrite ohe_cell_error; [reflexivity..|]. by rewrite elem_of_np_unique. }
  rewrite (ohe_cell_known _ _ (GARAGE h)) by (by apply elem_of_np_unique). simpl.
  destruct (decide (FIREPLACE h ∈ column FIREPLACE train)) as [H2|H2].
  2:{ rewrite ohe_cell_error; [reflexivity..|]. by rewrite elem_of_np_unique. }
  rewrite (ohe_cell_known _ _ (FIREPLACE h)) by (by apply elem_of_np_unique). simpl.
  destruct (decide (BASEMENT h ∈ column BASEMENT train)) as [H3|H3].
  2:{ rewrite ohe_cell_error; [reflexivity..|]. by rewrite elem_of_np_unique. }
  rewrite (ohe_cell_known _ _ (BASEMENT h)) by (by apply elem_of_np_unique). simpl.
  destruct (decide (BSMTDEVL h ∈ column BSMTDEVL train)) as [H4|H4].
  2:{ rewrite ohe_cell_error; [reflexivity..|]. by rewrite elem_of_np_unique. }
  exfalso. apply Hnot. by repeat split.
Qed.

(** X7. A test row with a binary value that training never showed makes
    the transform raise ValueError, and with it the scoring of the test
    set: unlike the categorical encoder, the binary one does not ignore
    unknown values. *)
Theorem unseen_binary_value_raises
    (ridge_solve : Q -> list (list Q) -> list Q -> list Q * Q)
    (ridge_error : Q -> list (list Q) -> list Q -> Q)
    (train test : list house) (pm : ColumnTransformer * RidgeCV) (h : house) :
  ridgecv_fit ridge_solve ridge_error train = Ok pm ->
  h ∈ test ->
  ~ binary_known train h ->
  preprocessor_transform pm.1 h = Raise ValueError /\
  ridgecv_predict pm h = Raise ValueError /\
  build_test_set_score pm test = Raise ValueError.
Proof.
  intros Hfit Hh Hnot.
  pose proof (ridgecv_fit_inv _ _ _ _ Hfit) as Hp.
  assert (Hraise : forall h', ~ binary_known train h' ->
                     ridgecv_predict pm h' = Raise ValueError).
  { intros h' Hn. unfold ridgecv_predict.
    by rewrite Hp, (preprocessor_transform_unknown train h' Hn). }
  split; [rewrite Hp; by apply preprocessor_transform_unknown|].
  split; [by apply Hraise|].
  unfold build_test_set_score, pipeline_predict.
  destruct test as [|h0 test0] eqn:Etest; [reflexivity|]. rewrite <- Etest in *.
  rewrite (map_result_raise (ridgecv_predict pm) test ValueError); [reflexivity| |].
  - intros h' _. destruct (decide (binary_known train h')) as [Hk|Hk].
    + left. unfold ridgecv_predict. rewrite Hp.
      destruct (preprocessor_transform_known train h' Hk) as [x ->]. simpl. eauto.
    + right. by apply Hraise.
  - exists h. split; [exact Hh | by apply Hraise].
Qed.

Lemma unseen_binary_value_raises_witness :
  let h := mk_house (Some "Bungalow") "Carport" "N" "N" "Y" 18 1600 53 (-113) 450000 in
  preprocessor_transform sample_pipeline.1 h = Raise ValueError /\
  ridgecv_predict sample_pipeline h = Raise ValueError /\
  build_test_set_score sample_pipeline (sample_test ++ [h]) = Raise ValueError.
Proof.
  cbv zeta.
  apply (unseen_binary_value_raises sample_ridge_solve sample_ridge_error sample_train).
  - apply sample_pipeline_fitted.
  - apply elem_of_app. right. apply list_elem_of_singleton. reflexivity.
  - apply (bool_decide_unpack _). vm_compute. exact I.
Defined.

Lemma dot_zeros (k : nat) (w x : list Q) :
  dot w (replicate k 0 ++ x) == dot (skipn k w) x.
Proof.
  unfold dot. revert w. induction k as [|k IH]; intros w; simpl.
  - reflexivity.
  - destruct w as [|a w]; simpl; [reflexivity|]. rewrite IH. ring.
Qed.

(** X8. For a test row whose building description is new, the prediction
    of the refitted ridge model uses none of the category coefficients: it
    is the intercept plus the contributions of the binary and numerical
    features alone. *)
Theorem unseen_category_prediction
    (ridge_solve : Q -> list (list Q) -> list Q -> list Q * Q)
    (ridge_error : Q -> list (list Q) -> list Q -> Q)
    (train : list house) (pm : ColumnTransformer * RidgeCV) (h : house) :
  ridgecv_fit ridge_solve ridge_error train = Ok pm ->
  binary_known train h ->
  impute_str (BLDG_DESC h) ∉ bldg_desc train ->
  exists b v,
    ohe_transform (pipeline_2 pm.1) (binary_cells h) = Ok b /\
    ridgecv_predict pm h = Ok v /\
    v == dot (skipn (n_distinct (bldg_desc train)) (coef_ pm.2))
             (b ++ map impute_num (numerical_cells h))
         + intercept_ pm.2.
Proof.
  intros Hfit Hbin Hunseen.
  pose proof (ridgecv_fit_inv _ _ _ _ Hfit) as Hp.
  destruct (binary_transform_known train h Hbin) as [b Hb].
  exists b. eexists. rewrite Hp. split; [exact Hb|].
  unfold ridgecv_predict, preprocessor_transform.
  rewrite Hp, (categorical_transform_unseen train h Hunseen), Hb. simpl.
  split; [reflexivity|]. unfold linear_predict. by rewrite dot_zeros.
Qed.

Lemma unseen_category_prediction_witness :
  let h := mk_house (Some "Duplex") "Y" "N" "N" "Y" 18 1600 53 (-113) 450000 in
  exists b v,
    ohe_transform (pipeline_2 sample_pipeline.1) (binary_cells h) = Ok b /\
    ridgecv_predict sample_pipeline h = Ok v /\
    v == dot (skipn (n_distinct (bldg_desc sample_train)) (coef_ sample_pipeline.2))
             (b ++ map impute_num (numerical_cells h))
         + intercept_ sample_pipeline.2.
Proof.
  cbv zeta.
  apply (unseen_category_prediction sample_ridge_solve sample_ridge_error sample_train).
  - apply sample_pipeline_fitted.
  - apply (bool_decide_unpack _). vm_compute. exact I.
  - apply (bool_decide_unpack _). vm_compute. exact I.
Defined.

(** ** Scores *)

Lemma sum_sq_nonneg (l : list Q) : 0 <= sum_sq l.
Proof.
  unfold sum_sq. induction l as [|x l IH]; simpl; [apply Qle_refl|].
  assert (0 <= x * x) by nra. lra.
Qed.

Lemma coefficient_of_determination_le_1 (y_true y_pred : list Q) :
  coefficient_of_determination y_true y_pred <= 1.
Proof.
  unfold coefficient_of_determination.
  set (num := sum_sq (zip_with Qminus y_true y_pred)).
  set (den := sum_sq (map (fun y => y - mean y_true) y_true)).
  destruct (Qeq_bool num 0); [apply Qle_refl|].
  destruct (Qeq_bool den 0) eqn:E; [apply Qle_bool_iff; reflexivity|].
  apply Qeq_bool_neq in E.
  pose proof (sum_sq_nonneg (zip_with Qminus y_true y_pred)) as Hn. fold num in Hn.
  pose proof (sum_sq_nonneg (map (fun y => y - mean y_true) y_true)) as Hd. fold den in Hd.
  assert (Hpos : 0 < den) by (apply Qle_lteq in Hd as [Hd|Hd]; [exact Hd | by symmetry in Hd]).
  assert (0 <= num / den).
  { unfold Qdiv. apply Qmult_le_0_compat; [exact Hn|].
    apply Qlt_le_weak, Qinv_lt_0_compat, Hpos. }
  lra.
Qed.

(** X9. The test-score table has the single row "test_score" and the
    single value column "RidgeCV".  With two test rows or more the value
    is the R² of the refitted ridge pipeline on the test rows, written
    unrounded, and never exceeds one.  With a single test row R² is not
    defined and the cell is [NaN].  Without test rows the prediction
    raises ValueError and no table is built. *)
Theorem test_score_table
    (ridge_solve : Q -> list (list Q) -> list Q -> list Q * Q)
    (ridge_error : Q -> list (list Q) -> list Q -> Q)
    (train test : list house) (pm : ColumnTransformer * RidgeCV) :
  ridgecv_fit ridge_solve ridge_error train = Ok pm ->
  (forall h, h ∈ test -> binary_known train h) ->
  (test = [] -> build_test_set_score pm test = Raise ValueError) /\
  (length test = 1%nat ->
   exists df,
     build_test_set_score pm test = Ok df /\
     header df = ["index"; "RidgeCV"] /\
     csv_rows df = [[Some (Str "test_score"); Some Nan]]) /\
  ((2 <= length test)%nat ->
   exists df pred x,
     build_test_set_score pm test = Ok df /\
     header df = ["index"; "RidgeCV"] /\
     csv_rows df = [[Some (Str "test_score"); Some (Num x)]] /\
     Forall2 (fun h p => ridgecv_predict pm h = Ok p) test pred /\
     r2_score (y_of test) pred = Ok (Finite x) /\
     x <= 1).
Proof.
  intros Hfit Hbin. pose proof (ridgecv_fit_inv _ _ _ _ Hfit) as Hp.
  split; [by intros ->|].
  assert (Hscore : test <> [] ->
            exists pred,
              Forall2 (fun h p => ridgecv_predict pm h = Ok p) test pred /\
              build_test_set_score pm test
              = Ok (reset_index
                      {| index := [Str "test_score"];
                         columns :=
                           [("RidgeCV",
                             [cell_of_float
                                (if (length test <? 2)%nat then NaN
                                 else Finite (coefficient_of_determination
                                                (y_of test) pred))])] |})).
  { intros Hne. apply build_test_set_score_total; [exact Hne|].
    intros h Hh. unfold ridgecv_predict. rewrite Hp.
    destruct (preprocessor_transform_known train h (Hbin h Hh)) as [x ->]. simpl. eauto. }
  split.
  - intros H1. destruct Hscore as (pred & _ & ->); [by intros ->|].
    rewrite H1. eexists. split; [reflexivity|]. split; reflexivity.
  - intros H2. destruct Hscore as (pred & HF & ->); [intros ->; simpl in H2; lia|].
    assert (E : (length test <? 2)%nat = false) by (apply Nat.ltb_ge; lia).
    rewrite E. eexists _, pred, _. split; [reflexivity|]. split; [reflexivity|].
    split; [reflexivity|]. split; [exact HF|]. split.
    + apply r2_score_finite.
      * unfold y_of. rewrite length_map. by eapply Forall2_length.
      * apply Forall2_length in HF. lia.
    + apply coefficient_of_determination_le_1.
Qed.

Lemma test_score_table_witness :
  exists df pred x,
    build_test_set_score sample_pipeline sample_test = Ok df /\
    header df = ["index"; "RidgeCV"] /\
    csv_rows df = [[Some (Str "test_score"); Some (Num x)]] /\
    Forall2 (fun h p => ridgecv_predict sample_pipeline h = Ok p) sample_test pred /\
    r2_score (y_of sample_test) pred = Ok (Finite x) /\
    x <= 1.
Proof.
  apply (test_score_table sample_ridge_solve sample_ridge_error sample_train).
  - apply sample_pipeline_fitted.
  - apply sample_test_binary_known.
  - simpl. lia.
Defined.

Lemma zip_with_minus_const (y : list Q) (m : Q) :
  zip_with Qminus y (replicate (length y) m) = map (fun v => v - m) y.
Proof. induction y as [|v y IH]; simpl; [reflexivity|]. by rewrite IH. Qed.

Lemma Forall2_const_replicate {A} (l : list A) (m : Q) (ps : list Q) :
  Forall2 (fun (_ : A) p => Ok m = Ok p) l ps -> ps = replicate (length l) m.
Proof.
  induction 1 as [|h p l ps Hp _ IH]; simpl; [reflexivity|].
  injection Hp as <-. by rewrite IH.
Qed.

Lemma r2_of_mean (y : list Q) :
  if Qeq_bool (sum_sq (map (fun v => v - mean y) y)) 0
  then coefficient_of_determination y (replicate (length y) (mean y)) = 1
  else coefficient_of_determination y (replicate (length y) (mean y)) == 0.
Proof.
  unfold coefficient_of_determination. rewrite zip_with_minus_const.
  destruct (Qeq_bool (sum_sq (map (fun v => v - mean y) y)) 0) eqn:E; [reflexivity|].
  apply Qeq_bool_neq in E. field. exact E.
Qed.

(** X10. The dummy baseline is cross-validated on five folds as soon as
    the train set has five rows, and on the training rows of every fold
    its R² is zero, or one when the fold's training target is constant:
    it predicts the mean of the rows it was fitted on. *)
Theorem dummy_train_score (elapsed : string -> nat -> Q * Q) (train : list house) :
  (5 <= length train)%nat ->
  exists d,
    dummy_scores elapsed train = Ok (scores_dict d) /\
    length d = 5%nat /\
    forall i s, d !! i = Some s ->
      let y := y_of (fold_train train 5 i) in
      if Qeq_bool (sum_sq (map (fun v => v - mean y) y)) 0
      then fs_train_score s = Finite 1
      else exists v, fs_train_score s = Finite v /\ v == 0.
Proof.
  intros Hn.
  destruct (cross_validate_Ok dummy train None (elapsed "dummy"))
    as (d & Hd & Hdl & Hds); [simpl; lia | simpl; lia | |].
  { intros i _. apply dummy_fold. }
  exists d. split; [exact Hd|]. split; [exact Hdl|].
  intros i s Hs. destruct (Hds i s Hs) as [Hsc _]. simpl in Hsc.
  assert (Hi : (i < 5)%nat)
    by (pose proof (lookup_lt_Some _ _ _ Hs); simpl in Hdl; lia).
  pose proof (fold_train_two train 5 i Hi ltac:(lia) Hn) as H2.
  destruct Hsc as (predict & test_pred & train_pred & Hfit & _ & Htrain & _ & Hscore).
  simpl in Hfit. injection Hfit as <-.
  apply Forall2_const_replicate in Htrain. cbv zeta.
  assert (Hl : length (y_of (fold_train train 5 i)) = length (fold_train train 5 i))
    by (unfold y_of; apply length_map).
  rewrite Htrain, r2_score_finite in Hscore by (rewrite length_replicate; assumption).
  injection Hscore as <-. rewrite <- Hl.
  pose proof (r2_of_mean (y_of (fold_train train 5 i))) as Hm.
  destruct (Qeq_bool _ 0); [by rewrite Hm | eauto].
Qed.

Lemma dummy_train_score_witness :
  exists d,
    dummy_scores sample_elapsed sample_train = Ok (scores_dict d) /\
    length d = 5%nat /\
    forall i s, d !! i = Some s ->
      let y := y_of (fold_train sample_train 5 i) in
      if Qeq_bool (sum_sq (map (fun v => v - mean y) y)) 0
      then fs_train_score s = Finite 1
      else exists v, fs_train_score s = Finite v /\ v == 0.
Proof.
  apply (dummy_train_score sample_elapsed sample_train). simpl. lia.
Defined.

Lemma cross_validate_small (est : estimator) (data : list house) (cv : option nat)
    (elapsed : nat -> Q * Q) :
  (length data < check_cv cv)%nat ->
  cross_validate est data cv elapsed = Raise ValueError.
Proof.
  intros H. unfold cross_validate, KFold.
  destruct (check_cv cv <? 2)%nat; [reflexivity|].
  apply Nat.ltb_lt in H. by rewrite H.
Qed.

(** X11. A train set of fewer than ten rows cannot be split into the ten
    folds asked for the ridge model (nor, under five rows, into the five of
    the baseline): [main] ends with ValueError before anything is written,
    and the disk is as it was. *)
Theorem small_train_set_raises
    (ridge_solve : Q -> list (list Q) -> list Q -> list Q * Q)
    (ridge_error : Q -> list (list Q) -> list Q -> Q)
    (RandomForestRegressor XGBRegressor :
       nat -> nat -> nat -> list (list Q) -> list Q -> list Q -> Q)
    (elapsed : string -> nat -> Q * Q)
    (train_df test_df : list house) (out_file1 out_file2 out_file3 : path)
    (fs : filesystem) :
  (length train_df < 10)%nat ->
  main ridge_solve ridge_error RandomForestRegressor XGBRegressor elapsed
       train_df test_df out_file1 out_file2 out_file3 fs
  = (Raise ValueError, fs).
Proof.
  intros Hn. unfold main.
  assert (H : main_tables ridge_solve ridge_error RandomForestRegressor XGBRegressor
                elapsed train_df test_df = Raise ValueError); [|by rewrite H].
  unfold main_tables, build_scores_df.
  destruct (Nat.lt_ge_cases (length train_df) 5) as [H5|H5].
  - unfold dummy_scores. by rewrite cross_validate_small by (simpl; lia).
  - destruct (cross_validate_Ok dummy train_df None (elapsed "dummy"))
      as (d & Hd & _); [simpl; lia | simpl; lia | |].
    { intros i _. apply dummy_fold. }
    unfold store_scores, dummy_scores, ridgecv_scores.
    rewrite Hd. simpl. by rewrite cross_validate_small by (simpl; lia).
Qed.

Lemma small_train_set_raises_witness :
  main sample_ridge_solve sample_ridge_error sample_ensemble sample_ensemble sample_elapsed
       (take 9 sample_train) sample_test
       ["results"; "cv_scores.csv"] ["results"; "test_score.csv"]
       ["results"; "coefficients.csv"] empty_disk
  = (Raise ValueError, empty_disk).
Proof.
  apply (small_train_set_raises sample_ridge_solve sample_ridge_error sample_ensemble
           sample_ensemble sample_elapsed (take 9 sample_train)).
  simpl. lia.
Defined.

(** ** More on the writer *)

Lemma write_file_overwrite (data : DataFrame) (p : path) (fs : filesystem) (w : bool)
    (old : option DataFrame) :
  p <> [] ->
  lookup_dir fs [] (dirname p) = Ok w -> nodes fs !! p = Some (File true old) ->
  (csv_size data <= free_space fs)%nat ->
  write_file data p fs
  = (Ok (), use_space (csv_size data) (set_node p (File true (Some data)) fs)).
Proof.
  intros Hp Hd Hn Hs. unfold write_file. destruct p as [|c p']; [done|].
  rewrite Hd, Hn. apply Nat.leb_le in Hs. by rewrite Hs.
Qed.

(** X12. When the destination directory is there, a block writes its
    table with a single call and never calls [os.makedirs]: a new file is
    created in a writable directory, an existing writable file is replaced;
    no other node changes. *)
Theorem write_into_existing_directory (data : DataFrame) (out_file : path)
    (fs : filesystem) (w : bool) :
  out_file <> [] ->
  lookup_dir fs [] (dirname out_file) = Ok w ->
  (nodes fs !! out_file = None /\ w = true) \/
    (exists old, nodes fs !! out_file = Some (File true old)) ->
  (csv_size data <= free_space fs)%nat ->
  exists fs',
    write_output data out_file fs = (Ok (), fs') /\
    calls fs' = calls fs ++ [call_to_csv out_file (Ok ())] /\
    nodes fs' !! out_file = Some (File true (Some data)) /\
    (forall p, p <> out_file -> nodes fs' !! p = nodes fs !! p) /\
    free_space fs' = (free_space fs - csv_size data)%nat.
Proof.
  intros Hne Hd Hcase Hs.
  assert (Hw : write_file data out_file fs
               = (Ok (), use_space (csv_size data)
                           (set_node out_file (File true (Some data)) fs))).
  { destruct Hcase as [[Hn ->]|[old Hn]].
    - by apply write_file_new.
    - by eapply write_file_overwrite. }
  unfold write_output, to_csv. rewrite Hw.
  eexists. split; [reflexivity|]. simpl. split; [reflexivity|].
  split; [by rewrite lookup_insert_eq|]. split; [|reflexivity].
  intros p Hp. by rewrite lookup_insert_ne.
Qed.

Lemma write_into_existing_directory_witness :
  exists fs',
    write_output one_row_table ["results"; "coefficients.csv"] readonly_target
      = (Ok (), fs') /\
    calls fs' = calls readonly_target
                ++ [call_to_csv ["results"; "coefficients.csv"] (Ok ())] /\
    nodes fs' !! ["results"; "coefficients.csv"] = Some (File true (Some one_row_table)) /\
    (forall p, p <> ["results"; "coefficients.csv"] ->
       nodes fs' !! p = nodes readonly_target !! p) /\
    free_space fs' = (free_space readonly_target - csv_size one_row_table)%nat.
Proof.
  apply (write_into_existing_directory one_row_table ["results"; "coefficients.csv"]
           readonly_target true).
  - discriminate.
  - vm_compute. reflexivity.
  - left. split; [vm_compute; reflexivity | reflexivity].
  - vm_compute. lia.
Defined.

Lemma write_file_readonly (data : DataFrame) (p : path) (fs : filesystem) (w : bool)
    (old : option DataFrame) :
  p <> [] ->
  lookup_dir fs [] (dirname p) = Ok w -> nodes fs !! p = Some (File false old) ->
  write_file data p fs = (Raise PermissionError, fs).
Proof.
  intros Hp Hd Hn. unfold write_file. destruct p as [|c p']; [done|].
  by rewrite Hd, Hn.
Qed.

(** X13. Nothing is rolled back: when the third table cannot be written
    (its file is read-only in the existing output directory), the run ends
    with the FileExistsError of the handler's [os.makedirs], while the
    first two tables stay on disk and the third file is untouched. *)
Theorem failed_third_write_keeps_first_two (t : tables) (d : path)
    (n1 n2 n3 : string) (old : option DataFrame) (fs : filesystem) :
  d <> [] ->
  lookup_dir fs [] d = Ok true ->
  nodes fs !! (d ++ [n1]) = None ->
  nodes fs !! (d ++ [n2]) = None ->
  nodes fs !! (d ++ [n3]) = Some (File false old) ->
  n1 <> n2 -> n1 <> n3 -> n2 <> n3 ->
  (csv_size (scores_df t) + csv_size (test_set_score t) <= free_space fs)%nat ->
  exists fs',
    write_tables t (d ++ [n1]) (d ++ [n2]) (d ++ [n3]) fs = (Raise FileExistsError, fs') /\
    nodes fs' !! (d ++ [n1]) = Some (File true (Some (scores_df t))) /\
    nodes fs' !! (d ++ [n2]) = Some (File true (Some (test_set_score t))) /\
    nodes fs' !! (d ++ [n3]) = Some (File false old) /\
    calls fs' = calls fs ++
      [call_to_csv (d ++ [n1]) (Ok ());
       call_to_csv (d ++ [n2]) (Ok ());
       call_to_csv (d ++ [n3]) (Raise PermissionError);
       call_makedirs d (Raise FileExistsError)].
Proof.
  intros Hd Hl H1 H2 H3 H12 H13 H23 Hsize.
  unfold write_tables.
  rewrite write_output_direct; cycle 1.
  { apply snoc_not_nil. }
  { by rewrite dirname_snoc. }
  { exact H1. }
  { lia. }
  set (fsa := log (call_to_csv (d ++ [n1]) (Ok ()))
                (use_space (csv_size (scores_df t))
                   (set_node (d ++ [n1]) (File true (Some (scores_df t))) fs))).
  assert (Hla : lookup_dir fsa [] d = Ok true).
  { unfold fsa. rewrite lookup_dir_log, lookup_dir_use_space,
      lookup_dir_set_node_longer; [exact Hl|]. rewrite length_app. simpl. lia. }
  rewrite write_output_direct; cycle 1.
  { apply snoc_not_nil. }
  { by rewrite dirname_snoc. }
  { simpl. by rewrite lookup_insert_ne by (by apply snoc_inj_ne). }
  { simpl. lia. }
  set (fsb := log (call_to_csv (d ++ [n2]) (Ok ()))
                (use_space (csv_size (test_set_score t))
                   (set_node (d ++ [n2]) (File true (Some (test_set_score t))) fsa))).
  assert (Hlb : lookup_dir fsb [] d = Ok true).
  { unfold fsb. rewrite lookup_dir_log, lookup_dir_use_space,
      lookup_dir_set_node_longer; [exact Hla|]. rewrite length_app. simpl. lia. }
  assert (H3b : nodes fsb !! (d ++ [n3]) = Some (File false old)).
  { simpl. rewrite !lookup_insert_ne by (apply snoc_inj_ne; congruence). exact H3. }
  destruct (write_output_directory_present (feature_table_df t) (d ++ [n3]) fsb
              (log (call_to_csv (d ++ [n3]) (Raise PermissionError)) fsb) PermissionError)
    as (e' & fs' & Hw & He & Hc).
  { unfold to_csv. rewrite (write_file_readonly _ _ _ true old); try done.
    - apply snoc_not_nil.
    - by rewrite dirname_snoc. }
  { rewrite dirname_snoc. by eapply lookup_dir_Ok_path_exists. }
  rewrite dirname_snoc in He, Hc.
  rewrite bool_decide_eq_false_2 in He by done. subst e'.
  rewrite Hw. exists fs'. split; [reflexivity|].
  assert (Hnodes : nodes fs' = nodes fsb).
  { unfold write_output, to_csv in Hw.
    rewrite (write_file_readonly _ _ _ true old) in Hw; try done.
    - rewrite dirname_snoc in Hw. unfold os_makedirs in Hw.
      destruct d as [|c d0 _] using rev_ind; [done|].
      rewrite rev_unit in Hw. simpl in Hw. rewrite rev_involutive in Hw.
      assert (Hl' : lookup_dir (log (call_to_csv ((d0 ++ [c]) ++ [n3])
                                       (Raise PermissionError)) fsb) [] (d0 ++ [c])
                    = Ok true) by (by rewrite lookup_dir_log).
      pose proof Hl' as Hl''. rewrite lookup_dir_snoc in Hl''. cbn [app] in Hl''.
      destruct (lookup_dir (log (call_to_csv ((d0 ++ [c]) ++ [n3])
                                   (Raise PermissionError)) fsb) [] d0)
        as [w0|e0] eqn:Hd0; [|discriminate].
      rewrite (lookup_dir_Ok_path_exists _ _ _ Hd0), andb_false_r in Hw.
      rewrite stat_snoc in Hl''.
      destruct (nodes (log (call_to_csv ((d0 ++ [c]) ++ [n3]) (Raise PermissionError)) fsb)
                  !! (d0 ++ [c])) as [n|] eqn:Hn; [|discriminate].
      rewrite (os_mkdir_exists _ _ _ _ _ Hd0 Hn) in Hw.
      by injection Hw as <-.
    - apply snoc_not_nil.
    - by rewrite dirname_snoc. }
  rewrite Hnodes. split; [|split; [|split]].
  - simpl. rewrite lookup_insert_ne by (by apply snoc_inj_ne; congruence).
    by rewrite lookup_insert_eq.
  - simpl. by rewrite lookup_insert_eq.
  - exact H3b.
  - rewrite Hc. simpl. by rewrite <- !app_assoc.
Qed.

Lemma failed_third_write_keeps_first_two_witness :
  exists fs',
    write_tables sample_tables (["results"] ++ ["cv_scores.csv"])
                 (["results"] ++ ["test_score.csv"]) (["results"] ++ ["coefficients.csv"])
                 readonly_coefficients = (Raise FileExistsError, fs') /\
    nodes fs' !! (["results"] ++ ["cv_scores.csv"])
      = Some (File true (Some (scores_df sample_tables))) /\
    nodes fs' !! (["results"] ++ ["test_score.csv"])
      = Some (File true (Some (test_set_score sample_tables))) /\
    nodes fs' !! (["results"] ++ ["coefficients.csv"]) = Some (File false None) /\
    calls fs' = calls readonly_coefficients ++
      [call_to_csv (["results"] ++ ["cv_scores.csv"]) (Ok ());
       call_to_csv (["results"] ++ ["test_score.csv"]) (Ok ());
       call_to_csv (["results"] ++ ["coefficients.csv"]) (Raise PermissionError);
       call_makedirs ["results"] (Raise FileExistsError)].
Proof.
  apply (failed_third_write_keeps_first_two sample_tables ["results"]
           "cv_scores.csv" "test_score.csv" "coefficients.csv" None readonly_coefficients).
  - discriminate.
  - vm_compute. reflexivity.
  - vm_compute. reflexivity.
  - vm_compute. reflexivity.
  - vm_compute. reflexivity.
  - discriminate.
  - discriminate.
  - discriminate.
  - vm_compute. lia.
Defined.

Lemma path_exists_below_raise (fs : filesystem) (q rest : path) (e : exn) :
  rest <> [] -> lookup_dir fs [] q = Raise e -> path_exists fs (q ++ rest) = false.
Proof.
  intros Hne Hq. destruct rest as [|y rest' _] using rev_ind; [done|].
  unfold path_exists. rewrite app_assoc, dirname_snoc.
  rewrite (lookup_dir_app_raise _ _ _ _ _ Hq).
  destruct ((q ++ rest') ++ [y]) eqn:E; [by apply snoc_not_nil in E | reflexivity].
Qed.

Lemma makedirs_rev_under_file (fs : filesystem) (pre rest : path) (c : string) (w wf : bool)
    (content : option DataFrame) :
  rest <> [] ->
  lookup_dir fs [] pre = Ok w ->
  nodes fs !! (pre ++ [c]) = Some (File wf content) ->
  makedirs_rev (rev (pre ++ [c] ++ rest)) fs = (Raise NotADirectoryError, fs).
Proof.
  intros Hrest Hpre Hfile.
  assert (Hhead : lookup_dir fs [] (pre ++ [c]) = Raise NotADirectoryError).
  { rewrite lookup_dir_snoc, Hpre. cbn [app]. by rewrite stat_snoc, Hfile. }
  induction rest as [|x rest IH] using rev_ind; [done|]. clear Hrest.
  rewrite !app_assoc, rev_unit. simpl. rewrite rev_involutive.
  assert (Hmk : os_mkdir (((pre ++ [c]) ++ rest) ++ [x]) fs
                = (Raise NotADirectoryError, fs)).
  { unfold os_mkdir. rewrite dirname_snoc, (lookup_dir_app_raise _ _ _ _ _ Hhead).
    destruct ((((pre ++ [c]) ++ rest) ++ [x])) eqn:E; [by apply snoc_not_nil in E|].
    reflexivity. }
  rewrite bool_decide_eq_false_2
    by (intros E; apply (f_equal length) in E; rewrite !length_app in E; simpl in E; lia).
  simpl.
  destruct (decide (rest = [])) as [->|Hne].
  - rewrite app_nil_r.
    assert (Hex : path_exists fs (pre ++ [c]) = true).
    { unfold path_exists. rewrite dirname_snoc, Hpre.
      destruct (pre ++ [c]) eqn:E; [reflexivity|]. rewrite Hfile.
      apply bool_decide_eq_true_2. eauto. }
    rewrite Hex. simpl. rewrite app_nil_r in Hmk. exact Hmk.
  - assert (Hex : path_exists fs ((pre ++ [c]) ++ rest) = false).
    { by eapply path_exists_below_raise. }
    rewrite Hex. simpl. rewrite <- app_assoc. rewrite (IH Hne).
    reflexivity.
Qed.

(** X14. When a regular file sits on the way to the destination
    directory, the first write fails with NotADirectoryError, the
    handler's [os.makedirs] fails the same way, and the block raises it
    without changing a node. *)
Theorem file_on_the_way_raises (data : DataFrame) (pre rest : path) (c name : string)
    (w wf : bool) (content : option DataFrame) (fs : filesystem) :
  rest <> [] ->
  lookup_dir fs [] pre = Ok w ->
  nodes fs !! (pre ++ [c]) = Some (File wf content) ->
  exists fs',
    write_output data ((pre ++ [c] ++ rest) ++ [name]) fs = (Raise NotADirectoryError, fs') /\
    nodes fs' = nodes fs /\
    calls fs' = calls fs ++
      [call_to_csv ((pre ++ [c] ++ rest) ++ [name]) (Raise NotADirectoryError);
       call_makedirs (pre ++ [c] ++ rest) (Raise NotADirectoryError)].
Proof.
  intros Hrest Hpre Hfile.
  assert (Hd : lookup_dir fs [] (pre ++ [c] ++ rest) = Raise NotADirectoryError).
  { rewrite app_assoc. apply lookup_dir_app_raise.
    rewrite lookup_dir_snoc, Hpre. cbn [app]. by rewrite stat_snoc, Hfile. }
  unfold write_output, to_csv.
  rewrite (write_file_missing_dir _ _ _ NotADirectoryError);
    [|apply snoc_not_nil | by rewrite dirname_snoc].
  rewrite dirname_snoc. unfold os_makedirs.
  rewrite (makedirs_rev_under_file _ pre rest c w wf content); try done.
  - eexists. split; [reflexivity|]. split; [reflexivity|].
    simpl. by rewrite <- app_assoc.
  - by rewrite lookup_dir_log.
Qed.

Lemma file_on_the_way_raises_witness :
  exists fs',
    write_output one_row_table (([] ++ ["results"] ++ ["tables"]) ++ ["cv_scores.csv"])
                 file_in_the_way = (Raise NotADirectoryError, fs') /\
    nodes fs' = nodes file_in_the_way /\
    calls fs' = calls file_in_the_way ++
      [call_to_csv (([] ++ ["results"] ++ ["tables"]) ++ ["cv_scores.csv"])
                   (Raise NotADirectoryError);
       call_makedirs ([] ++ ["results"] ++ ["tables"]) (Raise NotADirectoryError)].
Proof.
  apply (file_on_the_way_raises one_row_table [] ["tables"] "results" "cv_scores.csv"
           true true None file_in_the_way).
  - discriminate.
  - reflexivity.
  - vm_compute. reflexivity.
Defined.

(** ** The whole run *)

Section WholeRun.

Variable ridge_solve : Q -> list (list Q) -> list Q -> list Q * Q.
Variable ridge_error : Q -> list (list Q) -> list Q -> Q.
Variable RandomForestRegressor XGBRegressor :
  nat -> nat -> nat -> list (list Q) -> list Q -> list Q -> Q.
Variable elapsed : string -> nat -> Q * Q.

(** On well-formed inputs the modelling stage returns its three tables. *)
Lemma main_tables_total (train test : list house) :
  (forall a X y, length (ridge_solve a X y).1 = n_features X) ->
  (10 <= length train)%nat ->
  cv_encodable train 10 -> cv_encodable train 5 ->
  test <> [] ->
  (forall h, h ∈ test -> binary_known train h) ->
  exists t,
    main_tables ridge_solve ridge_error RandomForestRegressor XGBRegressor elapsed
                train test = Ok t /\
    csv_size (scores_df t) = 25%nat /\
    csv_size (test_set_score t) = 4%nat /\
    csv_size (feature_table_df t)
      = (2 * S (length (expanded_features (preprocessor_fit train))))%nat /\
    header (scores_df t)
      = ["index"; "dummy_score"; "ridgecv_score"; "random_forest"; "XGB_Regression"] /\
    header (test_set_score t) = ["index"; "RidgeCV"] /\
    header (feature_table_df t) = ["feature"; "coefficient"].
Proof.
  intros Hshape Hn H10 H5 Htest Hbin.
  destruct (four_cross_validations ridge_solve ridge_error RandomForestRegressor
              XGBRegressor elapsed train Hn H10 H5)
    as (d & r & f & x & (Hd & Hr & Hf & Hx) & _ & _).
  destruct (ridgecv_fit_total ridge_solve ridge_error train)
    as (Xt & m & Hfit & HXt & _ & Hc).
  assert (Hne : train <> []) by (intros ->; simpl in Hn; lia).
  assert (Hcoef : length (coef_ m) = length (expanded_features (preprocessor_fit train))).
  { rewrite Hc, Hshape. eapply n_features_Forall2; [exact HXt | exact Hne |].
    intros h v. apply preprocessor_transform_length. }
  destruct (ranked_coefficients_total (expanded_features (preprocessor_fit train)) (coef_ m))
    as (ft & Hft & Hftl); [lia|].
  destruct (build_test_set_score_total (preprocessor_fit train, m) test Htest)
    as (pred & _ & Hscore).
  { intros h Hh. unfold ridgecv_predict. simpl.
    destruct (preprocessor_transform_known train h (Hbin h Hh)) as [v ->]. simpl. eauto. }
  unfold main_tables.
  rewrite (build_scores_df_of _ _ _ _ _ _ d r f x Hd Hr Hf Hx). simpl.
  rewrite Hfit. simpl. rewrite Hscore. simpl.
  unfold build_feature_table. simpl. rewrite Hft. simpl.
  eexists. split; [reflexivity|]. simpl.
  repeat split.
  unfold csv_size, n_rows, feature_frame, RangeIndex. simpl.
  rewrite length_map, length_seq, Hftl, Hcoef. lia.
Qed.

End WholeRun.

(** X15. On well-formed inputs the run succeeds and leaves the three
    tables in the output directory, which it creates when it is missing:
    at least ten training rows whose folds the binary encoder accepts,
    at least one test row, test rows with known binary values, a solver
    returning one coefficient per column, three distinct file names in a
    directory that can be created, and room on the disk. *)
Theorem main_writes_three_tables
    (ridge_solve : Q -> list (list Q) -> list Q -> list Q * Q)
    (ridge_error : Q -> list (list Q) -> list Q -> Q)
    (RandomForestRegressor XGBRegressor :
       nat -> nat -> nat -> list (list Q) -> list Q -> list Q -> Q)
    (elapsed : string -> nat -> Q * Q)
    (train_df test_df : list house) (d : path) (n1 n2 n3 : string) (e : nat)
    (fs : filesystem) :
  (forall a X y, length (ridge_solve a X y).1 = n_features X) ->
  (10 <= length train_df)%nat ->
  cv_encodable train_df 10 -> cv_encodable train_df 5 ->
  test_df <> [] ->
  (forall h, h ∈ test_df -> binary_known train_df h) ->
  (e < length d)%nat ->
  lookup_dir fs [] (take e d) = Ok true ->
  (forall i, (e < i <= length d)%nat -> nodes fs !! take i d = None) ->
  nodes fs !! (d ++ [n1]) = None ->
  nodes fs !! (d ++ [n2]) = None ->
  nodes fs !! (d ++ [n3]) = None ->
  n1 <> n2 -> n1 <> n3 -> n2 <> n3 ->
  (29 + 2 * S (length (expanded_features (preprocessor_fit train_df)))
   <= free_space fs)%nat ->
  exists t fs',
    main_tables ridge_solve ridge_error RandomForestRegressor XGBRegressor elapsed
                train_df test_df = Ok t /\
    main ridge_solve ridge_error RandomForestRegressor XGBRegressor elapsed
         train_df test_df (d ++ [n1]) (d ++ [n2]) (d ++ [n3]) fs = (Ok (), fs') /\
    nodes fs' !! (d ++ [n1]) = Some (File true (Some (scores_df t))) /\
    nodes fs' !! (d ++ [n2]) = Some (File true (Some (test_set_score t))) /\
    nodes fs' !! (d ++ [n3]) = Some (File true (Some (feature_table_df t))) /\
    header (scores_df t)
      = ["index"; "dummy_score"; "ridgecv_score"; "random_forest"; "XGB_Regression"] /\
    header (test_set_score t) = ["index"; "RidgeCV"] /\
    header (feature_table_df t) = ["feature"; "coefficient"] /\
    calls fs' = calls fs ++
      [call_to_csv (d ++ [n1]) (Raise FileNotFoundError);
       call_makedirs d (Ok ());
       call_to_csv (d ++ [n1]) (Ok ());
       call_to_csv (d ++ [n2]) (Ok ());
       call_to_csv (d ++ [n3]) (Ok ())].
Proof.
  intros Hshape Hn H10 H5 Htest Hbin He Hex Hdirs H1 H2 H3 H12 H13 H23 Hsize.
  destruct (main_tables_total ridge_solve ridge_error RandomForestRegressor XGBRegressor
              elapsed train_df test_df Hshape Hn H10 H5 Htest Hbin)
    as (t & Ht & Hs1 & Hs2 & Hs3 & Hh1 & Hh2 & Hh3).
  destruct (write_tables_fresh_directory t d n1 n2 n3 e fs He Hex Hdirs H1 H2 H3 H12 H13 H23)
    as (fs' & Hw & Hf1 & Hf2 & Hf3 & Hc).
  { rewrite Hs1, Hs2, Hs3. lia. }
  exists t, fs'. split; [exact Ht|]. split.
  - unfold main. by rewrite Ht.
  - repeat split; assumption.
Qed.

Lemma main_writes_three_tables_witness :
  exists t fs',
    main_tables sample_ridge_solve sample_ridge_error sample_ensemble sample_ensemble
                sample_elapsed sample_train sample_test = Ok t /\
    main sample_ridge_solve sample_ridge_error sample_ensemble sample_ensemble
         sample_elapsed sample_train sample_test
         (["results"; "tables"] ++ ["cv_scores.csv"])
         (["results"; "tables"] ++ ["test_score.csv"])
         (["results"; "tables"] ++ ["coefficients.csv"]) empty_disk = (Ok (), fs') /\
    nodes fs' !! (["results"; "tables"] ++ ["coefficients.csv"])
      = Some (File true (Some (feature_table_df t))).
Proof.
  destruct (main_writes_three_tables sample_ridge_solve sample_ridge_error
              sample_ensemble sample_ensemble sample_elapsed sample_train sample_test
              ["results"; "tables"] "cv_scores.csv" "test_score.csv" "coefficients.csv"
              0%nat empty_disk)
    as (t & fs' & Ht & Hm & _ & _ & Hf3 & _).
  - intros a X y. apply length_replicate.
  - simpl. lia.
  - apply sample_train_encodable_10.
  - apply sample_train_encodable_5.
  - discriminate.
  - apply sample_test_binary_known.
  - simpl. lia.
  - reflexivity.
  - intros i _. apply lookup_empty.
  - apply lookup_empty.
  - apply lookup_empty.
  - apply lookup_empty.
  - discriminate.
  - discriminate.
  - discriminate.
  - vm_compute. lia.
  - exists t, fs'. split; [exact Ht|]. split; [exact Hm | exact Hf3].
Defined.

(** ** Folds *)

(** X16. The folds [cross_validate] uses hold out consecutive blocks of
    rows: taken in order the held-out blocks are the whole sample, so
    every training row is held out in exactly one fold, and two folds
    differ in size by at most one row. *)
Theorem every_row_held_out_once (n_splits n_samples : nat) :
  (2 <= n_splits)%nat -> (n_splits <= n_samples)%nat ->
  exists folds,
    KFold n_splits n_samples = Ok folds /\
    length folds = n_splits /\
    concat (map snd folds) = seq 0 n_samples /\
    forall tr te, (tr, te) ∈ folds ->
      tr ++ te ≡ₚ seq 0 n_samples /\
      (n_samples / n_splits <= length te <= n_samples / n_splits + 1)%nat.
Proof.
  intros Hk Hn. rewrite KFold_Ok by assumption. eexists. split; [reflexivity|].
  split; [by rewrite length_map, length_seq|]. split.
  - rewrite map_map, test_folds_concat, fold_start_last by lia. reflexivity.
  - intros tr te Hin. apply list_elem_of_fmap in Hin as (i & Hi & Hin).
    apply elem_of_seq in Hin.
    assert (Htr : tr = (fold_indices n_samples n_splits i).1) by (by rewrite <- Hi).
    assert (Hte : te = (fold_indices n_samples n_splits i).2) by (by rewrite <- Hi).
    split.
    + rewrite Htr, Hte. apply fold_indices_partition. lia.
    + rewrite Hte. unfold fold_indices. simpl. rewrite length_seq.
      unfold fold_size. destruct (i <? n_samples mod n_splits)%nat; lia.
Qed.

Lemma every_row_held_out_once_witness :
  exists folds,
    KFold 10 23 = Ok folds /\
    length folds = 10%nat /\
    concat (map snd folds) = seq 0 23 /\
    forall tr te, (tr, te) ∈ folds ->
      tr ++ te ≡ₚ seq 0 23 /\ (23 / 10 <= length te <= 23 / 10 + 1)%nat.
Proof.
  apply (every_row_held_out_once 10 23); lia.
Defined.

(** ** The baseline on held-out rows *)

Lemma Qlen_succ {A} (x : A) (l : list A) :
  inject_Z (Z.of_nat (length (x :: l))) == inject_Z (Z.of_nat (length l)) + 1.
Proof.
  simpl length. rewrite Nat2Z.inj_succ, <- Z.add_1_r, inject_Z_plus. reflexivity.
Qed.

Lemma sum_sq_shift (y : list Q) (c : Q) :
  sum_sq (map (fun v => v - c) y)
  == sum_sq y - 2 * c * Qsum y + inject_Z (Z.of_nat (length y)) * c * c.
Proof.
  unfold sum_sq. induction y as [|v y IH].
  - simpl. ring.
  - rewrite Qlen_succ. simpl map. simpl Qsum. rewrite IH. ring.
Qed.

(** No constant fits a sample better, in squared error, than its mean. *)
Lemma sum_sq_mean_least (y : list Q) (c : Q) :
  sum_sq (map (fun v => v - mean y) y) <= sum_sq (map (fun v => v - c) y).
Proof.
  destruct y as [|v0 y0]; [apply Qle_refl|].
  assert (Hn : 0 < inject_Z (Z.of_nat (length (v0 :: y0)))).
  { change 0 with (inject_Z 0). rewrite <- Zlt_Qlt, length_cons.
    apply (Nat2Z.inj_lt 0), Nat.lt_0_succ. }
  set (y := v0 :: y0) in *. rewrite !sum_sq_shift.
  set (n := inject_Z (Z.of_nat (length y))) in *.
  assert (Hm : Qsum y == n * mean y).
  { unfold mean. fold n. field. lra. }
  rewrite Hm.
  assert (E : sum_sq y - 2 * c * (n * mean y) + n * c * c
              - (sum_sq y - 2 * mean y * (n * mean y) + n * mean y * mean y)
              == n * ((c - mean y) * (c - mean y))) by ring.
  assert (Hsq : forall z : Q, 0 <= z * z) by (intros z; nra).
  pose proof (Hsq (c - mean y)).
  assert (0 <= n * ((c - mean y) * (c - mean y))).
  { apply Qmult_le_0_compat; [by apply Qlt_le_weak | assumption]. }
  lra.
Qed.

Lemma r2_of_constant (y : list Q) (c : Q) :
  if Qeq_bool (sum_sq (map (fun v => v - c) y)) 0
  then coefficient_of_determination y (replicate (length y) c) = 1
  else coefficient_of_determination y (replicate (length y) c) <= 0.
Proof.
  unfold coefficient_of_determination. rewrite zip_with_minus_const.
  destruct (Qeq_bool (sum_sq (map (fun v => v - c) y)) 0) eqn:En; [reflexivity|].
  destruct (Qeq_bool (sum_sq (map (fun v => v - mean y) y)) 0) eqn:Ed; [apply Qle_refl|].
  apply Qeq_bool_neq in Ed.
  pose proof (sum_sq_nonneg (map (fun v => v - mean y) y)) as Hd.
  pose proof (sum_sq_mean_least y c) as Hle.
  set (den := sum_sq (map (fun v => v - mean y) y)) in *.
  set (num := sum_sq (map (fun v => v - c) y)) in *.
  assert (Hpos : 0 < den) by (apply Qle_lteq in Hd as [Hd|Hd]; [exact Hd | by symmetry in Hd]).
  assert (1 <= num / den).
  { apply Qle_shift_div_l; [exact Hpos | lra]. }
  lra.
Qed.

(** X17. On the held-out rows of a fold the dummy baseline scores an R²
    of at most zero, unless its constant prediction happens to be exact
    there (then the score is one): a model is better than the baseline
    exactly when its held-out R² is positive.  A fold that holds out a
    single row has no R², its score is [NaN]; from ten training rows on
    every one of the five folds holds out two rows or more. *)
Theorem dummy_test_score (elapsed : string -> nat -> Q * Q) (train : list house) :
  (5 <= length train)%nat ->
  exists d,
    dummy_scores elapsed train = Ok (scores_dict d) /\
    length d = 5%nat /\
    (forall i s, d !! i = Some s ->
       let m := mean (y_of (fold_train train 5 i)) in
       if (length (fold_test train 5 i) <? 2)%nat
       then fs_test_score s = NaN
       else if Qeq_bool (sum_sq (map (fun v => v - m) (y_of (fold_test train 5 i)))) 0
       then fs_test_score s = Finite 1
       else exists v, fs_test_score s = Finite v /\ v <= 0) /\
    ((10 <= length train)%nat ->
     forall i, (i < 5)%nat -> (2 <= length (fold_test train 5 i))%nat).
Proof.
  intros Hn.
  destruct (cross_validate_Ok dummy train None (elapsed "dummy"))
    as (d & Hd & Hdl & Hds); [simpl; lia | simpl; lia | |].
  { intros i _. apply dummy_fold. }
  exists d. split; [exact Hd|]. split; [exact Hdl|]. split.
  - intros i s Hs. destruct (Hds i s Hs) as [Hsc _]. simpl in Hsc.
    destruct Hsc as (predict & test_pred & train_pred & Hfit & Htest & _ & Hscore & _).
    simpl in Hfit. injection Hfit as <-.
    apply Forall2_const_replicate in Htest. cbv zeta.
    rewrite Htest, r2_score_of_rows in Hscore by apply length_replicate.
    injection Hscore as <-.
    destruct (length (fold_test train 5 i) <? 2)%nat; [reflexivity|].
    replace (length (fold_test train 5 i)) with (length (y_of (fold_test train 5 i)))
      by (unfold y_of; apply length_map).
    pose proof (r2_of_constant (y_of (fold_test train 5 i))
                  (mean (y_of (fold_train train 5 i)))) as Hc.
    destruct (Qeq_bool _ 0); [by rewrite Hc | eauto].
  - intros H10 i Hi. apply fold_test_two; [exact Hi | lia].
Qed.

Lemma dummy_test_score_witness :
  exists d,
    dummy_scores sample_elapsed sample_train = Ok (scores_dict d) /\
    length d = 5%nat /\
    (forall i s, d !! i = Some s ->
       let m := mean (y_of (fold_train sample_train 5 i)) in
       if (length (fold_test sample_train 5 i) <? 2)%nat
       then fs_test_score s = NaN
       else if Qeq_bool (sum_sq (map (fun v => v - m)
                                     (y_of (fold_test sample_train 5 i)))) 0
       then fs_test_score s = Finite 1
       else exists v, fs_test_score s = Finite v /\ v <= 0) /\
    ((10 <= length sample_train)%nat ->
     forall i, (i < 5)%nat -> (2 <= length (fold_test sample_train 5 i))%nat).
Proof.
  apply (dummy_test_score sample_elapsed sample_train). simpl. lia.
Defined.

(** ** Folds that hold out a single row *)

Lemma nanmean_all_nan {A} (f : A -> float) (l : list A) :
  (forall a, a ∈ l -> f a = NaN) -> nanmean (map f l) = NaN.
Proof.
  intros H. unfold nanmean.
  assert (E : finite_values (map f l) = []); [|by rewrite E].
  induction l as [|a l IH]; [reflexivity|].
  unfold finite_values in *. simpl. rewrite (H a) by (by left).
  apply IH. intros b Hb. apply H. by right.
Qed.

(** X18. The ridge pipeline is cross-validated on ten folds, so a train
    set of fewer than twenty rows has folds that hold out a single row.
    On such a fold R² is not defined and the held-out score is [NaN],
    while the score on the training rows is always a number.  With
    exactly ten training rows every ridge fold holds out one row: the
    mean over the folds has nothing to average and the test_score cell of
    the ridgecv_score column is [NaN]. *)
Theorem single_row_folds_score_nan
    (ridge_solve : Q -> list (list Q) -> list Q -> list Q * Q)
    (ridge_error : Q -> list (list Q) -> list Q -> Q)
    (RandomForestRegressor XGBRegressor :
       nat -> nat -> nat -> list (list Q) -> list Q -> list Q -> Q)
    (elapsed : string -> nat -> Q * Q)
    (train : list house) :
  (10 <= length train)%nat ->
  cv_encodable train 10 -> cv_encodable train 5 ->
  exists r df,
    ridgecv_scores ridge_solve ridge_error elapsed train = Ok (scores_dict r) /\
    length r = 10%nat /\
    (forall i s, r !! i = Some s ->
       (fs_test_score s = NaN <-> fold_size (length train) 10 i = 1%nat) /\
       fs_train_score s <> NaN) /\
    build_scores_df ridge_solve ridge_error RandomForestRegressor XGBRegressor elapsed train
      = Ok df /\
    (length train = 10%nat ->
     (forall s, s ∈ r -> fs_test_score s = NaN) /\
     csv_row df 2 !! 2%nat = Some (Some Nan)).
Proof.
  intros Hn H10 H5.
  destruct (four_cross_validations ridge_solve ridge_error RandomForestRegressor
              XGBRegressor elapsed train Hn H10 H5)
    as (d & r & f & x & (Hd & Hr & Hf & Hx) & (_ & Hrl & _) & (_ & Hrs & _)).
  assert (Hfold : forall i s, r !! i = Some s ->
            (fs_test_score s = NaN <-> fold_size (length train) 10 i = 1%nat) /\
            fs_train_score s <> NaN).
  { intros i s Hs.
    assert (Hi : (i < 10)%nat) by (rewrite <- Hrl; by eapply lookup_lt_Some).
    destruct (scored_on_fold_finite _ train 10 i s (Hrs i s Hs)) as [Ht Htr].
    pose proof (fold_train_two train 10 i Hi ltac:(lia) Hn) as H2.
    rewrite fold_test_length in Ht by exact Hi.
    destruct (k_fold_split (length train) 10 ltac:(lia) Hn) as [_ Hk].
    destruct (Hk i Hi) as (_ & H1 & _).
    split; [rewrite Ht; lia | intros E; apply Htr in E; lia]. }
  exists r. eexists. split; [exact Hr|]. split; [exact Hrl|]. split; [exact Hfold|].
  split; [by apply (build_scores_df_of _ _ _ _ _ _ d r f x)|].
  intros Hten.
  assert (Hall : forall s, s ∈ r -> fs_test_score s = NaN).
  { intros s Hs. apply list_elem_of_lookup_1 in Hs as [i Hi].
    apply (Hfold i s Hi). rewrite Hten. unfold fold_size. simpl.
    by destruct i. }
  split; [exact Hall|].
  unfold csv_row. simpl. rewrite (nanmean_all_nan fs_test_score r Hall). reflexivity.
Qed.

Lemma single_row_folds_score_nan_witness :
  exists r df,
    ridgecv_scores sample_ridge_solve sample_ridge_error sample_elapsed sample_train
      = Ok (scores_dict r) /\
    (forall s, s ∈ r -> fs_test_score s = NaN) /\
    build_scores_df sample_ridge_solve sample_ridge_error sample_ensemble sample_ensemble
                    sample_elapsed sample_train = Ok df /\
    csv_row df 2 !! 2%nat = Some (Some Nan).
Proof.
  destruct (single_row_folds_score_nan sample_ridge_solve sample_ridge_error
              sample_ensemble sample_ensemble sample_elapsed sample_train)
    as (r & df & Hr & _ & _ & Hdf & Hten).
  - simpl. lia.
  - apply sample_train_encodable_10.
  - apply sample_train_encodable_5.
  - exists r, df. split; [exact Hr|].
    destruct (Hten eq_refl) as [Hall Hcell].
    split; [exact Hall|]. split; [exact Hdf | exact Hcell].
Defined.
